(** * lazyrepo: input manifests, configuration loading and the [run] command

    A shallow embedding of the manifest computation ([computeManifest],
    [compareManifestTypes]), of the configuration layer ([getConfigFromDir],
    [TaskConfig], [Config]) and of the [run] command of lazyrepo, together
    with the properties of the specification that concern them.

    JavaScript strings are modelled as [string]: one character per code
    unit, compared code unit by code unit as [Array.prototype.sort] does.
    The code units of a [string] are below 256, so what is proved of a
    string function is proved of the strings without a code unit from 256
    on; of the others nothing is said.  JavaScript objects used as
    dictionaries are modelled as [gmap string _], objects whose key order
    is observed ([Object.entries]) as association lists, and [undefined] as
    [None]. *)

From stdpp Require Import gmap strings list sorting.
From Stdlib Require Import ZArith OrderedTypeEx.

Local Open Scope string_scope.
Local Open Scope list_scope.
Local Open Scope Z_scope.

(** ** Outcomes of effectful code

    A computation either returns, throws a JavaScript [Error], or ends the
    process through [process.exit].  The state reached so far is kept in all
    three cases: what was written before a throw stays written. *)

Inductive Outcome (St A : Type) : Type :=
| Ret (a : A) (s : St)
| Throw (msg : string) (s : St)
| Exit (code : Z) (s : St).

Arguments Ret {St A} a s.
Arguments Throw {St A} msg s.
Arguments Exit {St A} code s.

Definition M (St A : Type) : Type := St -> Outcome St A.

Definition ret {St A} (a : A) : M St A := fun s => Ret a s.

Definition bind {St A B} (c : M St A) (k : A -> M St B) : M St B :=
  fun s =>
    match c s with
    | Ret a s' => k a s'
    | Throw msg s' => Throw msg s'
    | Exit code s' => Exit code s'
    end.

Definition throw {St A} (msg : string) : M St A := fun s => Throw msg s.
Definition process_exit {St A} (code : Z) : M St A := fun s => Exit code s.
Definition gets {St A} (f : St -> A) : M St A := fun s => Ret (f s) s.
Definition modify {St} (f : St -> St) : M St unit := fun s => Ret tt (f s).

Notation "x <- c ;; k" := (bind c (fun x => k))
  (at level 100, c at next level, right associativity, only parsing).
Notation "c ;;; k" := (bind c (fun _ => k))
  (at level 100, right associativity, only parsing).

(** [for (const x of l) { acc = body(acc, x) }], stopping at the first throw. *)
Fixpoint forM {St A B} (body : A -> B -> M St A) (l : list B) (acc : A) : M St A :=
  match l with
  | [] => ret acc
  | x :: l' => acc' <- body acc x ;; forM body l' acc'
  end.

Definition outcome_state {St A} (o : Outcome St A) : St :=
  match o with Ret _ s | Throw _ s | Exit _ s => s end.

Definition returned {St A} (o : Outcome St A) : option A :=
  match o with Ret a _ => Some a | _ => None end.

Definition throws {St A} (o : Outcome St A) : bool :=
  match o with Throw _ _ => true | _ => false end.

(** ** Configuration data (types.js, index.d.ts) *)

Inductive RunType := Dependent | Independent | TopLevel.

Global Instance RunType_eq_dec : EqDecision RunType.
Proof. solve_decision. Defined.

(** A glob configuration is an array of patterns or an object with optional
    [include] and [exclude]. *)
Inductive GlobConfig :=
| GlobArray (patterns : list string)
| GlobObject (include exclude : option (list string)).

Record GlobPattern := { gp_include : list string; gp_exclude : list string }.

(** The [cache] field of a task as written in a config file. *)
Record CacheOptions := {
  co_envInputs : option (list string);
  co_inheritsInputFromDependencies : option bool;
  co_inputs : option GlobConfig;
  co_outputs : option GlobConfig;
  co_usesOutputFromDependencies : option bool;
}.

Inductive CacheSetting :=
| CacheNoneRaw                      (* the string 'none' *)
| CacheRaw (c : CacheOptions).

(** One entry of [runsAfter].  [inheritsInput] is only ever tested for
    truthiness, [usesOutput] is compared with [false] by [===], so its
    absence is kept apart. *)
Record DepConfig := {
  inheritsInput : bool;
  usesOutput : option bool;
}.

Record LazyTask := {
  lt_runType : option RunType;
  lt_baseCommand : option string;
  lt_runsAfter : option (list (string * DepConfig));
  lt_parallel : option bool;
  lt_cache : option CacheSetting;
}.

Definition emptyLazyTask : LazyTask :=
  {| lt_runType := None; lt_baseCommand := None; lt_runsAfter := None;
     lt_parallel := None; lt_cache := None |}.

Record BaseCacheConfig := {
  bc_includes : option (list string);
  bc_excludes : option (list string);
  bc_envInputs : option (list string);
}.

Record LazyConfig := {
  baseCacheConfig : option BaseCacheConfig;
  lc_tasks : option (gmap string LazyTask);
}.

(** The object literal [{}]. *)
Definition emptyLazyConfig : LazyConfig :=
  {| baseCacheConfig := None; lc_tasks := None |}.

Record LoadedConfig := {
  config : LazyConfig;
  filePath : option string;
}.

Record PackageDetails := {
  pd_name : string;
  pd_dir : string;
  pd_localDeps : option (list string);
}.

(** [packagesByName] keeps its insertion order: [Object.values] walks it. *)
Record RepoDetails := {
  packagesByName : list (string * PackageDetails);
}.

(** Property lookup [obj[k]] on an object kept as an association list. *)
Fixpoint obj_lookup {A} (k : string) (o : list (string * A)) : option A :=
  match o with
  | [] => None
  | (k', v) :: o' => if decide (k = k') then Some v else obj_lookup k o'
  end.

(** ** The platform

    Node's [path] module, the hash functions of hash.js, slugify, fast-glob
    and the module loader are used through this interface. *)

Record FileInfo := {
  f_content : string;
  (** [String(stat.mtimeMs)]: the only use made of the modification time *)
  f_mtimeMs : string;
}.

Class Platform := {
  hashString : string -> string;
  (** [hashFile(path, size)] hashes the content of the file at [path] *)
  hashContent : string -> string;
  slugify : string -> string;
  path_join : list string -> string;
  path_dirname : string -> string;
  path_relative : string -> string -> string;
  path_isAbsolute : string -> bool;
  (** [glob.sync(patterns, { cwd, ignore })] over the files that exist,
      as workspace-relative paths *)
  glob_sync : list string -> list string -> string -> gmap string FileInfo -> list string;
  (** file names directly inside a directory *)
  readdir : string -> gmap string FileInfo -> list string;
}.

(** ** Manifest types and their order (computeManifest.js) *)

Module types.
Definition upstreamTaskInputs := "upstream task inputs".
Definition dependencyTaskInputs := "dependency task inputs".
Definition envVar := "env var".
Definition file := "file".
End types.

Definition order : list string :=
  [types.upstreamTaskInputs; types.dependencyTaskInputs; types.envVar; types.file].

(** [Array.prototype.indexOf]: the first index holding [x], or [-1]. *)
Fixpoint indexOf (l : list string) (x : string) : Z :=
  match l with
  | [] => -1
  | y :: l' =>
      if decide (y = x) then 0
      else let i := indexOf l' x in if decide (i = -1) then -1 else i + 1
  end.

Definition compareManifestTypes (a b : string) : Z :=
  let aIndex := indexOf order a in
  let bIndex := indexOf order b in
  if decide (aIndex = bIndex) then 0
  else if decide (aIndex < bIndex) then -1 else 1.

(** ** TaskConfig (config.js) *)

Record TaskConfig := {
  tc_dir : string;
  tc_name : string;
  _config : LazyTask;
}.

(** The value of the [cache] getter: ['none'] or a fully defaulted object. *)
Record CacheConfig := {
  cc_envInputs : list string;
  cc_inheritsInputFromDependencies : bool;
  cc_inputs : GlobPattern;
  cc_outputs : GlobPattern;
  cc_usesOutputFromDependencies : bool;
}.

Inductive Cache :=
| CacheNone
| CacheObject (c : CacheConfig).

Definition extractGlobPattern (glob : option GlobConfig) : GlobPattern :=
  match glob with
  | None => {| gp_include := ["**/*"]; gp_exclude := [] |}
  | Some (GlobArray l) => {| gp_include := l; gp_exclude := [] |}
  | Some (GlobObject inc exc) =>
      {| gp_include := default ["**/*"] inc; gp_exclude := default [] exc |}
  end.

Section TaskConfigMethods.
Context `{Platform}.

Definition getManifestPath (tc : TaskConfig) : string :=
  let dir := path_join [tc_dir tc; ".lazy"; "manifests"] in
  path_join [dir; slugify (tc_name tc)].

Definition getNextManifestPath (tc : TaskConfig) : string :=
  let dir := path_join [tc_dir tc; ".lazy"; "manifests"] in
  path_join [dir; slugify (tc_name tc) +:+ ".next"].

Definition getDiffPath (tc : TaskConfig) : string :=
  let dir := path_join [tc_dir tc; ".lazy"; "diffs"] in
  path_join [dir; slugify (tc_name tc)].

End TaskConfigMethods.

Definition tc_runType (tc : TaskConfig) : RunType :=
  default Dependent (lt_runType (_config tc)).

Definition tc_baseCommand (tc : TaskConfig) : option string :=
  lt_baseCommand (_config tc).

Definition tc_runsAfter (tc : TaskConfig) : list (string * DepConfig) :=
  default [] (lt_runsAfter (_config tc)).

Definition tc_parallel (tc : TaskConfig) : bool :=
  default true (lt_parallel (_config tc)).

Definition tc_cache (tc : TaskConfig) : Cache :=
  match lt_cache (_config tc) with
  | Some CacheNoneRaw => CacheNone
  | Some (CacheRaw c) =>
      CacheObject
        {| cc_envInputs := default [] (co_envInputs c);
           cc_inheritsInputFromDependencies :=
             default true (co_inheritsInputFromDependencies c);
           cc_inputs := extractGlobPattern (co_inputs c);
           cc_outputs := extractGlobPattern (co_outputs c);
           cc_usesOutputFromDependencies :=
             default true (co_usesOutputFromDependencies c) |}
  | None =>
      CacheObject
        {| cc_envInputs := [];
           cc_inheritsInputFromDependencies := true;
           cc_inputs := extractGlobPattern None;
           cc_outputs := extractGlobPattern None;
           cc_usesOutputFromDependencies := true |}
  end.

(** ** Config (config.js) *)

Record Config := {
  rootConfig : LoadedConfig;
  packageDirConfigs : gmap string LoadedConfig;
  workspaceRoot : string;
  repoDetails : RepoDetails;
}.

Record BaseCache := {
  includes : list string;
  excludes : list string;
  envInputs : list string;
}.

(** [this.packageDirConfigs[taskDir]?.config ?? this.rootConfig.config] *)
Definition getTaskConfig (c : Config) (taskDir taskName : string) : TaskConfig :=
  let cfg :=
    match packageDirConfigs c !! taskDir with
    | Some lc => config lc
    | None => config (rootConfig c)
    end in
  {| tc_dir := taskDir; tc_name := taskName;
     _config := default emptyLazyTask (lc_tasks cfg ≫= fun ts => ts !! taskName) |}.

Definition getBaseCacheConfig (c : Config) (taskDir : string) : BaseCache :=
  let cfg :=
    match packageDirConfigs c !! taskDir ≫= fun lc => baseCacheConfig (config lc) with
    | Some b => Some b
    | None => baseCacheConfig (config (rootConfig c))
    end in
  {| includes :=
       default ["<rootDir>/{yarn.lock,pnpm-lock.yaml,package-lock.json}";
                "<rootDir>/lazy.config.*"] (cfg ≫= bc_includes);
     excludes := default [] (cfg ≫= bc_excludes);
     envInputs := default [] (cfg ≫= bc_envInputs) |}.

Section ConfigMethods.
Context `{Platform}.

Definition getTaskKey {St} (c : Config) (taskDir taskName : string) : M St string :=
  if path_isAbsolute taskDir then
    let rel := path_relative (workspaceRoot c) taskDir in
    ret (taskName +:+ "::" +:+ (if decide (rel = "") then "<rootDir>" else rel))
  else throw ("taskKey: taskDir must be absolute: " +:+ taskDir).

End ConfigMethods.

(** ** Scheduled tasks and the state of a run *)

Inductive Status :=
| pending | running | success_eager | success_lazy | failure | skipped.

Global Instance Status_eq_dec : EqDecision Status.
Proof. solve_decision. Defined.

Record ScheduledTask := {
  key : string;
  taskName : string;
  taskDir : string;
  taskConfig : TaskConfig;
  packageDetails : option PackageDetails;
  force : bool;
  status : Status;
  inputManifestCacheKey : option string;
  outputFiles : list string;
}.

Definition set_inputManifestCacheKey (h : string) (t : ScheduledTask) : ScheduledTask :=
  {| key := key t; taskName := taskName t; taskDir := taskDir t;
     taskConfig := taskConfig t; packageDetails := packageDetails t;
     force := force t; status := status t;
     inputManifestCacheKey := Some h; outputFiles := outputFiles t |}.

Definition set_status (st : Status) (t : ScheduledTask) : ScheduledTask :=
  {| key := key t; taskName := taskName t; taskDir := taskDir t;
     taskConfig := taskConfig t; packageDetails := packageDetails t;
     force := force t; status := st;
     inputManifestCacheKey := inputManifestCacheKey t; outputFiles := outputFiles t |}.

Definition set_outputFiles (fs : list string) (t : ScheduledTask) : ScheduledTask :=
  {| key := key t; taskName := taskName t; taskDir := taskDir t;
     taskConfig := taskConfig t; packageDetails := packageDetails t;
     force := force t; status := status t;
     inputManifestCacheKey := inputManifestCacheKey t; outputFiles := fs |}.

(** A manifest entry [(type, id, hash, metadata)]. *)
Record ManifestLine := {
  ml_type : string;
  ml_id : string;
  ml_hash : string;
  ml_meta : option string;
}.

Global Instance ManifestLine_eq_dec : EqDecision ManifestLine.
Proof. solve_decision. Defined.

(** The file system, the process streams and the task nodes.  The task
    nodes are shared objects: [tasks.allTasks[key]] and the [task] handed to
    [computeManifest] are one object, so they live in the state.  [hashed]
    and [spawned] record which file contents were read for hashing and
    which task commands were started. *)
Record State := {
  files : gmap string FileInfo;
  dirs : gset string;
  manifests : gmap string (list ManifestLine);
  diffs : gmap string (list string);
  hashed : list string;
  spawned : list string;
  stderr : list string;
  stdout : list string;
  allTasks : gmap string ScheduledTask;
}.

Definition set_dirs (f : gset string -> gset string) (s : State) : State :=
  {| files := files s; dirs := f (dirs s); manifests := manifests s;
     diffs := diffs s; hashed := hashed s; spawned := spawned s;
     stderr := stderr s; stdout := stdout s; allTasks := allTasks s |}.

Definition set_manifests
    (f : gmap string (list ManifestLine) -> gmap string (list ManifestLine))
    (s : State) : State :=
  {| files := files s; dirs := dirs s; manifests := f (manifests s);
     diffs := diffs s; hashed := hashed s; spawned := spawned s;
     stderr := stderr s; stdout := stdout s; allTasks := allTasks s |}.

Definition set_diffs (f : gmap string (list string) -> gmap string (list string))
    (s : State) : State :=
  {| files := files s; dirs := dirs s; manifests := manifests s;
     diffs := f (diffs s); hashed := hashed s; spawned := spawned s;
     stderr := stderr s; stdout := stdout s; allTasks := allTasks s |}.

Definition set_hashed (f : list string -> list string) (s : State) : State :=
  {| files := files s; dirs := dirs s; manifests := manifests s;
     diffs := diffs s; hashed := f (hashed s); spawned := spawned s;
     stderr := stderr s; stdout := stdout s; allTasks := allTasks s |}.

Definition set_spawned (f : list string -> list string) (s : State) : State :=
  {| files := files s; dirs := dirs s; manifests := manifests s;
     diffs := diffs s; hashed := hashed s; spawned := f (spawned s);
     stderr := stderr s; stdout := stdout s; allTasks := allTasks s |}.

Definition set_files (f : gmap string FileInfo -> gmap string FileInfo)
    (s : State) : State :=
  {| files := f (files s); dirs := dirs s; manifests := manifests s;
     diffs := diffs s; hashed := hashed s; spawned := spawned s;
     stderr := stderr s; stdout := stdout s; allTasks := allTasks s |}.

Definition set_stderr (f : list string -> list string) (s : State) : State :=
  {| files := files s; dirs := dirs s; manifests := manifests s;
     diffs := diffs s; hashed := hashed s; spawned := spawned s;
     stderr := f (stderr s); stdout := stdout s; allTasks := allTasks s |}.

Definition set_stdout (f : list string -> list string) (s : State) : State :=
  {| files := files s; dirs := dirs s; manifests := manifests s;
     diffs := diffs s; hashed := hashed s; spawned := spawned s;
     stderr := stderr s; stdout := f (stdout s); allTasks := allTasks s |}.

Definition set_allTasks
    (f : gmap string ScheduledTask -> gmap string ScheduledTask) (s : State) : State :=
  {| files := files s; dirs := dirs s; manifests := manifests s;
     diffs := diffs s; hashed := hashed s; spawned := spawned s;
     stderr := stderr s; stdout := stdout s; allTasks := f (allTasks s) |}.

(** ** fs.js *)

Section Fs.
Context `{Platform}.

Definition existsSync (p : string) : M State bool :=
  gets (fun s => bool_decide (p ∈ dirs s)).

(** [mkdirSync(p, { recursive: true })]: [p] and its missing ancestors.
    The file system of the model always lets a directory be made; where
    [mkdirSync] throws (no permission, a file in the way) nothing is
    proved. *)
Fixpoint mkdirs (fuel : nat) (p : string) (ds : gset string) : gset string :=
  match fuel with
  | O => ds
  | S n => if decide (p ∈ ds) then ds else mkdirs n (path_dirname p) ({[p]} ∪ ds)
  end.

Definition mkdirSync_recursive (p : string) : M State unit :=
  modify (set_dirs (mkdirs (S (String.length p)) p)).

Definition statSync (p : string) : M State FileInfo :=
  fun s =>
    match files s !! p with
    | Some fi => Ret fi s
    | None => Throw ("ENOENT: no such file or directory, stat '" +:+ p +:+ "'") s
    end.

(** [hashFile(fullPath, stat.size)] of hash.js: reads the content. *)
Definition hashFile (p : string) (fi : FileInfo) : M State string :=
  modify (set_hashed (fun l => l ++ [p])) ;;;
  ret (hashContent (f_content fi)).

End Fs.

(** [Array.prototype.sort()] on strings: ascending by code units. *)
Definition js_sort (l : list string) : list string := merge_sort String.le l.

(** Modelled from the spec: uniq.js is not among the sources; §4.6 step 2c
    asks for the unique elements.  The first occurrence of each is kept. *)
Fixpoint uniq (l : list string) : list string :=
  match l with
  | [] => []
  | x :: l' => x :: filter (fun y => y ≠ x) (uniq l')
  end.

(** ** The manifest builder *)

Record ManifestConstructor := {
  diffPath : string;
  previousManifestPath : string;
  nextManifestPath : string;
  (** the previous manifest, if there is one *)
  previousLines : option (list ManifestLine);
  (** the entries of the new manifest, in the order they were supplied *)
  nextLines : list ManifestLine;
}.

Definition push_line (l : ManifestLine) (mc : ManifestConstructor) : ManifestConstructor :=
  {| diffPath := diffPath mc; previousManifestPath := previousManifestPath mc;
     nextManifestPath := nextManifestPath mc; previousLines := previousLines mc;
     nextLines := nextLines mc ++ [l] |}.

(** Modelled from the spec: the canonical type rank of §3,
    [{upstream task inputs, upstream package inputs, env var, file}]. *)
Definition canonicalOrder : list string :=
  ["upstream task inputs"; "upstream package inputs"; "env var"; "file"].

Definition typeRank (t : string) : Z := indexOf canonicalOrder t.

(** Modelled from the spec: the canonical order of §3 on entries, primary by
    type rank, secondary by id ascending, each [(type, id)] at most once. *)
Definition lineBefore (a b : ManifestLine) : bool :=
  bool_decide (typeRank (ml_type a) < typeRank (ml_type b))
  || (bool_decide (typeRank (ml_type a) = typeRank (ml_type b))
      && String.ltb (ml_id a) (ml_id b)).

(** Modelled from the spec: §4.2, one line per entry,
    [type TAB id TAB hash (TAB metadata) NEWLINE]. *)
Definition serializeLine (l : ManifestLine) : string :=
  let tab := String (Ascii.ascii_of_nat 9) "" in
  let nl := String (Ascii.ascii_of_nat 10) "" in
  ml_type l +:+ tab +:+ ml_id l +:+ tab +:+ ml_hash l
  +:+ match ml_meta l with Some m => tab +:+ m | None => "" end +:+ nl.

Definition serializeManifest (ls : list ManifestLine) : string :=
  String.concat "" (serializeLine <$> ls).

Definition sameEntry (type id : string) (l : ManifestLine) : bool :=
  bool_decide (ml_type l = type) && bool_decide (ml_id l = id).

(** Modelled from the spec: §4.2, the diff of two manifests, one line per
    added, changed or removed entry. *)
Definition diffLines (prev next : list ManifestLine) : list string :=
  omap (fun l =>
          match List.find (sameEntry (ml_type l) (ml_id l)) prev with
          | None => Some ("+ added " +:+ ml_type l +:+ " " +:+ ml_id l)
          | Some p =>
              if decide (ml_hash p = ml_hash l) then None
              else Some ("± changed " +:+ ml_type l +:+ " " +:+ ml_id l)
          end) next
  ++ omap (fun p =>
          match List.find (sameEntry (ml_type p) (ml_id p)) next with
          | None => Some ("- removed " +:+ ml_type p +:+ " " +:+ ml_id p)
          | Some _ => None
          end) prev.

(** Modelled from the spec: §4.2 reads the previous manifest as an ordered
    stream, in the canonical order of §3.  An entry of that stream has been
    passed by [l] when it is before [l] in that order or is an entry for
    the [(type, id)] of [l]. *)
Definition passed (l p : ManifestLine) : bool :=
  lineBefore p l || sameEntry (ml_type l) (ml_id l) p.

(** Modelled from the spec: the entry of the previous manifest that the
    builder has in hand, the first one that the last entry written has not
    passed; the first one of all before anything is written. *)
Definition nextUnread (mc : ManifestConstructor) : option ManifestLine :=
  match previousLines mc with
  | Some previous =>
      match last (nextLines mc) with
      | Some l => List.find (fun p => negb (passed l p)) previous
      | None => head previous
      end
  | None => None
  end.

Module ManifestConstructor.
Section Builder.
Context `{Platform}.

(** Modelled from the spec: ManifestConstructor.js is not among the
    sources.  §4.2 Read: the previous manifest is read if it exists. *)
Definition new (diffPath previousManifestPath nextManifestPath : string)
  : M State ManifestConstructor :=
  prev <- gets (fun s => manifests s !! previousManifestPath) ;;
  ret {| diffPath := diffPath; previousManifestPath := previousManifestPath;
         nextManifestPath := nextManifestPath; previousLines := prev;
         nextLines := [] |}.

(** Modelled from the spec: §4.3 [update(type, id, hash, metadata?)] appends
    the entry; it asserts the canonical order against the last entry and
    fails otherwise.  The entries are kept in the builder and reach the
    manifest files in [end_]; §4.2 has them streamed to the [.next] file as
    they come, so what is on disk before [end()], or after a build that
    threw, is not what the model has there. *)
Definition update (mc : ManifestConstructor) (type id hash : string)
    (meta : option string) : M State ManifestConstructor :=
  let line := {| ml_type := type; ml_id := id; ml_hash := hash; ml_meta := meta |} in
  match last (nextLines mc) with
  | Some prev =>
      if lineBefore prev line then ret (push_line line mc)
      else throw ("Manifest entries out of order: " +:+ type +:+ " " +:+ id)
  | None => ret (push_line line mc)
  end.

(** Modelled from the spec: §4.3 [copyLineOverIfMetaIsSame(type, id, meta)]
    looks [(type, id)] up in the previous manifest, which §4.2 reads as an
    ordered stream.  The integration tests pin what is looked at
    (dependent.test.ts, "deleting an input file causes the task to re-run":
    [Hashed 1/2 files]): the next entry of that stream, [nextUnread].  When
    it is an entry for [(type, id)] with the same metadata, the new entry
    takes its hash and the answer is [true]; otherwise nothing is written
    and the answer is [false], also when such an entry comes further on. *)
Definition copyLineOverIfMetaIsSame (mc : ManifestConstructor)
    (type id meta : string) : bool * ManifestConstructor :=
  match nextUnread mc with
  | Some p =>
      if sameEntry type id p && bool_decide (ml_meta p = Some meta)
      then (true, push_line {| ml_type := type; ml_id := id;
                               ml_hash := ml_hash p; ml_meta := Some meta |} mc)
      else (false, mc)
  | None => (false, mc)
  end.

(** Modelled from the spec: §3, the aggregate hash of a manifest is the hash
    of the concatenation of its serialized lines. *)
Definition aggregateHash (ls : list ManifestLine) : string :=
  hashString (serializeManifest ls).

(** Modelled from the spec: §4.3 [end()] writes the [.next] manifest, writes
    the diff against the previous manifest, renames [.next] over the
    manifest, and answers [didChange = false] exactly when the aggregate
    hash equals that of the previous manifest. *)
Definition end_ (mc : ManifestConstructor) : M State (bool * string) :=
  let hash := aggregateHash (nextLines mc) in
  let didChange :=
    match previousLines mc with
    | Some prev => negb (bool_decide (aggregateHash prev = hash))
    | None => true
    end in
  modify (set_manifests (insert (nextManifestPath mc) (nextLines mc))) ;;;
  modify (set_diffs (insert (diffPath mc)
            (if didChange then diffLines (default [] (previousLines mc)) (nextLines mc)
             else []))) ;;;
  modify (set_manifests (fun m =>
            <[previousManifestPath mc := nextLines mc]> (delete (nextManifestPath mc) m))) ;;;
  ret (didChange, hash).

End Builder.
End ManifestConstructor.

(** ** computeManifest (computeManifest.js) *)

Section ComputeManifest.
Context `{Platform}.

(** Modelled from the spec: getInputFiles.js is not among the sources.
    §4.4: the base cache includes minus the base excludes, the task's input
    globs rooted at the package directory without its [.lazy] directory, and
    the extra files; their union, sorted. *)
Definition inputFileList (config : Config) (task : ScheduledTask) (c : CacheConfig)
    (extraFiles : list string) (fs : gmap string FileInfo) : list string :=
  let base := getBaseCacheConfig config (taskDir task) in
  let baseFiles := glob_sync (includes base) (excludes base) (workspaceRoot config) fs in
  let packageFiles :=
    glob_sync (gp_include (cc_inputs c))
              (gp_exclude (cc_inputs c) ++ [path_join [taskDir task; ".lazy"]])
              (taskDir task) fs in
  js_sort (uniq (baseFiles ++ packageFiles ++ extraFiles)).

(** Modelled from the spec: getInputFiles.js is not among the sources.
    §4.4: the list above, or no list at all when [cache] is ['none']. *)
Definition getInputFiles (config : Config) (task : ScheduledTask)
    (extraFiles : list string) : M State (option (list string)) :=
  match tc_cache (taskConfig task) with
  | CacheNone => ret None
  | CacheObject c =>
      fs <- gets files ;;
      ret (Some (inputFileList config task c extraFiles fs))
  end.

(** [if (!existsSync(dir)) mkdirSync(dir, { recursive: true })] *)
Definition ensureDir (dir : string) : M State unit :=
  e <- existsSync dir ;;
  if e then ret tt else mkdirSync_recursive dir.

Definition missingKey (k : string) : string :=
  "Missing inputManifestCacheKey for task: " +:+ k +:+ ".".

(** [!depTask.inputManifestCacheKey]: absent or the empty string. *)
Definition cacheKeyOf (t : ScheduledTask) : option string :=
  match inputManifestCacheKey t with
  | Some h => if decide (h = "") then None else Some h
  | None => None
  end.

(** The body of the loop over [Object.entries(task.taskConfig.runsAfter)];
    the accumulator is the builder and [extraFiles]. *)
Definition runsAfterStep (config : Config) (task : ScheduledTask)
    (acc : ManifestConstructor * list (list string)) (entry : string * DepConfig)
  : M State (ManifestConstructor * list (list string)) :=
  let '(manifestConstructor, extraFiles) := acc in
  let '(otherTaskName, depConfig) := entry in
  if negb (inheritsInput depConfig) && bool_decide (usesOutput depConfig = Some false)
  then ret acc
  else
    let isTopLevel :=
      bool_decide (tc_runType (getTaskConfig config (taskDir task) otherTaskName) = TopLevel) in
    k <- getTaskKey config (if isTopLevel then workspaceRoot config else taskDir task)
           otherTaskName ;;
    depTask <- gets (fun s => allTasks s !! k) ;;
    match depTask with
    | None => if isTopLevel then throw ("Missing task: " +:+ k +:+ ".") else ret acc
    | Some depTask =>
        mc <- (if inheritsInput depConfig then
                 match cacheKeyOf depTask with
                 | None => throw (missingKey k)
                 | Some h =>
                     ManifestConstructor.update manifestConstructor
                       "upstream task inputs" k h None
                 end
               else ret manifestConstructor) ;;
        ret (mc, if bool_decide (usesOutput depConfig = Some false) then extraFiles
                 else extraFiles ++ [outputFiles depTask])
    end.

(** [task.packageDetails?.localDeps?.map(...).sort()] *)
Definition upstreamTaskKeys (config : Config) (task : ScheduledTask)
  : M State (option (list string)) :=
  match packageDetails task ≫= pd_localDeps with
  | None => ret None
  | Some localDeps =>
      keys <- forM (fun acc packageName =>
                match obj_lookup packageName (packagesByName (repoDetails config)) with
                | None =>
                    throw "TypeError: Cannot read properties of undefined (reading 'dir')"
                | Some depPackage =>
                    k <- getTaskKey config (pd_dir depPackage) (taskName task) ;;
                    ret (acc ++ [k])
                end) localDeps [] ;;
      ret (Some (js_sort keys))
  end.

Definition packageDepStep (manifestConstructor : ManifestConstructor) (k : string)
  : M State ManifestConstructor :=
  depTask <- gets (fun s => allTasks s !! k) ;;
  match depTask with
  | None => ret manifestConstructor
  | Some depTask =>
      match cacheKeyOf depTask with
      | None => throw (missingKey k)
      | Some h =>
          ManifestConstructor.update manifestConstructor "upstream package inputs" k h None
      end
  end.

Definition packageDepsPhase (config : Config) (task : ScheduledTask) (cache : CacheConfig)
    (manifestConstructor : ManifestConstructor) : M State ManifestConstructor :=
  if bool_decide (tc_runType (taskConfig task) ≠ Independent)
     && cc_inheritsInputFromDependencies cache
  then
    keys <- upstreamTaskKeys config task ;;
    match keys with
    | Some keys => forM packageDepStep keys manifestConstructor
    | None => ret manifestConstructor
    end
  else ret manifestConstructor.

Definition allEnvVars (config : Config) (task : ScheduledTask) (cache : CacheConfig)
  : list string :=
  js_sort (uniq (envInputs (getBaseCacheConfig config (taskDir task)) ++ cc_envInputs cache)).

(** [process.env[envVar] ?? ''] *)
Definition envValue (env : gmap string string) (envVar : string) : string :=
  default "" (env !! envVar).

Definition envStep (env : gmap string string) (manifestConstructor : ManifestConstructor)
    (envVar : string) : M State ManifestConstructor :=
  let hash := hashString (envValue env envVar) in
  ManifestConstructor.update manifestConstructor "env var" envVar hash None.

Definition fileStep (config : Config) (manifestConstructor : ManifestConstructor)
    (file : string) : M State ManifestConstructor :=
  let fullPath := path_join [workspaceRoot config; file] in
  stat <- statSync fullPath ;;
  let timestamp := f_mtimeMs stat in
  let '(copied, mc) :=
    ManifestConstructor.copyLineOverIfMetaIsSame manifestConstructor "file" file timestamp in
  if copied then ret mc
  else
    hash <- hashFile fullPath stat ;;
    ManifestConstructor.update manifestConstructor "file" file hash (Some timestamp).

(** The head of [computeManifest] once [cache] is known not to be ['none']:
    the three directories and the builder. *)
Definition prepareManifest (task : ScheduledTask) : M State ManifestConstructor :=
  let manifestPath := getManifestPath (taskConfig task) in
  let nextManifestPath := getNextManifestPath (taskConfig task) in
  let diffPath := getDiffPath (taskConfig task) in
  ensureDir (path_dirname manifestPath) ;;;
  ensureDir (path_dirname nextManifestPath) ;;;
  (if decide (diffPath = "") then ret tt else ensureDir (path_dirname diffPath)) ;;;
  ManifestConstructor.new diffPath manifestPath nextManifestPath.

(** [task.inputManifestCacheKey = hash], on the shared task node. *)
Definition storeCacheKey (task : ScheduledTask) (hash : string) : M State unit :=
  modify (set_allTasks (fun ts =>
    <[key task := set_inputManifestCacheKey hash (default task (ts !! key task))]> ts)).

(** The rest of [computeManifest]: the four groups of entries in the order
    of the source, then [end()]. *)
Definition buildManifest (env : gmap string string) (config : Config)
    (task : ScheduledTask) (cache : CacheConfig)
    (manifestConstructor : ManifestConstructor) : M State (option bool) :=
  r <- forM (runsAfterStep config task) (tc_runsAfter (taskConfig task))
         (manifestConstructor, []) ;;
  let '(manifestConstructor, extraFiles) := r in
  manifestConstructor <- packageDepsPhase config task cache manifestConstructor ;;
  manifestConstructor <- forM (envStep env) (allEnvVars config task cache)
                           manifestConstructor ;;
  files <- getInputFiles config task (concat extraFiles) ;;
  match files with
  | None => ret None
  | Some files =>
      manifestConstructor <- forM (fileStep config) (js_sort files) manifestConstructor ;;
      r <- ManifestConstructor.end_ manifestConstructor ;;
      let '(didChange, hash) := r in
      storeCacheKey task hash ;;;
      ret (Some didChange)
  end.

(** [computeManifest({ tasks, task })] under the environment [env]; the
    result is [null] ([None]) or [didChange].  The note that
    [task.logger.note] prints when hashing took more than 100 ms depends on
    the clock and is left out: nothing is proved of what the logger
    prints. *)
Definition computeManifest (env : gmap string string) (config : Config)
    (task : ScheduledTask) : M State (option bool) :=
  match tc_cache (taskConfig task) with
  | CacheNone => ret None
  | CacheObject cache =>
      manifestConstructor <- prepareManifest task ;;
      buildManifest env config task cache manifestConstructor
  end.

End ComputeManifest.

(** ** The host: logger, workspace discovery, module loading, child processes

    [logger] is an interface with several implementations
    ([InteractiveLogger] among them); workspace.js, getWorkspaceRoot.js, the
    TaskGraph constructor, esbuild and the module loader are collaborators
    reached through this interface. *)

Record RequestedTask := {
  rt_taskName : string;
  rt_filterPaths : list string;
  rt_force : bool;
  rt_extraArgs : list string;
}.

(** [options.filter] is absent, one path, or an array of paths. *)
Inductive FilterOption :=
| FilterNone
| FilterOne (p : string)
| FilterMany (ps : list string).

Record CLIOption := {
  opt_filter : FilterOption;
  opt_force : bool;
  opt_extraArgs : list string;
}.

(** What [run] uses of a [TaskGraph]; the nodes themselves are in the state. *)
Record TaskGraph := {
  tg_config : Config;
  sortedTaskKeys : list string;
  upstreamKeys : string -> list string;
}.

Class Host := {
  logger_fail : string -> option string -> M State unit;
  logger_log : string -> M State unit;
  logger_isInteractive : bool;
  logger_clearTasks : M State unit;
  process_cwd : string;
  getWorkspaceRoot : string -> M State (option string);
  getPackageManager : string -> M State (option string);
  getRepoDetails : string -> M State RepoDetails;
  (** [JSON.parse(readFileSync(file, 'utf8'))] *)
  parseJsonConfig : string -> M State (option LazyConfig);
  (** [(await import(file)).default] *)
  importDefault : string -> M State (option LazyConfig);
  esbuild_build : string -> string -> M State unit;
  isTest : bool;
  (** [await import('source-map-support/register.js')] *)
  importSourceMapSupport : M State unit;
  (** [new TaskGraph({ config, requestedTasks })]; it fills [allTasks] *)
  newTaskGraph : Config -> list RequestedTask -> M State TaskGraph;
  (** the child process of a task; the result is its exit code *)
  spawnCommand : ScheduledTask -> M State Z;
}.

(** ** getConfigFromDir and Config.from (config.js) *)

Definition endsWith (s suffix : string) : bool :=
  String.prefix (String.rev suffix) (String.rev s).

Definition configFileNames : list string :=
  ["lazy.config.js"; "lazy.config.cjs"; "lazy.config.mjs"; "lazy.config.ts";
   "lazy.config.cts"; "lazy.config.mts"; "lazy.config.json"].

Section ConfigLoading.
Context `{Platform} `{Host}.

(** [glob.sync('lazy.config.{js,cjs,mjs,ts,cts,mts,json}', { absolute: true, cwd: dir })] *)
Definition globConfigFiles (dir : string) : M State (list string) :=
  fs <- gets files ;;
  ret ((fun n => path_join [dir; n])
         <$> filter (fun n => n ∈ configFileNames) (readdir dir fs)).

Definition writeFileSync (p content : string) : M State unit :=
  modify (set_files (insert p {| f_content := content; f_mtimeMs := "" |})).

Definition loadConfigObject (dir file : string) : M State (option LazyConfig) :=
  if endsWith file ".json" then parseJsonConfig file
  else if endsWith file ".js" || endsWith file ".cjs" || endsWith file ".mjs"
  then importDefault file
  else
    let configDir := path_join [dir; ".lazy"] in
    e <- existsSync configDir ;;
    (if e then ret tt else modify (set_dirs (fun ds => {[configDir]} ∪ ds))) ;;;
    let inFile := path_join [configDir; "config.source.mjs"] in
    writeFileSync inFile
      ("import config from '" +:+ file +:+ "'; export default config") ;;;
    let outFile := path_join [configDir; "config.cache.mjs"] in
    esbuild_build inFile outFile ;;;
    (if isTest then ret tt else importSourceMapSupport) ;;;
    importDefault outFile.

Definition getConfigFromDir (dir : string) : M State LoadedConfig :=
  files <- globConfigFiles dir ;;
  (if decide (1 < length files)%nat then
     logger_fail ("Found multiple lazy config files in dir '" +:+ dir +:+ "'.")
       (Some ("Remove all but one of the following files: " +:+ String.concat ", " files)) ;;;
     process_exit 1
   else ret tt) ;;;
  match files with
  | [] => ret {| filePath := None; config := emptyLazyConfig |}
  | file :: _ =>
      config <- loadConfigObject dir file ;;
      match config with
      | None => throw "Invalid config file"
      | Some config => ret {| filePath := Some file; config := config |}
      end
  end.

(** [Config.from(dir)].  The package directories are scanned in the order of
    [Object.values(repoDetails.packagesByName)]. *)
Definition Config_from (dir : string) : M State Config :=
  workspaceRoot <- getWorkspaceRoot dir ;;
  match workspaceRoot with
  | None =>
      logger_fail ("Could not find workspace root for dir '" +:+ dir +:+ "'") None ;;;
      process_exit 1
  | Some workspaceRoot =>
      packageManager <- getPackageManager workspaceRoot ;;
      (match packageManager with
       | Some _ => ret tt
       | None => logger_fail ("Could not determine which package manager is in use '"
                              +:+ dir +:+ "' '" +:+ workspaceRoot +:+ "'") None
       end) ;;;
      repoDetails <- getRepoDetails workspaceRoot ;;
      rootConfig <- getConfigFromDir workspaceRoot ;;
      r <- forM (fun acc pkg =>
                   c <- getConfigFromDir (pd_dir pkg) ;;
                   let '(loaded, byDir) := acc in
                   ret (match filePath c with
                        | Some f => (loaded ++ [f], <[pd_dir pkg := c]> byDir)
                        | None => (loaded, byDir)
                        end))
             (snd <$> packagesByName repoDetails)
             (match filePath rootConfig with Some f => [f] | None => [] end,
              (∅ : gmap string LoadedConfig)) ;;
      let '(allLoadedConfigFiles, packageDirConfigs) := r in
      (match allLoadedConfigFiles with
       | [] => logger_log "No config files found, using default configuration."
       | _ =>
           logger_log ("Loaded config file"
                       +:+ (if decide (1 < length allLoadedConfigFiles)%nat then "s" else "")
                       +:+ ": "
                       +:+ String.concat ", " (path_relative process_cwd <$> allLoadedConfigFiles))
       end) ;;;
      ret {| workspaceRoot := workspaceRoot; rootConfig := rootConfig;
             packageDirConfigs := packageDirConfigs; repoDetails := repoDetails |}
  end.

End ConfigLoading.

(** ** The runner *)

Section Runner.
Context `{Platform} `{Host}.

Definition set_task (k : string) (f : ScheduledTask -> ScheduledTask) : M State unit :=
  modify (set_allTasks (alter f k)).

(** Modelled from the spec: TaskGraph.js is not among the sources.  §4.6
    "Output-file capture": the sorted files matching [cache.outputs] under
    the package directory. *)
Definition captureOutputFiles (task : ScheduledTask) : M State unit :=
  match tc_cache (taskConfig task) with
  | CacheNone => ret tt
  | CacheObject c =>
      fs <- gets files ;;
      set_task (key task)
        (set_outputFiles
           (js_sort (glob_sync (gp_include (cc_outputs c)) (gp_exclude (cc_outputs c))
                       (taskDir task) fs)))
  end.

(** Modelled from the spec: §4.6 step 5, a cache miss spawns the command;
    exit code [0] gives [success:eager], any other [failure].  The manifest
    stays in place in both cases; for a failure §9 leaves that open. *)
Definition runCommand (task : ScheduledTask) : M State unit :=
  modify (set_spawned (fun l => l ++ [key task])) ;;;
  code <- spawnCommand task ;;
  if decide (code = 0) then
    set_task (key task) (set_status success_eager) ;;;
    captureOutputFiles task
  else set_task (key task) (set_status failure).

(** Modelled from the spec: §4.6 steps 2 to 5 for one task, with §8: a task
    whose cache is ['none'] has no manifest and always runs.  A cache hit
    needs [force] off, a previous manifest and [didChange = false]. *)
Definition runTaskIfNeeded (env : gmap string string) (config : Config)
    (task : ScheduledTask) : M State unit :=
  set_task (key task) (set_status running) ;;;
  hadManifest <- gets (fun s =>
    bool_decide (is_Some (manifests s !! getManifestPath (taskConfig task)))) ;;
  didChange <- computeManifest env config task ;;
  match didChange with
  | None => runCommand task
  | Some didChange =>
      if force task || negb hadManifest || didChange then runCommand task
      else
        set_task (key task) (set_status success_lazy) ;;;
        captureOutputFiles task
  end.

(** Modelled from the spec: §4.6, the walk over [sortedTaskKeys]; by §5
    and §7 a task downstream of a failed one, directly or not, is skipped. *)
Definition runAllTasks (env : gmap string string) (tasks : TaskGraph) : M State unit :=
  forM (fun _ k =>
          task <- gets (fun s => allTasks s !! k) ;;
          match task with
          | None => ret tt
          | Some task =>
              ts <- gets allTasks ;;
              if bool_decide (Exists (fun u =>
                     status <$> ts !! u = Some failure
                     ∨ status <$> ts !! u = Some skipped) (upstreamKeys tasks k))
              then set_task k (set_status skipped)
              else runTaskIfNeeded env (tg_config tasks) task
          end) (sortedTaskKeys tasks) tt.

(** Modelled from the spec: §7, the failed task keys are those of the tasks
    that ended in [failure]. *)
Definition allFailedTasks (tasks : TaskGraph) : M State (list string) :=
  gets (fun s =>
    filter (fun k => status <$> allTasks s !! k = Some failure) (sortedTaskKeys tasks)).

(** ** The run command (commands/run.js) *)

Definition requestedTasksOf (taskName : string) (options : CLIOption)
  : list RequestedTask :=
  let filterPaths :=
    match opt_filter options with
    | FilterNone => []
    | FilterOne p => if decide (p = "") then [] else [p]
    | FilterMany ps => ps
    end in
  [ {| rt_taskName := taskName; rt_filterPaths := filterPaths;
       rt_force := opt_force options; rt_extraArgs := opt_extraArgs options |} ].

Definition run (env : gmap string string) (taskName : string) (options : CLIOption)
  : M State unit :=
  config <- Config_from process_cwd ;;
  let requestedTasks := requestedTasksOf taskName options in
  tasks <- newTaskGraph config requestedTasks ;;
  (if decide (length (sortedTaskKeys tasks) = 0%nat) then
     logger_fail ("No tasks found matching ["
                  +:+ String.concat ", " (rt_taskName <$> requestedTasks)
                  +:+ "] in " +:+ workspaceRoot config) None
   else ret tt) ;;;
  runAllTasks env tasks ;;;
  (if logger_isInteractive then logger_clearTasks else ret tt) ;;;
  failedTasks <- allFailedTasks tasks ;;
  (if decide (0 < length failedTasks)%nat then
     logger_fail ("Failed tasks: " +:+ String.concat ", " failedTasks) None
   else ret tt) ;;;
  ts <- gets allTasks ;;
  if bool_decide (map_Forall (fun _ t => status t = success_lazy) ts)
  then logger_log ">>> MAXIMUM LAZY"
  else ret tt.

End Runner.

(** The exit status of the process: [process.exit(code)], [0] when the
    command returns, and Node's status [1] for an error nobody caught. *)
Definition exitCode {A} (o : Outcome State A) : Z :=
  match o with
  | Ret _ _ => 0
  | Exit code _ => code
  | Throw _ _ => 1
  end.

(** ** A small concrete platform and host

    POSIX-like paths without normalisation, transparent "hashes", a glob
    that knows the pattern [**/*] only, and a host whose workspace, task
    graph and command exit codes are given. *)

Definition slash : Ascii.ascii := Ascii.ascii_of_nat 47.

Fixpoint after_slash (s : string) : string :=
  match s with
  | EmptyString => ""
  | String c s' => if decide (c = slash) then s' else after_slash s'
  end.

Fixpoint before_slash (s : string) : string :=
  match s with
  | EmptyString => ""
  | String c s' => if decide (c = slash) then "" else String c (before_slash s')
  end.

Definition demo_dirname (p : string) : string := String.rev (after_slash (String.rev p)).
Definition demo_basename (p : string) : string := String.rev (before_slash (String.rev p)).

Definition demo_relative (from to : string) : string :=
  if String.prefix (from +:+ "/") to
  then String.substring (S (String.length from))
         (String.length to - S (String.length from)) to
  else "".

Fixpoint contains (needle s : string) : bool :=
  String.prefix needle s
  || match s with
     | EmptyString => false
     | String _ s' => contains needle s'
     end.

Definition demo_glob (root : string) (patterns ignore : list string) (cwd : string)
    (fs : gmap string FileInfo) : list string :=
  if decide (patterns = ["**/*"]) then
    omap (fun p =>
            if String.prefix (cwd +:+ "/") p && negb (contains "/.lazy/" p)
            then Some (demo_relative root p) else None)
         (map_to_list fs).*1
  else [].

Definition demo_platform (root : string) : Platform :=
  {| hashString := fun s => "h(" +:+ s +:+ ")";
     hashContent := fun c => "H(" +:+ c +:+ ")";
     slugify := fun s => s;
     path_join := String.concat "/";
     path_dirname := demo_dirname;
     path_relative := demo_relative;
     path_isAbsolute := String.prefix "/";
     glob_sync := demo_glob root;
     readdir := fun dir fs =>
       omap (fun p => if decide (demo_dirname p = dir) then Some (demo_basename p) else None)
            (map_to_list fs).*1 |}.

(** A logger whose [fail] reports on stderr and exits with status 1. *)
Definition exiting_fail (headline : string) (more : option string) : M State unit :=
  fun s => Exit 1 (set_stderr (fun l => l ++ [headline]) s).

(** A logger whose [fail] reports on stderr and returns. *)
Definition returning_fail (headline : string) (more : option string) : M State unit :=
  modify (set_stderr (fun l => l ++ [headline])).

Definition demo_host (fail : string -> option string -> M State unit)
    (root : string) (packages : list (string * PackageDetails))
    (graph : list ScheduledTask) (exitCodes : string -> Z) : Host :=
  {| logger_fail := fail;
     logger_log := fun m => modify (set_stdout (fun l => l ++ [m]));
     logger_isInteractive := false;
     logger_clearTasks := ret tt;
     process_cwd := root;
     getWorkspaceRoot := fun _ => ret (Some root);
     getPackageManager := fun _ => ret (Some "npm");
     getRepoDetails := fun _ => ret {| packagesByName := packages |};
     parseJsonConfig := fun _ => ret (Some emptyLazyConfig);
     importDefault := fun _ => ret (Some emptyLazyConfig);
     esbuild_build := fun _ _ => ret tt;
     isTest := true;
     importSourceMapSupport := ret tt;
     newTaskGraph := fun config _ =>
       modify (set_allTasks (fun _ => list_to_map ((fun t => (key t, t)) <$> graph))) ;;;
       ret {| tg_config := config; sortedTaskKeys := key <$> graph;
              upstreamKeys := fun _ => [] |};
     spawnCommand := fun t => ret (exitCodes (key t)) |}.

Definition emptyState : State :=
  {| files := ∅; dirs := ∅; manifests := ∅; diffs := ∅; hashed := [];
     spawned := []; stderr := []; stdout := []; allTasks := ∅ |}.

Definition demo_config (root : string) (tasks : list (string * LazyTask)) : Config :=
  {| rootConfig := {| config := {| baseCacheConfig := None;
                                   lc_tasks := Some (list_to_map tasks) |};
                      filePath := None |};
     packageDirConfigs := ∅;
     workspaceRoot := root;
     repoDetails := {| packagesByName := [] |} |}.

Definition demo_task (config : Config) (dir name : string) (deps : option PackageDetails)
    (cacheKey : option string) : ScheduledTask :=
  {| key := name +:+ "::"
            +:+ (let rel := demo_relative (workspaceRoot config) dir in
                 if decide (rel = "") then "<rootDir>" else rel);
     taskName := name; taskDir := dir;
     taskConfig := getTaskConfig config dir name;
     packageDetails := deps; force := false; status := pending;
     inputManifestCacheKey := cacheKey; outputFiles := [] |}.

(** ** The formatting helpers of the logger

    [getColorForString], [prefixLines], [lastNonEmptyLineIfPossible] and
    [decapitalize].  The built-ins they rest on ([<<], [%], [String.replace]
    with a multi-line anchor, [split], [trim], [toLowerCase]) are written
    out for strings of code units below 256. *)

Inductive KleurColor :=
| k_cyan | k_magenta | k_yellow | k_blue | k_green
| k_bgCyan | k_bgMagenta | k_bgYellow | k_bgBlue | k_bgGreen.

Global Instance KleurColor_eq_dec : EqDecision KleurColor.
Proof. solve_decision. Defined.

Record ColorPair := { fg : KleurColor; bg : KleurColor }.

Definition colors : list ColorPair :=
  [ {| fg := k_cyan; bg := k_bgCyan |};
    {| fg := k_magenta; bg := k_bgMagenta |};
    {| fg := k_yellow; bg := k_bgYellow |};
    {| fg := k_blue; bg := k_bgBlue |};
    {| fg := k_green; bg := k_bgGreen |} ].

(** [ToInt32]: the operand of a bitwise operator, wrapped into
    [-2^31 .. 2^31 - 1]. *)
Definition toInt32 (x : Z) : Z := (x + 2 ^ 31) mod 2 ^ 32 - 2 ^ 31.

(** [x << n] for a shift count below 32. *)
Definition shiftLeft (x n : Z) : Z := toInt32 (Z.shiftl (toInt32 x) n).

(** [str.charCodeAt(i)] for every [i] in turn. *)
Definition charCodes (str : string) : list Z :=
  (fun c => Z.of_N (Ascii.N_of_ascii c)) <$> String.list_ascii_of_string str.

(** One turn of the loop: [hash = str.charCodeAt(i) + ((hash << 5) - hash)]. *)
Definition hashStep (hash code : Z) : Z := code + (shiftLeft hash 5 - hash).

Definition hashCodes (codes : list Z) : Z := fold_left hashStep codes 0.

(** [Math.abs(hash % colors.length)]; [%] takes the sign of the dividend. *)
Definition colorIndex (codes : list Z) : Z :=
  Z.abs (Z.rem (hashCodes codes) (Z.of_nat (length colors))).

(** The function on the code units of its argument; an index outside the
    array would give [undefined]. *)
Definition getColorForCodes (codes : list Z) : option ColorPair :=
  colors !! Z.to_nat (colorIndex codes).

Definition getColorForString (str : string) : option ColorPair :=
  getColorForCodes (charCodes str).

Definition charCode (c : Ascii.ascii) : N := Ascii.N_of_ascii c.

(** The line terminators among the code units below 256, [\n] and [\r].
    JavaScript has two more, U+2028 and U+2029, after which [/^/gm] matches
    as well; they are not code units of a [string]. *)
Definition isLineTerminator (c : Ascii.ascii) : bool :=
  bool_decide (charCode c = 10%N) || bool_decide (charCode c = 13%N).

(** White space as [trim] sees it: tab, the line terminators, vertical tab,
    form feed, space and the no-break space. *)
Definition isWhiteSpace (c : Ascii.ascii) : bool :=
  bool_decide (charCode c ∈ [9; 10; 11; 12; 13; 32; 160]%N).

Definition dollar : Ascii.ascii := Ascii.ascii_of_nat 36.
Definition ampersand : Ascii.ascii := Ascii.ascii_of_nat 38.
Definition backtick : Ascii.ascii := Ascii.ascii_of_nat 96.
Definition apostrophe : Ascii.ascii := Ascii.ascii_of_nat 39.
Definition newline : Ascii.ascii := Ascii.ascii_of_nat 10.

(** The replacement text of [String.prototype.replace] for an empty match
    of a pattern without groups, [before] and [after] being the text on
    either side of the match: [$$] is a dollar sign, [$&] the (empty) match,
    [$`] and [$'] the text before and after; any other [$] stands for
    itself. *)
Fixpoint getSubstitution (before after replacement : string) : string :=
  match replacement with
  | EmptyString => ""
  | String c r =>
      if decide (c = dollar) then
        match r with
        | EmptyString => String c ""
        | String d r' =>
            if decide (d = dollar) then String dollar (getSubstitution before after r')
            else if decide (d = ampersand) then getSubstitution before after r'
            else if decide (d = backtick) then before +:+ getSubstitution before after r'
            else if decide (d = apostrophe) then after +:+ getSubstitution before after r'
            else String c (getSubstitution before after r)
        end
      else String c (getSubstitution before after r)
  end.

(** The matches of [/^/gm] past position 0: after every line terminator. *)
Fixpoint prefixLinesFrom (prefix before rest : string) : string :=
  match rest with
  | EmptyString => ""
  | String c rest' =>
      let before' := before +:+ String c "" in
      String c
        ((if isLineTerminator c then getSubstitution before' rest' prefix else "")
         +:+ prefixLinesFrom prefix before' rest')
  end.

(** [str.replace(/^/gm, prefix)] *)
Definition prefixLines (prefix str : string) : string :=
  getSubstitution "" str prefix +:+ prefixLinesFrom prefix "" str.

(** [str.split('\n')]; the empty string gives one empty line. *)
Fixpoint split_newline (str : string) : list string :=
  match str with
  | EmptyString => [""]
  | String c str' =>
      if decide (c = newline) then "" :: split_newline str'
      else match split_newline str' with
           | [] => [String c ""]
           | l :: ls => String c l :: ls
           end
  end.

Fixpoint trimStart (s : string) : string :=
  match s with
  | EmptyString => ""
  | String c s' => if isWhiteSpace c then trimStart s' else s
  end.

Fixpoint trimEnd (s : string) : string :=
  match s with
  | EmptyString => ""
  | String c s' =>
      match trimEnd s' with
      | EmptyString => if isWhiteSpace c then "" else String c ""
      | t => String c t
      end
  end.

(** [String.prototype.trim] *)
Definition trim (s : string) : string := trimEnd (trimStart s).

(** [for (let i = lines.length - 1; i >= 0; i--)] over the first [n] lines:
    the last of them whose [trim()] is not empty, or [''] . *)
Fixpoint lastNonEmptyLineBelow (lines : list string) (n : nat) : string :=
  match n with
  | O => ""
  | S i =>
      match lines !! i with
      | Some line =>
          if decide (trim line = "") then lastNonEmptyLineBelow lines i else line
      | None => lastNonEmptyLineBelow lines i
      end
  end.

Definition lastNonEmptyLineIfPossible (str : string) : string :=
  let lines := split_newline str in
  lastNonEmptyLineBelow lines (length lines).

(** [toLowerCase] on one code unit below 256: [A-Z], and the capital
    letters of Latin-1 but for the multiplication sign.  Below 256 the
    result is one code unit again; from 256 on it need not be (U+0130 gives
    two), and such code units are not code units of a [string]. *)
Definition toLowerCase_char (c : Ascii.ascii) : Ascii.ascii :=
  let n := charCode c in
  if bool_decide (65 <= n <= 90)%N || bool_decide (192 <= n <= 214)%N
     || bool_decide (216 <= n <= 222)%N
  then Ascii.ascii_of_N (n + 32) else c.

(** [str && str[0].toLowerCase() + str.slice(1)] *)
Definition decapitalize (str : string) : string :=
  match str with
  | EmptyString => str
  | String c rest => String (toLowerCase_char c) "" +:+ rest
  end.

(** * The vocabulary of the properties *)

Section Vocabulary.
Context `{Platform} `{Host}.

(** A computation that only reads the state: it returns or throws, in the
    state it started from. *)
Definition readonly {A} (c : M State A) : Prop :=
  forall s, match c s with
            | Ret _ s' | Throw _ s' => s' = s
            | Exit _ _ => False
            end.

(** Two states that differ in their directories at most. *)
Definition same_but_dirs (s s' : State) : Prop :=
  files s' = files s /\ manifests s' = manifests s /\ diffs s' = diffs s
  /\ hashed s' = hashed s /\ spawned s' = spawned s /\ stderr s' = stderr s
  /\ stdout s' = stdout s /\ allTasks s' = allTasks s.

(** The builder [computeManifest] starts from in state [s]. *)
Definition initialBuilder (task : ScheduledTask) (s : State) : ManifestConstructor :=
  {| diffPath := getDiffPath (taskConfig task);
     previousManifestPath := getManifestPath (taskConfig task);
     nextManifestPath := getNextManifestPath (taskConfig task);
     previousLines := manifests s !! getManifestPath (taskConfig task);
     nextLines := [] |}.

(** The directory whose task key a [runsAfter] entry refers to. *)
Definition runsAfterDir (config : Config) (task : ScheduledTask) (otherTaskName : string)
  : string :=
  if bool_decide (tc_runType (getTaskConfig config (taskDir task) otherTaskName) = TopLevel)
  then workspaceRoot config else taskDir task.

(** [logger.fail] reports and then either returns or ends the process with
    a status other than 0; it starts no task. *)
Definition fail_reports : Prop :=
  forall headline more s,
    (exists s', logger_fail headline more s = Ret tt s' /\ spawned s' = spawned s)
    \/ (exists code s', logger_fail headline more s = Exit code s'
                        /\ code ≠ 0 /\ spawned s' = spawned s).

(** The [lazy.config.*] files of a directory. *)
Definition configFilesIn (dir : string) (s : State) : list string :=
  filter (fun n => n ∈ configFileNames) (readdir dir (files s)).

(** Modelled from the spec: logger.js is not among the sources.  §7: an
    error is reported and the process exits non-zero; plain messages and
    clearing the task display return and leave the task nodes alone. *)
Definition logger_follows_spec : Prop :=
  (forall headline more s, exists code s',
      logger_fail headline more s = Exit code s' /\ code ≠ 0)
  /\ (forall m s, exists s', logger_log m s = Ret tt s')
  /\ (forall s, exists s', logger_clearTasks s = Ret tt s' /\ allTasks s' = allTasks s).

(** The success states of a task. *)
Definition succeeded (t : ScheduledTask) : Prop :=
  status t = success_eager \/ status t = success_lazy.

(** Strictly ascending, by code units. *)
Definition strlt (a b : string) : Prop := String.ltb a b = true.

(** The builder with the entries [ls] appended. *)
Definition push_lines (ls : list ManifestLine) (mc : ManifestConstructor)
  : ManifestConstructor :=
  {| diffPath := diffPath mc; previousManifestPath := previousManifestPath mc;
     nextManifestPath := nextManifestPath mc; previousLines := previousLines mc;
     nextLines := nextLines mc ++ ls |}.

(** [after o l]: the entry [l] may follow a manifest whose last entry is [o]. *)
Definition after (o : option ManifestLine) (l : ManifestLine) : Prop :=
  match o with
  | Some p => lineBefore p l = true
  | None => True
  end.

(** [lineBefore] as a relation. *)
Definition before (a b : ManifestLine) : Prop := lineBefore a b = true.

(** The ['env var'] entry of a name under the environment [env]. *)
Definition envEntry (env : gmap string string) (name : string) : ManifestLine :=
  {| ml_type := "env var"; ml_id := name;
     ml_hash := hashString (default "" (env !! name)); ml_meta := None |}.

(** [extends P mc mc']: [mc'] is [mc] with further entries, all in [P]. *)
Definition extends (P : ManifestLine -> Prop) (mc mc' : ManifestConstructor) : Prop :=
  exists ls, mc' = push_lines ls mc /\ Forall P ls.

(** The two types of upstream entries, and the type of file entries. *)
Definition upstreamType (l : ManifestLine) : Prop :=
  ml_type l = "upstream task inputs" \/ ml_type l = "upstream package inputs".

Definition fileType (l : ManifestLine) : Prop := ml_type l = "file".

(** Two states that differ in the record of hashed files at most. *)
Definition same_but_hashed (s s' : State) : Prop :=
  files s' = files s /\ dirs s' = dirs s /\ manifests s' = manifests s
  /\ diffs s' = diffs s /\ spawned s' = spawned s /\ stderr s' = stderr s
  /\ stdout s' = stdout s /\ allTasks s' = allTasks s.

(** [join(tasks.config.workspaceRoot, file)] *)
Definition fullPathOf (config : Config) (file : string) : string :=
  path_join [workspaceRoot config; file].

(** The entry written for a file whose content is hashed. *)
Definition hashedEntry (file : string) (fi : FileInfo) : ManifestLine :=
  {| ml_type := "file"; ml_id := file; ml_hash := hashContent (f_content fi);
     ml_meta := Some (f_mtimeMs fi) |}.

(** The entry of the previous manifest that [file] is copied from: the next
    unread one, when it is the ['file'] entry of [file] and its metadata is
    the current modification time. *)
Definition fastPath (mc : ManifestConstructor) (file : string)
    (fi : FileInfo) : option ManifestLine :=
  match nextUnread mc with
  | Some p =>
      if sameEntry "file" file p && bool_decide (ml_meta p = Some (f_mtimeMs fi))
      then Some p else None
  | None => None
  end.

(** The entry of a file: the previous hash on the fast path, a fresh hash
    otherwise; the current modification time as metadata in both cases. *)
Definition fileEntry (mc : ManifestConstructor) (file : string)
    (fi : FileInfo) : ManifestLine :=
  match fastPath mc file fi with
  | Some p => {| ml_type := "file"; ml_id := file; ml_hash := ml_hash p;
                 ml_meta := Some (f_mtimeMs fi) |}
  | None => hashedEntry file fi
  end.

(** Whether the content of [file] has to be read. *)
Definition needsHash (config : Config) (mc : ManifestConstructor)
    (fs : gmap string FileInfo) (file : string) : bool :=
  match fs !! fullPathOf config file with
  | Some fi => bool_decide (fastPath mc file fi = None)
  | None => false
  end.

(** The entries written for the files [fl], one after the other, by a
    builder that starts as [mc]; and the files among them whose content is
    read. *)
Fixpoint fileEntries (config : Config) (fs : gmap string FileInfo)
    (mc : ManifestConstructor) (fl : list string) : list ManifestLine :=
  match fl with
  | [] => []
  | f :: fl' =>
      match fs !! fullPathOf config f with
      | Some fi =>
          fileEntry mc f fi
            :: fileEntries config fs (push_line (fileEntry mc f fi) mc) fl'
      | None => []
      end
  end.

Fixpoint filesHashed (config : Config) (fs : gmap string FileInfo)
    (mc : ManifestConstructor) (fl : list string) : list string :=
  match fl with
  | [] => []
  | f :: fl' =>
      match fs !! fullPathOf config f with
      | Some fi =>
          (if needsHash config mc fs f then [f] else [])
            ++ filesHashed config fs (push_line (fileEntry mc f fi) mc) fl'
      | None => []
      end
  end.

(** The manifest files once [end()] has written and renamed. *)
Definition manifestAfter (mc : ManifestConstructor)
    (m : gmap string (list ManifestLine)) : gmap string (list ManifestLine) :=
  <[previousManifestPath mc := nextLines mc]>
    (delete (nextManifestPath mc) (<[nextManifestPath mc := nextLines mc]> m)).

(** The [didChange] that [end()] answers. *)
Definition didChangeOf (mc : ManifestConstructor) : bool :=
  match previousLines mc with
  | Some prev =>
      negb (bool_decide (ManifestConstructor.aggregateHash prev
                         = ManifestConstructor.aggregateHash (nextLines mc)))
  | None => true
  end.

(** The same builder over another previous manifest. *)
Definition reprev (P : option (list ManifestLine)) (mc : ManifestConstructor)
  : ManifestConstructor :=
  {| diffPath := diffPath mc; previousManifestPath := previousManifestPath mc;
     nextManifestPath := nextManifestPath mc; previousLines := P;
     nextLines := nextLines mc |}.

(** The same outcome, with the value mapped and the state replaced. *)
Definition out_map {A B} (f : A -> B) (s' : State) (o : Outcome State A)
  : Outcome State B :=
  match o with
  | Ret a _ => Ret (f a) s'
  | Throw msg _ => Throw msg s'
  | Exit code _ => Exit code s'
  end.

(** The state a second process starts from: the file system as the first
    process left it, the task nodes built afresh. *)
Definition next_process (s0 s1 : State) : State :=
  set_allTasks (fun _ => allTasks s0) s1.

(** Two runs in a row leave the same manifests, byte for byte; the second
    reads no file content, starts no command, and ends every task in
    [success:lazy]. *)
Definition back_to_back_lazy (env : gmap string string) (tasks : TaskGraph)
    (s : State) : Prop :=
  forall s1 s2,
    runAllTasks env tasks s = Ret tt s1 ->
    runAllTasks env tasks (next_process s s1) = Ret tt s2 ->
    (forall p, serializeManifest <$> manifests s2 !! p
               = serializeManifest <$> manifests s1 !! p)
    /\ hashed s2 = hashed s1
    /\ spawned s2 = spawned s1
    /\ forall k, k ∈ sortedTaskKeys tasks ->
                 status <$> allTasks s2 !! k = Some success_lazy.

(** The state in which the runner starts the manifest build of [task]. *)
Definition started (task : ScheduledTask) (s : State) : State :=
  set_allTasks (alter (set_status running) (key task)) s.

End Vocabulary.

(** ** Further vocabulary: strings, task keys and outcomes *)

Definition carriageReturn : Ascii.ascii := Ascii.ascii_of_nat 13.
Definition colon : Ascii.ascii := Ascii.ascii_of_nat 58.

(** Whether the character [c] occurs in [s]. *)
Fixpoint hasChar (c : Ascii.ascii) (s : string) : bool :=
  match s with
  | EmptyString => false
  | String d s' => bool_decide (d = c) || hasChar c s'
  end.

Fixpoint countLineTerminators (s : string) : nat :=
  match s with
  | EmptyString => O
  | String c s' => ((if isLineTerminator c then 1 else 0) + countLineTerminators s')%nat
  end.

(** Nothing but white space. *)
Fixpoint allWhiteSpace (s : string) : bool :=
  match s with
  | EmptyString => true
  | String c s' => isWhiteSpace c && allWhiteSpace s'
  end.

Section MoreVocabulary.
Context `{Platform}.

(** The task key of a directory and a task name; none when the directory
    is not absolute. *)
Definition taskKeyOf (config : Config) (dir name : string) : option string :=
  returned (getTaskKey (St := unit) config dir name tt).

(** The output files that one [runsAfter] entry adds to [extraFiles]. *)
Definition outputsUsed (config : Config) (task : ScheduledTask)
    (ts : gmap string ScheduledTask) (entry : string * DepConfig) : option (list string) :=
  if bool_decide (usesOutput entry.2 = Some false) then None
  else
    k ← taskKeyOf config (runsAfterDir config task entry.1) entry.1;
    outputFiles <$> ts !! k.

(** The task key that a local dependency contributes: none when the name
    is not a package of the repository or its directory is not absolute. *)
Definition packageKey (config : Config) (name packageName : string) : option string :=
  depPackage ← obj_lookup packageName (packagesByName (repoDetails config));
  taskKeyOf config (pd_dir depPackage) name.

(** Two states that differ in their manifests, their diffs and the record
    of hashed files at most. *)
Definition same_but_manifests (s s' : State) : Prop :=
  files s' = files s /\ dirs s' = dirs s /\ spawned s' = spawned s
  /\ stderr s' = stderr s /\ stdout s' = stdout s /\ allTasks s' = allTasks s.

(** A computation that goes no further than that, and does not end the
    process. *)
Definition quiet {A} (c : M State A) : Prop :=
  forall s, match c s with
            | Ret _ s' | Throw _ s' => same_but_manifests s s'
            | Exit _ _ => False
            end.

(** What a manifest build started in [s] may end in: it returns or throws;
    only when it returns [didChange] has a task node changed, and then the
    node of [task] alone, in its cache key. *)
Definition built (task : ScheduledTask) (s : State) (o : Outcome State (option bool))
  : Prop :=
  match o with
  | Ret (Some _) s' =>
      files s' = files s /\ dirs s' = dirs s /\ spawned s' = spawned s
      /\ stderr s' = stderr s /\ stdout s' = stdout s
      /\ exists h, allTasks s'
                   = <[key task := set_inputManifestCacheKey h
                                     (default task (allTasks s !! key task))]> (allTasks s)
  | Ret None s' | Throw _ s' => same_but_manifests s s'
  | Exit _ _ => False
  end.

End MoreVocabulary.

(** ** Further vocabulary: two runs in a row *)

Section RerunVocabulary.
Context `{Platform} `{Host}.

(** An input file, one with a ['file'] entry in the manifest that the build
    writes, is not hashed by the build when the previous manifest has a
    ['file'] entry for it that carries its current modification time. *)
Definition known_files_are_copied (env : gmap string string) (config : Config)
    (task : ScheduledTask) (s : State) : Prop :=
  forall d s1 previous next f fi p l,
    computeManifest env config task s = Ret (Some d) s1 ->
    manifests s !! getManifestPath (taskConfig task) = Some previous ->
    manifests s1 !! getManifestPath (taskConfig task) = Some next ->
    files s !! fullPathOf config f = Some fi ->
    l ∈ next -> sameEntry "file" f l = true ->
    p ∈ previous -> sameEntry "file" f p = true -> ml_meta p = Some (f_mtimeMs fi) ->
    fullPathOf config f ∉ drop (length (hashed s)) (hashed s1).

(** Whether [copyLineOverIfMetaIsSame('file', file, mtime)] answers [true]
    on the builder [mc]: the entry of the previous manifest that the builder
    has in hand is the one of [file], with this modification time. *)
Definition copied (mc : ManifestConstructor) (file : string) (fi : FileInfo) : bool :=
  (ManifestConstructor.copyLineOverIfMetaIsSame mc "file" file (f_mtimeMs fi)).1.

(** Two maps of task nodes that agree on what a manifest build reads of a
    node: its cache key and its output files. *)
Definition nodes_agree (ts ts' : gmap string ScheduledTask) : Prop :=
  forall k, (fun t => (inputManifestCacheKey t, outputFiles t)) <$> ts !! k
            = (fun t => (inputManifestCacheKey t, outputFiles t)) <$> ts' !! k.

(** What the input globs of a task list in [fs]: the files of the base
    cache configuration and the input files of the package. *)
Definition inputGlobsOf (config : Config) (t : ScheduledTask) (fs : gmap string FileInfo)
  : list (list string) :=
  match tc_cache (taskConfig t) with
  | CacheNone => []
  | CacheObject c =>
      let base := getBaseCacheConfig config (taskDir t) in
      [ glob_sync (includes base) (excludes base) (workspaceRoot config) fs;
        glob_sync (gp_include (cc_inputs c))
          (gp_exclude (cc_inputs c) ++ [path_join [taskDir t; ".lazy"]]) (taskDir t) fs ]
  end.

(** What its output glob lists. *)
Definition outputGlobOf (config : Config) (t : ScheduledTask) (fs : gmap string FileInfo)
  : list string :=
  match tc_cache (taskConfig t) with
  | CacheNone => []
  | CacheObject c =>
      glob_sync (gp_include (cc_outputs c)) (gp_exclude (cc_outputs c)) (taskDir t) fs
  end.

(** A file that an input glob of one of the tasks [ts] lists in [fs], or the
    output glob of one of them that is not among [own]. *)
Definition watched (config : Config) (ts : gmap string ScheduledTask)
    (own : list string) (fs : gmap string FileInfo) (f : string) : Prop :=
  exists k t, ts !! k = Some t
              /\ (f ∈ concat (inputGlobsOf config t fs)
                  \/ ((k ∉ own) /\ f ∈ outputGlobOf config t fs)).

(** [fs'] is to the tasks [ts] what [fs] is, but for the output files of
    the tasks [own]: the input globs of all tasks and the output globs of
    the tasks not among [own] list the same paths, and every file they list
    is the same in both. *)
Definition same_visible (config : Config) (ts : gmap string ScheduledTask)
    (own : list string) (fs fs' : gmap string FileInfo) : Prop :=
  (forall k t, ts !! k = Some t ->
     inputGlobsOf config t fs' = inputGlobsOf config t fs
     /\ ((k ∉ own) -> outputGlobOf config t fs' = outputGlobOf config t fs))
  /\ (forall f, watched config ts own fs f ->
        fs' !! fullPathOf config f = fs !! fullPathOf config f).

(** The command of a task changes nothing of what a manifest build reads
    but the output files of the task itself: the files that the input
    globs of the tasks list, the output files of the other tasks, the
    manifests and the task nodes are as they were.  It may write its own
    output files, and any file that no glob lists. *)
Definition commands_leave_inputs (config : Config) (ts : gmap string ScheduledTask)
  : Prop :=
  forall k task s code s',
    ts !! k = Some task ->
    spawnCommand task s = Ret code s' ->
    same_visible config ts [k] (files s) (files s')
    /\ manifests s' = manifests s /\ allTasks s' = allTasks s.

(** One round of the loop of [runAllTasks]. *)
Definition runStep (env : gmap string string) (tasks : TaskGraph) (_ : unit)
    (k : string) : M State unit :=
  task <- gets (fun s => allTasks s !! k) ;;
  match task with
  | None => ret tt
  | Some task =>
      ts <- gets allTasks ;;
      if bool_decide (Exists (fun u =>
             status <$> ts !! u = Some failure
             ∨ status <$> ts !! u = Some skipped) (upstreamKeys tasks k))
      then set_task k (set_status skipped)
      else runTaskIfNeeded env (tg_config tasks) task
  end.

(** The state once [task] has ended in the status [st] and its output files
    have been captured. *)
Definition finished (st : Status) (task : ScheduledTask) (s : State) : State :=
  outcome_state ((set_task (key task) (set_status st) ;;; captureOutputFiles task) s).

(** The task nodes as the graph constructor leaves them for a run without
    [--force] over tasks that are all cached: every node sits under its own
    key, pending, without output files; the scheduled keys are distinct; no
    two scheduled tasks share a manifest file, and no manifest file is the
    [.next] file of another task. *)
Definition graph_ready (tasks : TaskGraph) (s : State) : Prop :=
  NoDup (sortedTaskKeys tasks)
  /\ (forall k t, allTasks s !! k = Some t ->
        key t = k /\ status t = pending /\ outputFiles t = [])
  /\ (forall k, k ∈ sortedTaskKeys tasks ->
        exists t, allTasks s !! k = Some t /\ force t = false
                  /\ tc_cache (taskConfig t) ≠ CacheNone)
  /\ (forall k k' t t',
        k ∈ sortedTaskKeys tasks -> k' ∈ sortedTaskKeys tasks -> k ≠ k' ->
        allTasks s !! k = Some t -> allTasks s !! k' = Some t' ->
        getManifestPath (taskConfig t) ≠ getManifestPath (taskConfig t')
        /\ getManifestPath (taskConfig t) ≠ getNextManifestPath (taskConfig t')).

End RerunVocabulary.

(** * Concrete runs

    One workspace, [/w], with one package, [/w/pkg], holding [index.js]. *)

Definition ex_platform : Platform := demo_platform "/w".

Definition ex_files : gmap string FileInfo :=
  {[ "/w/pkg/index.js" := {| f_content := "console.log(1)"; f_mtimeMs := "1700000000000" |} ]}.

Definition ex_lazyTask (runsAfter : list (string * DepConfig)) (runType : option RunType)
    (cache : option CacheSetting) : LazyTask :=
  {| lt_runType := runType; lt_baseCommand := None;
     lt_runsAfter := Some runsAfter; lt_parallel := None; lt_cache := cache |}.

Definition ex_envCache : CacheSetting :=
  CacheRaw {| co_envInputs := Some ["NODE_ENV"; "CI"; "NODE_ENV"];
              co_inheritsInputFromDependencies := None;
              co_inputs := None; co_outputs := None;
              co_usesOutputFromDependencies := None |}.

Definition inherits : DepConfig := {| inheritsInput := true; usesOutput := None |}.
Definition ordering_only : DepConfig := {| inheritsInput := false; usesOutput := Some false |}.

(** [build] runs after [test] and [lint], in this order, and inherits the
    input of both; [setup] is a top-level task; [bundle] is not cached. *)
Definition ex_config : Config :=
  demo_config "/w"
    [ ("build", ex_lazyTask [("test", inherits); ("lint", inherits)] None None);
      ("test", ex_lazyTask [] None (Some ex_envCache));
      ("lint", ex_lazyTask [] None None);
      ("setup", ex_lazyTask [] (Some TopLevel) None);
      ("deploy", ex_lazyTask [("setup", inherits); ("check", inherits);
                              ("lint", ordering_only)] None None);
      ("bundle", ex_lazyTask [] None (Some CacheNoneRaw)) ].

Definition ex_build : ScheduledTask := demo_task ex_config "/w/pkg" "build" None None.
Definition ex_test : ScheduledTask := demo_task ex_config "/w/pkg" "test" None None.
Definition ex_lint : ScheduledTask := demo_task ex_config "/w/pkg" "lint" None None.
Definition ex_deploy : ScheduledTask := demo_task ex_config "/w/pkg" "deploy" None None.
Definition ex_bundle : ScheduledTask := demo_task ex_config "/w/pkg" "bundle" None None.

Definition with_key (h : string) (t : ScheduledTask) : ScheduledTask :=
  set_inputManifestCacheKey h t.

Definition ex_state (nodes : list ScheduledTask) : State :=
  {| files := ex_files; dirs := ∅; manifests := ∅; diffs := ∅; hashed := [];
     spawned := []; stderr := []; stdout := [];
     allTasks := list_to_map ((fun t => (key t, t)) <$> nodes) |}.

Definition ex_host (graph : list ScheduledTask) (exitCodes : string -> Z) : Host :=
  demo_host exiting_fail "/w" [] graph exitCodes.

Definition ex_graph (graph : list ScheduledTask) : TaskGraph :=
  {| tg_config := ex_config; sortedTaskKeys := key <$> graph; upstreamKeys := fun _ => [] |}.

Definition ex_nodes : list ScheduledTask :=
  [ex_build; with_key "k-test" ex_test; with_key "k-lint" ex_lint].

Definition no_options : CLIOption :=
  {| opt_filter := FilterNone; opt_force := false; opt_extraArgs := [] |}.

(** The value an outcome returns, [d] when it does not return. *)
Definition value_or {A} (d : A) (o : Outcome State A) : A :=
  match o with Ret a _ => a | _ => d end.

(** The cache object of a task that is cached. *)
Definition cache_of (t : ScheduledTask) : CacheConfig :=
  match tc_cache (taskConfig t) with
  | CacheObject c => c
  | CacheNone =>
      {| cc_envInputs := []; cc_inheritsInputFromDependencies := true;
         cc_inputs := extractGlobPattern None; cc_outputs := extractGlobPattern None;
         cc_usesOutputFromDependencies := true |}
  end.

(** The state after the first manifest build of [test]. *)
Definition ex_first_build : Outcome State (option bool) :=
  @computeManifest ex_platform ∅ ex_config ex_test (started ex_test (ex_state [ex_test])).

Definition ex_two_configs : State :=
  set_files (fun _ => {[ "/w/lazy.config.js" := {| f_content := ""; f_mtimeMs := "1" |};
                          "/w/lazy.config.json" := {| f_content := ""; f_mtimeMs := "2" |} ]})
    (ex_state []).

Definition ex_returning_host : Host := demo_host returning_fail "/w" [] [] (fun _ => 0).

Definition ex_run_host : Host := ex_host [ex_test] (fun _ => 0).

(** ** Further concrete inputs *)

Definition ex_log : string :=
  "build started" +:+ String newline "" +:+ "  done in 2s  " +:+ String newline ""
  +:+ "   " +:+ String newline "".

Definition ex_pkg : PackageDetails :=
  {| pd_name := "pkg"; pd_dir := "/w/pkg"; pd_localDeps := None |}.

(** The workspace with a [lazy.config.json] in its package. *)
Definition ex_pkg_config : State :=
  set_files (fun _ => {[ "/w/pkg/lazy.config.json" := {| f_content := ""; f_mtimeMs := "1" |} ]})
    (ex_state []).

Definition ex_pkg_host : Host :=
  demo_host exiting_fail "/w" [("pkg", ex_pkg)] [] (fun _ => 0).

(** A host that finds no workspace root, with a logger that returns. *)
Definition ex_rootless_host : Host :=
  {| logger_fail := returning_fail;
     logger_log := fun m => modify (set_stdout (fun l => l ++ [m]));
     logger_isInteractive := false;
     logger_clearTasks := ret tt;
     process_cwd := "/w";
     getWorkspaceRoot := fun _ => ret None;
     getPackageManager := fun _ => ret None;
     getRepoDetails := fun _ => ret {| packagesByName := [] |};
     parseJsonConfig := fun _ => ret None;
     importDefault := fun _ => ret None;
     esbuild_build := fun _ _ => ret tt;
     isTest := true;
     importSourceMapSupport := ret tt;
     newTaskGraph := fun config _ =>
       ret {| tg_config := config; sortedTaskKeys := []; upstreamKeys := fun _ => [] |};
     spawnCommand := fun _ => ret 0 |}.

(** The configuration of [ex_config] with a config file of its own in the
    package, which defines no task. *)
Definition ex_shadow_config : Config :=
  {| rootConfig := rootConfig ex_config;
     packageDirConfigs :=
       {[ "/w/pkg" := {| config := emptyLazyConfig;
                         filePath := Some "/w/pkg/lazy.config.json" |} ]};
     workspaceRoot := "/w";
     repoDetails := {| packagesByName := [("pkg", ex_pkg)] |} |}.

Definition uses_output : DepConfig := {| inheritsInput := false; usesOutput := None |}.

(** [pack] runs after [lint], whose input it inherits, and after [test],
    whose output files it uses; [test] wrote a file outside the package. *)
Definition ex_pack_config : Config :=
  demo_config "/w"
    [ ("pack", ex_lazyTask [("lint", inherits); ("test", uses_output)] None None);
      ("lint", ex_lazyTask [] None None);
      ("test", ex_lazyTask [] None None) ].

Definition ex_pack : ScheduledTask := demo_task ex_pack_config "/w/pkg" "pack" None None.

Definition ex_pack_lint : ScheduledTask :=
  with_key "k-lint" (demo_task ex_pack_config "/w/pkg" "lint" None None).

Definition ex_pack_test : ScheduledTask :=
  set_outputFiles ["reports/test.xml"]
    (with_key "k-test" (demo_task ex_pack_config "/w/pkg" "test" None None)).

Definition ex_pack_state : State :=
  {| files := {[ "/w/pkg/index.js" :=
                   {| f_content := "console.log(1)"; f_mtimeMs := "1700000000000" |};
                 "/w/reports/test.xml" :=
                   {| f_content := "<ok/>"; f_mtimeMs := "1700000000001" |} ]};
     dirs := ∅; manifests := ∅; diffs := ∅; hashed := [];
     spawned := []; stderr := []; stdout := [];
     allTasks := list_to_map ((fun t => (key t, t)) <$> [ex_pack; ex_pack_lint; ex_pack_test]) |}.

(** A workspace of two packages, and [lint] in a third that depends on both. *)
Definition ex_two_packages : Config :=
  {| rootConfig := rootConfig ex_config;
     packageDirConfigs := ∅;
     workspaceRoot := "/w";
     repoDetails :=
       {| packagesByName :=
            [("a", {| pd_name := "a"; pd_dir := "/w/a"; pd_localDeps := None |});
             ("b", {| pd_name := "b"; pd_dir := "/w/b"; pd_localDeps := None |})] |} |}.

Definition ex_dependent (deps : list string) : ScheduledTask :=
  demo_task ex_two_packages "/w/pkg" "lint"
    (Some {| pd_name := "pkg"; pd_dir := "/w/pkg"; pd_localDeps := Some deps |}) None.


(** ** A package that loses a file between two builds

    [/w/pkg] holds [a.js], [b.js] and [c.js] when [lint] is first built;
    then [b.js] is removed and nothing else is touched. *)

Definition ex_three_files : gmap string FileInfo :=
  {[ "/w/pkg/a.js" := {| f_content := "a"; f_mtimeMs := "1" |};
     "/w/pkg/b.js" := {| f_content := "b"; f_mtimeMs := "2" |};
     "/w/pkg/c.js" := {| f_content := "c"; f_mtimeMs := "3" |} ]}.

Definition ex_three_state : State :=
  set_files (fun _ => ex_three_files) (ex_state [ex_lint]).

(** The manifest that the first build writes. *)
Definition ex_three_manifest : list ManifestLine :=
  [ {| ml_type := "file"; ml_id := "pkg/a.js"; ml_hash := "H(a)"; ml_meta := Some "1" |};
    {| ml_type := "file"; ml_id := "pkg/b.js"; ml_hash := "H(b)"; ml_meta := Some "2" |};
    {| ml_type := "file"; ml_id := "pkg/c.js"; ml_hash := "H(c)"; ml_meta := Some "3" |} ].

(** The state the second build starts in. *)
Definition ex_b_removed : State :=
  {| files := delete "/w/pkg/b.js" ex_three_files;
     dirs := ∅;
     manifests := {[ "/w/pkg/.lazy/manifests/lint" := ex_three_manifest ]};
     diffs := ∅; hashed := []; spawned := []; stderr := []; stdout := [];
     allTasks := list_to_map [(key ex_lint, ex_lint)] |}.

(** ** The workspace of the integration tests on dependent tasks

    [packages/core] depends on [packages/utils]; [build] is a task of both.
    Its inputs are the files of the package but those under [dist], its
    outputs the files under [dist]; its command writes [dist/index.js] and
    [.out.txt] into the package.  The file system holds the paths
    [ws_paths] at most; the glob knows the patterns [**/*] and [dist/**/*]
    and does not list a path with a component that starts with a dot. *)

Definition ws_paths : list string :=
  [ "/w/packages/core/.out.txt"; "/w/packages/core/dist/index.js";
    "/w/packages/core/index.js"; "/w/packages/core/package.json";
    "/w/packages/utils/.out.txt"; "/w/packages/utils/dist/index.js";
    "/w/packages/utils/index.js"; "/w/packages/utils/package.json" ].

Definition ws_matches (cwd p pattern : string) : bool :=
  if decide (pattern = "**/*") then String.prefix (cwd +:+ "/") p
  else if decide (pattern = "dist/**/*") then String.prefix (cwd +:+ "/dist/") p
  else false.

(** Whether the glob lists the path [p] when it exists. *)
Definition ws_listed (patterns ignore : list string) (cwd p : string) : bool :=
  existsb (ws_matches cwd p) patterns
  && negb (existsb (ws_matches cwd p) ignore)
  && negb (contains "/." p).

Definition ws_glob (patterns ignore : list string) (cwd : string)
    (fs : gmap string FileInfo) : list string :=
  omap (fun p =>
          if ws_listed patterns ignore cwd p && bool_decide (is_Some (fs !! p))
          then Some (demo_relative "/w" p) else None)
       ws_paths.

Definition ws_platform : Platform :=
  {| hashString := fun s => "h(" +:+ s +:+ ")";
     hashContent := fun c => "H(" +:+ c +:+ ")";
     slugify := fun s => s;
     path_join := String.concat "/";
     path_dirname := demo_dirname;
     path_relative := demo_relative;
     path_isAbsolute := String.prefix "/";
     glob_sync := ws_glob;
     readdir := fun dir fs =>
       omap (fun p => if decide (demo_dirname p = dir) then Some (demo_basename p) else None)
            (map_to_list fs).*1 |}.

Definition ws_utils : PackageDetails :=
  {| pd_name := "utils"; pd_dir := "/w/packages/utils"; pd_localDeps := None |}.

Definition ws_core : PackageDetails :=
  {| pd_name := "core"; pd_dir := "/w/packages/core"; pd_localDeps := Some ["utils"] |}.

(** [cache: { inputs: { include: ['**/*'], exclude: ['dist/**/*'] },
    outputs: ['dist/**/*'] }] *)
Definition ws_cache : CacheSetting :=
  CacheRaw {| co_envInputs := None;
              co_inheritsInputFromDependencies := None;
              co_inputs := Some (GlobObject (Some ["**/*"]) (Some ["dist/**/*"]));
              co_outputs := Some (GlobArray ["dist/**/*"]);
              co_usesOutputFromDependencies := None |}.

Definition ws_config : Config :=
  {| rootConfig :=
       rootConfig (demo_config "/w" [("build", ex_lazyTask [] None (Some ws_cache))]);
     packageDirConfigs := ∅;
     workspaceRoot := "/w";
     repoDetails := {| packagesByName := [("utils", ws_utils); ("core", ws_core)] |} |}.

Definition ws_build_utils : ScheduledTask :=
  demo_task ws_config "/w/packages/utils" "build" (Some ws_utils) None.

Definition ws_build_core : ScheduledTask :=
  demo_task ws_config "/w/packages/core" "build" (Some ws_core) None.

Definition ws_graph : TaskGraph :=
  {| tg_config := ws_config;
     sortedTaskKeys := [key ws_build_utils; key ws_build_core];
     upstreamKeys := fun k => if decide (k = key ws_build_core) then [key ws_build_utils]
                              else [] |}.

(** [mkdir -p dist && cp index.js dist/ && echo $RANDOM > .out.txt] in the
    directory of the task. *)
Definition ws_command (n : string) (t : ScheduledTask) : M State Z :=
  modify (set_files (insert (taskDir t +:+ "/dist/index.js")
                       {| f_content := "built"; f_mtimeMs := n |})) ;;;
  modify (set_files (insert (taskDir t +:+ "/.out.txt")
                       {| f_content := n; f_mtimeMs := n |})) ;;;
  ret 0.

Definition ws_host_with (command : ScheduledTask -> M State Z) : Host :=
  {| logger_fail := exiting_fail;
     logger_log := fun m => modify (set_stdout (fun l => l ++ [m]));
     logger_isInteractive := false;
     logger_clearTasks := ret tt;
     process_cwd := "/w";
     getWorkspaceRoot := fun _ => ret (Some "/w");
     getPackageManager := fun _ => ret (Some "npm");
     getRepoDetails := fun _ => ret (repoDetails ws_config);
     parseJsonConfig := fun _ => ret (Some emptyLazyConfig);
     importDefault := fun _ => ret (Some emptyLazyConfig);
     esbuild_build := fun _ _ => ret tt;
     isTest := true;
     importSourceMapSupport := ret tt;
     newTaskGraph := fun _ _ =>
       modify (set_allTasks (fun _ =>
         list_to_map ((fun t => (key t, t)) <$> [ws_build_utils; ws_build_core]))) ;;;
       ret ws_graph;
     spawnCommand := command |}.

Definition ws_host : Host := ws_host_with (ws_command "4321").

(** A command that fails in [packages/utils]. *)
Definition ws_failing_command (t : ScheduledTask) : M State Z :=
  if decide (taskDir t = "/w/packages/utils") then ret 1 else ws_command "4321" t.

(** A command that rewrites [index.js] in the directory of the task. *)
Definition ws_formatting_command (t : ScheduledTask) : M State Z :=
  modify (set_files (insert (taskDir t +:+ "/index.js")
                       {| f_content := "formatted"; f_mtimeMs := "99" |})) ;;;
  ret 0.

Definition ws_state : State :=
  {| files :=
       {[ "/w/packages/core/index.js" := {| f_content := "core"; f_mtimeMs := "10" |};
          "/w/packages/core/package.json" := {| f_content := "{}"; f_mtimeMs := "11" |};
          "/w/packages/utils/index.js" := {| f_content := "utils"; f_mtimeMs := "12" |};
          "/w/packages/utils/package.json" := {| f_content := "{}"; f_mtimeMs := "13" |} ]};
     dirs := ∅; manifests := ∅; diffs := ∅; hashed := [];
     spawned := []; stderr := []; stdout := [];
     allTasks := list_to_map ((fun t => (key t, t)) <$> [ws_build_utils; ws_build_core]) |}.


(** * Properties *)

(** ** Generalities on outcomes and loops *)

Lemma bind_ext {St A B} (c : M St A) (k k' : A -> M St B) (s : St) :
  (forall a s', k a s' = k' a s') -> bind c k s = bind c k' s.
Proof. intros E. unfold bind. destruct (c s); auto. Qed.

Lemma forM_ext {St A B} (f g : A -> B -> M St A) (l : list B) (a : A) (s : St) :
  (forall a x s', f a x s' = g a x s') -> forM f l a s = forM g l a s.
Proof.
  intros E. revert a s. induction l as [|x l IH]; intros a s; simpl; [done|].
  unfold bind. rewrite E. destruct (g a x s); auto.
Qed.

Lemma readonly_ret {A} (a : A) : readonly (ret a).
Proof. intros s. done. Qed.

Lemma readonly_throw {A} (msg : string) : readonly (@throw State A msg).
Proof. intros s. done. Qed.

Lemma readonly_gets {A} (f : State -> A) : readonly (gets f).
Proof. intros s. done. Qed.

Lemma readonly_bind {A B} (c : M State A) (k : A -> M State B) :
  readonly c -> (forall a, readonly (k a)) -> readonly (bind c k).
Proof.
  intros Hc Hk s. unfold bind. specialize (Hc s).
  destruct (c s) as [a s'| |]; subst; try done. apply Hk.
Qed.

Lemma readonly_forM {A B} (f : A -> B -> M State A) (l : list B) (a : A) :
  (forall a x, readonly (f a x)) -> readonly (forM f l a).
Proof.
  intros Hf. revert a. induction l as [|x l IH]; intros a; simpl.
  - apply readonly_ret.
  - apply readonly_bind; auto.
Qed.

(** A read-only loop throws as soon as one of its iterations does. *)
Lemma forM_throws {A B} (f : A -> B -> M State A) (l : list B) (x : B) (a : A) (s : State) :
  (forall a x, readonly (f a x)) ->
  x ∈ l ->
  (forall a, throws (f a x s) = true) ->
  throws (forM f l a s) = true.
Proof.
  intros Hro Hin Hx. revert a. induction Hin as [x l|x y l Hin IH]; intros a; simpl.
  - unfold bind. specialize (Hx a). destruct (f a x s); done.
  - unfold bind. pose proof (Hro a y s) as Hs.
    destruct (f a y s) as [a' s'| |]; subst; try done. apply IH. done.
Qed.

Create HintDb readonly.
#[global] Hint Resolve readonly_ret readonly_throw readonly_gets : readonly.

(** ** The builder and the steps of computeManifest only read the state *)

Section Steps.
Context `{Platform}.

Lemma update_readonly mc type id hash meta :
  readonly (ManifestConstructor.update mc type id hash meta).
Proof.
  unfold ManifestConstructor.update.
  destruct (last (nextLines mc)); [destruct (lineBefore _ _)|]; auto with readonly.
Qed.

Lemma getTaskKey_readonly config dir name :
  readonly (@getTaskKey _ State config dir name).
Proof. unfold getTaskKey. destruct (path_isAbsolute dir); auto with readonly. Qed.

Lemma runsAfterStep_readonly config task acc entry :
  readonly (runsAfterStep config task acc entry).
Proof.
  unfold runsAfterStep. destruct acc as [mc ex], entry as [name dc].
  destruct (negb _ && _); [auto with readonly|].
  apply readonly_bind; [apply getTaskKey_readonly|]. intros k.
  apply readonly_bind; [auto with readonly|]. intros [dep|].
  - apply readonly_bind; [|auto with readonly].
    destruct (inheritsInput dc); [|auto with readonly].
    destruct (cacheKeyOf dep); [apply update_readonly|auto with readonly].
  - destruct (bool_decide _); auto with readonly.
Qed.

Lemma packageDepStep_readonly mc k : readonly (packageDepStep mc k).
Proof.
  unfold packageDepStep. apply readonly_bind; [auto with readonly|]. intros [dep|].
  - destruct (cacheKeyOf dep); [apply update_readonly|auto with readonly].
  - auto with readonly.
Qed.

Lemma upstreamTaskKeys_readonly config task : readonly (upstreamTaskKeys config task).
Proof.
  unfold upstreamTaskKeys. destruct (_ ≫= _); [|auto with readonly].
  apply readonly_bind; [|auto with readonly].
  apply readonly_forM. intros acc p. destruct (obj_lookup _ _); [|auto with readonly].
  apply readonly_bind; [apply getTaskKey_readonly|auto with readonly].
Qed.

Lemma packageDepsPhase_readonly config task cache mc :
  readonly (packageDepsPhase config task cache mc).
Proof.
  unfold packageDepsPhase. destruct (_ && _); [|auto with readonly].
  apply readonly_bind; [apply upstreamTaskKeys_readonly|]. intros [keys|].
  - apply readonly_forM. apply packageDepStep_readonly.
  - auto with readonly.
Qed.

Lemma envStep_readonly env mc x : readonly (envStep env mc x).
Proof. apply update_readonly. Qed.

End Steps.

(** ** The head of computeManifest *)

Lemma same_but_dirs_refl s : same_but_dirs s s.
Proof. repeat split. Qed.

Lemma same_but_dirs_trans s1 s2 s3 :
  same_but_dirs s1 s2 -> same_but_dirs s2 s3 -> same_but_dirs s1 s3.
Proof. unfold same_but_dirs. intros. destruct_and!. repeat split; congruence. Qed.

Section Prepare.
Context `{Platform}.

Lemma ensureDir_spec dir s :
  exists s', ensureDir dir s = Ret tt s' /\ same_but_dirs s s'.
Proof.
  unfold ensureDir, existsSync, mkdirSync_recursive, bind, gets, modify, ret.
  destruct (bool_decide _); eexists; (split; [reflexivity|]); repeat split.
Qed.

Lemma prepareManifest_spec task s :
  exists s', prepareManifest task s = Ret (initialBuilder task s) s' /\ same_but_dirs s s'.
Proof.
  unfold prepareManifest.
  destruct (ensureDir_spec (path_dirname (getManifestPath (taskConfig task))) s)
    as (s1 & E1 & S1).
  destruct (ensureDir_spec (path_dirname (getNextManifestPath (taskConfig task))) s1)
    as (s2 & E2 & S2).
  assert (exists s3,
    (if decide (getDiffPath (taskConfig task) = "") then ret tt
     else ensureDir (path_dirname (getDiffPath (taskConfig task)))) s2 = Ret tt s3
    /\ same_but_dirs s2 s3) as (s3 & E3 & S3).
  { destruct (decide _); [eexists; split; [reflexivity|apply same_but_dirs_refl]|].
    apply ensureDir_spec. }
  exists s3. split.
  - unfold bind at 1. rewrite E1. unfold bind at 1. rewrite E2.
    unfold bind at 1. rewrite E3.
    unfold ManifestConstructor.new, bind, gets, ret, initialBuilder.
    assert (manifests s3 = manifests s) as ->; [|done].
    destruct S1 as (_ & M1 & _), S2 as (_ & M2 & _), S3 as (_ & M3 & _). congruence.
  - eauto using same_but_dirs_trans.
Qed.

End Prepare.

(** ** Tasks that are not cached *)

Section CacheNone.
Context `{Platform} `{Host}.

(** C3: for a task whose [cache] is ['none'], [computeManifest] returns
    [null] at once and leaves the state as it found it: no directory is
    created, no manifest, [.next] or diff file is written, nothing is
    hashed, no builder is made.  The runner then takes the miss path
    whatever [force] and the manifests on disk say, so the command runs. *)
Theorem cache_none_writes_nothing_and_runs env config task s :
  tc_cache (taskConfig task) = CacheNone ->
  computeManifest env config task s = Ret None s
  /\ runTaskIfNeeded env config task s
     = runCommand task (set_allTasks (alter (set_status running) (key task)) s)
  /\ forall s', exists s'',
       runCommand task s' = bind (spawnCommand task) (fun code =>
          if decide (code = 0) then
            set_task (key task) (set_status success_eager) ;;;
            captureOutputFiles task
          else set_task (key task) (set_status failure)) s''
       /\ spawned s'' = spawned s' ++ [key task]
       /\ dirs s'' = dirs s' /\ manifests s'' = manifests s' /\ diffs s'' = diffs s'.
Proof.
  intros Hc. split; [|split].
  - unfold computeManifest. rewrite Hc. done.
  - unfold runTaskIfNeeded, set_task, bind, modify, gets.
    unfold computeManifest. simpl. rewrite Hc. done.
  - intros s'. eexists. split; [reflexivity|]. done.
Qed.

End CacheNone.

(** ** Missing upstream nodes and missing upstream cache keys *)

Lemma readonly_throws_inv {A} (c : M State A) (s : State) :
  readonly c -> throws (c s) = true -> exists msg, c s = Throw msg s.
Proof.
  intros Hro Ht. specialize (Hro s). destruct (c s); try done. subst. eauto.
Qed.

Section Upstream.
Context `{Platform}.

Lemma getTaskKey_state config dir name (s s1 s' : State) k :
  getTaskKey config dir name s = Ret k s1 -> getTaskKey config dir name s' = Ret k s'.
Proof.
  unfold getTaskKey. destruct (path_isAbsolute dir); [|done].
  unfold ret. congruence.
Qed.

(** The loop over [runsAfter] is the first thing [computeManifest] does
    after its preparations; when one of its iterations throws, so does
    [computeManifest], having written nothing but directories. *)
Lemma computeManifest_runsAfter_throws env config task cache entry s :
  tc_cache (taskConfig task) = CacheObject cache ->
  entry ∈ tc_runsAfter (taskConfig task) ->
  (forall acc s', allTasks s' = allTasks s ->
     throws (runsAfterStep config task acc entry s') = true) ->
  exists msg s', computeManifest env config task s = Throw msg s' /\ same_but_dirs s s'.
Proof.
  intros Hc Hin Hthrow. unfold computeManifest. rewrite Hc.
  destruct (prepareManifest_spec task s) as (s1 & E1 & S1).
  unfold bind at 1. rewrite E1. unfold buildManifest.
  destruct (readonly_throws_inv
    (forM (runsAfterStep config task) (tc_runsAfter (taskConfig task))
       (initialBuilder task s, [])) s1) as [msg E].
  { apply readonly_forM. intros. apply runsAfterStep_readonly. }
  { eapply forM_throws; [intros; apply runsAfterStep_readonly|exact Hin|].
    intros acc. apply Hthrow. apply S1. }
  exists msg, s1. unfold bind at 1. rewrite E. done.
Qed.

Lemma upstreamTaskKeys_elem config task pd deps p dp k keys (s s' : State) :
  packageDetails task = Some pd -> pd_localDeps pd = Some deps ->
  p ∈ deps ->
  obj_lookup p (packagesByName (repoDetails config)) = Some dp ->
  getTaskKey config (pd_dir dp) (taskName task) s = Ret k s ->
  upstreamTaskKeys config task s = Ret keys s' ->
  exists ks, keys = Some ks /\ k ∈ ks.
Proof.
  intros Hpd Hdeps Hin Hdp Hk. unfold upstreamTaskKeys. rewrite Hpd. simpl. rewrite Hdeps.
  set (body := fun (acc : list string) packageName => _).
  assert (forall l acc r s1, forM body l acc s = Ret r s1 ->
            (p ∈ l \/ k ∈ acc) -> k ∈ r) as Hloop.
  { induction l as [|x l IH]; intros acc r s1; simpl.
    - unfold ret. intros [= <- _] [Hp|Ha]; [by apply elem_of_nil in Hp|done].
    - unfold bind at 1. pose proof (readonly_forM body [x] acc) as Hro.
      destruct (body acc x s) as [acc' s2| |] eqn:Eb; try done.
      intros Hr Hor.
      assert (s2 = s) as ->.
      { assert (readonly (body acc x)) as Hb.
        { unfold body. destruct (obj_lookup x _); [|auto with readonly].
          apply readonly_bind; [apply getTaskKey_readonly|auto with readonly]. }
        specialize (Hb s). rewrite Eb in Hb. done. }
      eapply IH; [exact Hr|].
      destruct Hor as [Hp|Ha].
      + apply elem_of_cons in Hp as [->|Hp]; [|by left].
        right. unfold body in Eb. rewrite Hdp in Eb.
        unfold bind in Eb. rewrite Hk in Eb. unfold ret in Eb. simplify_eq/=.
        apply elem_of_app. right. apply list_elem_of_singleton. done.
      + right. unfold body in Eb. destruct (obj_lookup x _) as [dx|]; [|done].
        unfold bind in Eb. destruct (getTaskKey config (pd_dir dx) _ s); try done.
        unfold ret in Eb. simplify_eq/=. apply elem_of_app. by left. }
  unfold bind. destruct (forM body deps [] s) as [ks s1| |] eqn:E; try done.
  unfold ret. intros [= <- _]. eexists. split; [done|].
  unfold js_sort. rewrite merge_sort_Permutation. eapply Hloop; eauto.
Qed.

End Upstream.

Section UpstreamClaims.
Context `{Platform}.

(** C4: when the manifest of a task is built ([cache] is not ['none']) and an
    upstream task node, reached through a [runsAfter] entry with
    [inheritsInput] or through package-dependency inheritance, has no
    [inputManifestCacheKey], [computeManifest] throws; no manifest, diff or
    cache key is written. *)
Theorem missing_upstream_cache_key_throws env config task cache s :
  tc_cache (taskConfig task) = CacheObject cache ->
  (exists otherTaskName depConfig k depTask,
      (otherTaskName, depConfig) ∈ tc_runsAfter (taskConfig task)
      /\ inheritsInput depConfig = true
      /\ getTaskKey config (runsAfterDir config task otherTaskName) otherTaskName s = Ret k s
      /\ allTasks s !! k = Some depTask
      /\ inputManifestCacheKey depTask = None)
  \/ (tc_runType (taskConfig task) ≠ Independent
      /\ cc_inheritsInputFromDependencies cache = true
      /\ exists pd deps packageName depPackage k depTask,
           packageDetails task = Some pd /\ pd_localDeps pd = Some deps
           /\ packageName ∈ deps
           /\ obj_lookup packageName (packagesByName (repoDetails config)) = Some depPackage
           /\ getTaskKey config (pd_dir depPackage) (taskName task) s = Ret k s
           /\ allTasks s !! k = Some depTask
           /\ inputManifestCacheKey depTask = None) ->
  exists msg s', computeManifest env config task s = Throw msg s' /\ same_but_dirs s s'.
Proof.
  intros Hc [(name & dc & k & dep & Hin & Hinh & Hk & Hdep & Hnone)
            |(Hrt & Hinherit & pd & deps & p & dp & k & dep
              & Hpd & Hdeps & Hin & Hdp & Hk & Hdep & Hnone)].
  - eapply computeManifest_runsAfter_throws; [exact Hc|exact Hin|].
    intros [mc ex] s' Hs'. unfold runsAfterStep. rewrite Hinh. simpl.
    unfold runsAfterDir in Hk. unfold bind at 1.
    rewrite (getTaskKey_state _ _ _ _ _ s' _ Hk).
    unfold bind at 1, gets. rewrite Hs', Hdep.
    unfold cacheKeyOf. rewrite Hnone. done.
  - unfold computeManifest. rewrite Hc.
    destruct (prepareManifest_spec task s) as (s1 & E1 & S1).
    unfold bind at 1. rewrite E1.
    unfold buildManifest. unfold bind at 1.
    pose proof (readonly_forM (runsAfterStep config task) (tc_runsAfter (taskConfig task))
      (initialBuilder task s, []) (fun a x => runsAfterStep_readonly config task a x) s1) as Hro.
    destruct (forM (runsAfterStep config task) _ _ s1) as [[mc1 ex] s2|msg s2|] eqn:E;
      [subst s2| subst s2; eauto |done].
    unfold bind at 1. unfold packageDepsPhase.
    rewrite bool_decide_eq_true_2 by done. rewrite Hinherit. simpl.
    unfold bind at 1.
    pose proof (upstreamTaskKeys_readonly config task s1) as Hro2.
    destruct (upstreamTaskKeys config task s1) as [keys s2|msg s2|] eqn:E2;
      [subst s2| subst s2; eauto |done].
    destruct (upstreamTaskKeys_elem config task pd deps p dp k keys s1 s1)
      as (ks & -> & Hks); auto.
    { eapply getTaskKey_state; eauto. }
    destruct (readonly_throws_inv (forM packageDepStep ks mc1) s1) as [msg Em].
    { apply readonly_forM. apply packageDepStep_readonly. }
    { eapply forM_throws; [apply packageDepStep_readonly|exact Hks|].
      intros mc. unfold packageDepStep, bind, gets.
      destruct S1 as (_&_&_&_&_&_&_&->). rewrite Hdep.
      unfold cacheKeyOf. rewrite Hnone. done. }
    rewrite Em. eauto.
Qed.

(** C10: a [runsAfter] entry whose named task has no node.  An entry with
    [inheritsInput] false and [usesOutput === false] is passed over before
    anything is looked up: whatever the configuration and the task nodes
    are, the builder and the extra files stay as they were and nothing is
    thrown.  Otherwise, when the node under the entry's key is absent, a
    ['top-level'] task makes the iteration, and with it [computeManifest],
    throw "Missing task", while for any other run type the iteration ends
    with the builder and the extra files untouched and without an error. *)
Theorem runsAfter_absent_node env config task cache mc extraFiles otherTaskName depConfig s :
  (inheritsInput depConfig = false -> usesOutput depConfig = Some false ->
     runsAfterStep config task (mc, extraFiles) (otherTaskName, depConfig) s
     = Ret (mc, extraFiles) s)
  /\ (forall k,
        ~ (inheritsInput depConfig = false /\ usesOutput depConfig = Some false) ->
        getTaskKey config (runsAfterDir config task otherTaskName) otherTaskName s = Ret k s ->
        allTasks s !! k = None ->
        (tc_runType (getTaskConfig config (taskDir task) otherTaskName) = TopLevel ->
           runsAfterStep config task (mc, extraFiles) (otherTaskName, depConfig) s
           = Throw ("Missing task: " +:+ k +:+ ".") s
           /\ (tc_cache (taskConfig task) = CacheObject cache ->
               (otherTaskName, depConfig) ∈ tc_runsAfter (taskConfig task) ->
               exists msg s', computeManifest env config task s = Throw msg s'
                              /\ same_but_dirs s s'))
        /\ (tc_runType (getTaskConfig config (taskDir task) otherTaskName) ≠ TopLevel ->
           runsAfterStep config task (mc, extraFiles) (otherTaskName, depConfig) s
           = Ret (mc, extraFiles) s)).
Proof.
  split.
  - intros Hi Hu. unfold runsAfterStep. rewrite Hi, Hu. done.
  - intros k Hns Hk Hnone.
    assert (negb (inheritsInput depConfig)
            && bool_decide (usesOutput depConfig = Some false) = false) as Hguard.
    { destruct (inheritsInput depConfig); [done|]. simpl.
      apply bool_decide_eq_false_2. intros Hu. apply Hns. done. }
    assert (forall acc s', allTasks s' = allTasks s ->
              runsAfterStep config task acc (otherTaskName, depConfig) s'
              = if bool_decide (tc_runType (getTaskConfig config (taskDir task) otherTaskName)
                                = TopLevel)
                then Throw ("Missing task: " +:+ k +:+ ".") s' else Ret acc s') as Hstep.
    { intros [mc' ex'] s' Hs'. unfold runsAfterStep. rewrite Hguard.
      unfold runsAfterDir in Hk. unfold bind at 1.
      rewrite (getTaskKey_state _ _ _ _ _ s' _ Hk).
      unfold bind at 1, gets. rewrite Hs', Hnone.
      destruct (bool_decide _); done. }
    split.
    + intros Htop. split.
      * rewrite Hstep by done. rewrite bool_decide_eq_true_2 by done. done.
      * intros Hc Hin. eapply computeManifest_runsAfter_throws; [exact Hc|exact Hin|].
        intros acc s' Hs'. rewrite Hstep by done.
        rewrite bool_decide_eq_true_2 by done. done.
    + intros Hnt. rewrite Hstep by done. rewrite bool_decide_eq_false_2 by done. done.
Qed.

End UpstreamClaims.

(** ** Configuration files and exit statuses *)

Section ExitStatus.
Context `{Platform} `{Host}.

(** C8: a directory holding more than one [lazy.config.*] file (over the
    seven extensions) makes [getConfigFromDir] report through [logger.fail]
    and end the process with a status other than 0, no task having been
    started; [run] scans the workspace root first and ends the same way.
    A directory holding none gives the empty configuration with no file
    path, the state untouched. *)
Theorem getConfigFromDir_file_count dir s :
  ((1 < length (configFilesIn dir s))%nat ->
     (exists headline detail,
        getConfigFromDir dir s
        = bind (logger_fail headline (Some detail)) (fun _ => process_exit 1) s)
     /\ (fail_reports ->
         (exists code s', getConfigFromDir dir s = Exit code s'
                          /\ code ≠ 0 /\ spawned s' = spawned s)
         /\ forall env taskName options pm repo,
              getWorkspaceRoot process_cwd s = Ret (Some dir) s ->
              getPackageManager dir s = Ret (Some pm) s ->
              getRepoDetails dir s = Ret repo s ->
              exists code s', run env taskName options s = Exit code s'
                              /\ code ≠ 0 /\ spawned s' = spawned s))
  /\ (configFilesIn dir s = [] ->
      getConfigFromDir dir s = Ret {| filePath := None; config := emptyLazyConfig |} s).
Proof.
  assert (globConfigFiles dir s
          = Ret ((fun n => path_join [dir; n]) <$> configFilesIn dir s) s) as Hglob by done.
  split.
  - intros Hlen.
    assert (getConfigFromDir dir s
            = bind (logger_fail
                      ("Found multiple lazy config files in dir '" +:+ dir +:+ "'.")
                      (Some ("Remove all but one of the following files: "
                             +:+ String.concat ", "
                                   ((fun n => path_join [dir; n]) <$> configFilesIn dir s))))
                   (fun _ => process_exit 1) s) as Heq.
    { unfold getConfigFromDir. unfold bind at 1. rewrite Hglob.
      rewrite decide_True by (by rewrite length_fmap).
      unfold bind. destruct (logger_fail _ _ s); done. }
    split; [eauto|]. intros Hfail.
    assert (exists code s', getConfigFromDir dir s = Exit code s'
                            /\ code ≠ 0 /\ spawned s' = spawned s) as Hexit.
    { rewrite Heq. unfold bind, process_exit.
      destruct (Hfail ("Found multiple lazy config files in dir '" +:+ dir +:+ "'.")
                  (Some ("Remove all but one of the following files: "
                         +:+ String.concat ", "
                               ((fun n => path_join [dir; n]) <$> configFilesIn dir s))) s)
        as [(s' & -> & Hs)|(code & s' & -> & Hc & Hs)].
      - exists 1, s'. done.
      - exists code, s'. done. }
    split; [exact Hexit|].
    intros env taskName options pm repo Hroot Hpm Hrepo.
    destruct Hexit as (code & s' & Hexit & Hcode & Hs).
    exists code, s'. split; [|done].
    unfold run. unfold bind at 1. unfold Config_from.
    unfold bind at 1. rewrite Hroot. unfold bind at 1. rewrite Hpm.
    unfold bind at 1. unfold ret at 1. unfold bind at 1. rewrite Hrepo.
    unfold bind at 1. rewrite Hexit. done.
  - intros Hnone. unfold getConfigFromDir. unfold bind at 1. rewrite Hglob, Hnone. done.
Qed.

End ExitStatus.

Section RunExit.
Context `{Platform} `{Host}.

(** C7: once the configuration is loaded and the task graph is built, [run]
    ends with status 0 when at least one task is scheduled and every
    scheduled task ended in a success state, all of them lazy or not; its
    status is not 0 when no task matches, and when some task ended in
    [failure]. *)
Theorem run_exit_status env taskName options config tasks s s1 s2 :
  logger_follows_spec ->
  Config_from process_cwd s = Ret config s1 ->
  newTaskGraph config (requestedTasksOf taskName options) s1 = Ret tasks s2 ->
  (sortedTaskKeys tasks = [] -> exitCode (run env taskName options s) ≠ 0)
  /\ (forall s3,
        sortedTaskKeys tasks ≠ [] ->
        runAllTasks env tasks s2 = Ret tt s3 ->
        ((exists k, k ∈ sortedTaskKeys tasks
                    /\ status <$> allTasks s3 !! k = Some failure) ->
           exitCode (run env taskName options s) ≠ 0)
        /\ ((forall k, k ∈ sortedTaskKeys tasks ->
               exists t, allTasks s3 !! k = Some t /\ succeeded t) ->
           exitCode (run env taskName options s) = 0)).
Proof.
  intros (Hfail & Hlog & Hclear) HC HG.
  assert (forall k : unit -> M State unit, forall s0,
            exists s0', bind (if logger_isInteractive then logger_clearTasks else ret tt) k s0
                        = k tt s0' /\ allTasks s0' = allTasks s0) as Hclr.
  { intros k s0. unfold bind. destruct logger_isInteractive.
    - destruct (Hclear s0) as (s0' & -> & Ha). eauto.
    - eauto. }
  split.
  - intros Hnil. unfold run. unfold bind at 1. rewrite HC.
    unfold bind at 1. rewrite HG.
    rewrite decide_True by (by rewrite Hnil).
    unfold bind at 1.
    match goal with
    | |- context [logger_fail ?h ?m s2] => destruct (Hfail h m s2) as (c & s' & -> & Hc)
    end.
    done.
  - intros s3 Hne Hrun.
    assert (exists s4, allTasks s4 = allTasks s3 /\
              run env taskName options s
              = bind (allFailedTasks tasks) (fun failedTasks =>
                  (if decide (0 < length failedTasks)%nat then
                     logger_fail ("Failed tasks: " +:+ String.concat ", " failedTasks) None
                   else ret tt) ;;;
                  ts <- gets allTasks ;;
                  if bool_decide (map_Forall (fun _ t => status t = success_lazy) ts)
                  then logger_log ">>> MAXIMUM LAZY"
                  else ret tt) s4) as (s4 & Hs4 & ->).
    { unfold run. unfold bind at 1. rewrite HC. unfold bind at 1. rewrite HG.
      rewrite decide_False by (destruct (sortedTaskKeys tasks); done).
      unfold bind at 1. unfold ret at 1. unfold bind at 1. rewrite Hrun.
      match goal with |- context [bind _ ?k s3] => destruct (Hclr k s3) as (s4 & -> & Ha) end.
      exists s4. done. }
    split.
    + intros (k & Hin & Hst).
      unfold bind at 1. unfold allFailedTasks. unfold gets at 1. cbn beta iota.
      rewrite Hs4.
      set (failed := filter (fun k => status <$> allTasks s3 !! k = Some failure)
                       (sortedTaskKeys tasks)).
      assert (k ∈ failed) as Hk by (apply list_elem_of_filter; done).
      destruct failed as [|k0 ks]; [by apply elem_of_nil in Hk|].
      rewrite decide_True by (simpl; lia).
      unfold bind at 1.
      destruct (Hfail ("Failed tasks: " +:+ String.concat ", " (k0 :: ks)) None s4)
        as (c & s' & -> & Hc).
      done.
    + intros Hall.
      unfold bind at 1. unfold allFailedTasks. unfold gets at 1. cbn beta iota.
      rewrite Hs4.
      set (failed := filter (fun k => status <$> allTasks s3 !! k = Some failure)
                       (sortedTaskKeys tasks)).
      assert (forall k, k ∉ failed) as Hnot.
      { intros k [Hst Hin]%list_elem_of_filter.
        destruct (Hall k Hin) as (t & Ht & Hs). rewrite Ht in Hst. simpl in Hst.
        injection Hst as Hst. destruct Hs as [Hs|Hs]; congruence. }
      destruct failed as [|k0 ks]; [|exfalso; apply (Hnot k0); left].
      rewrite decide_False by (simpl; lia). unfold bind, ret, gets.
      match goal with |- context [if ?b then _ else _] => destruct b end; [|done].
      destruct (Hlog ">>> MAXIMUM LAZY" s4) as (s' & -> ). done.
Qed.

End RunExit.

(** ** Environment variables that are unset or empty *)

Section EnvUnset.
Context `{Platform}.

Lemma envValue_unset env name x :
  env !! name = None -> envValue (<[name := ""]> env) x = envValue env x.
Proof.
  intros Hn. unfold envValue. destruct (decide (name = x)) as [->|Hne].
  - rewrite lookup_insert_eq, Hn. done.
  - rewrite lookup_insert_ne by done. done.
Qed.

(** C9: a variable that is unset and the same variable set to the empty
    string give the same ['env var'] entry, and [computeManifest] as a whole
    cannot tell the two environments apart: same result, same manifest and
    diff written, same cache key, so the same cache decision. *)
Theorem unset_env_var_same_as_empty env name config task mc s :
  env !! name = None ->
  envStep (<[name := ""]> env) mc name s = envStep env mc name s
  /\ envStep env mc name s
     = ManifestConstructor.update mc "env var" name (hashString "") None s
  /\ computeManifest (<[name := ""]> env) config task s = computeManifest env config task s.
Proof.
  intros Hn.
  assert (forall mc' x s', envStep (<[name := ""]> env) mc' x s' = envStep env mc' x s') as He.
  { intros mc' x s'. unfold envStep. rewrite envValue_unset by done. done. }
  split; [apply He|]. split.
  - unfold envStep, envValue. rewrite Hn. done.
  - unfold computeManifest. destruct (tc_cache (taskConfig task)) as [|cache]; [done|].
    apply bind_ext. intros mc0 s0. unfold buildManifest.
    apply bind_ext. intros [mc1 ex] s1.
    apply bind_ext. intros mc2 s2.
    unfold bind at 1 3. rewrite (forM_ext _ _ _ _ _ He). done.
Qed.

End EnvUnset.

(** ** Sorting and de-duplication *)

Lemma le_ne_strlt a b : String.le a b -> a ≠ b -> strlt a b.
Proof.
  unfold String.le, strlt, String.leb, String.ltb. intros Hle Hne.
  destruct (String.compare a b) eqn:E; try done.
  apply String.compare_eq_iff in E. done.
Qed.

Lemma js_sort_perm l : js_sort l ≡ₚ l.
Proof. apply merge_sort_Permutation. Qed.

Lemma js_sort_elem_of l x : x ∈ js_sort l <-> x ∈ l.
Proof. by rewrite js_sort_perm. Qed.

Lemma js_sort_sorted l : Sorted String.le (js_sort l).
Proof. apply (Sorted_merge_sort String.le). Qed.

Lemma Sorted_le_NoDup_strlt l : Sorted String.le l -> NoDup l -> Sorted strlt l.
Proof.
  induction 1 as [|a l Hs IH Hhd]; intros Hnd; [constructor|].
  apply NoDup_cons in Hnd as [Hnotin Hnd]. constructor; [auto|].
  destruct Hhd as [|b l Hab]; constructor.
  apply le_ne_strlt; [done|]. intros ->. apply Hnotin. left.
Qed.

Lemma js_sort_strict l : NoDup l -> Sorted strlt (js_sort l).
Proof.
  intros Hnd. apply Sorted_le_NoDup_strlt; [apply js_sort_sorted|].
  by rewrite js_sort_perm.
Qed.

Lemma uniq_elem_of l x : x ∈ uniq l <-> x ∈ l.
Proof.
  induction l as [|y l IH]; simpl; [done|].
  rewrite !elem_of_cons, list_elem_of_filter, IH.
  destruct (decide (x = y)); tauto.
Qed.

Lemma uniq_NoDup l : NoDup (uniq l).
Proof.
  induction l as [|y l IH]; simpl; [constructor|].
  apply NoDup_cons. split.
  - rewrite list_elem_of_filter. tauto.
  - by apply NoDup_filter.
Qed.

(** ** Entries supplied in canonical order are accepted *)

Lemma push_lines_nil mc : push_lines [] mc = mc.
Proof. destruct mc. unfold push_lines. simpl. by rewrite app_nil_r. Qed.

Lemma push_lines_cons l ls mc : push_lines (l :: ls) mc = push_lines ls (push_line l mc).
Proof. unfold push_lines, push_line. simpl. by rewrite <- app_assoc. Qed.

Section BuilderOrder.
Context `{Platform}.

Lemma update_accepts mc type id hash meta s :
  after (last (nextLines mc))
    {| ml_type := type; ml_id := id; ml_hash := hash; ml_meta := meta |} ->
  ManifestConstructor.update mc type id hash meta s
  = Ret (push_line {| ml_type := type; ml_id := id; ml_hash := hash; ml_meta := meta |} mc) s.
Proof.
  unfold ManifestConstructor.update, after.
  destruct (last (nextLines mc)); [|done]. intros ->. done.
Qed.

Lemma last_push_line l mc : last (nextLines (push_line l mc)) = Some l.
Proof. unfold push_line. simpl. apply last_snoc. Qed.

End BuilderOrder.

Lemma lineBefore_same_type type a b ha hb ma mb :
  strlt a b ->
  lineBefore {| ml_type := type; ml_id := a; ml_hash := ha; ml_meta := ma |}
             {| ml_type := type; ml_id := b; ml_hash := hb; ml_meta := mb |} = true.
Proof.
  intros Hlt. unfold lineBefore. simpl. rewrite Hlt.
  rewrite (bool_decide_eq_true_2 (typeRank type = typeRank type)) by done.
  simpl. apply orb_true_r.
Qed.

Lemma lineBefore_lower_rank p l :
  typeRank (ml_type p) < typeRank (ml_type l) -> lineBefore p l = true.
Proof. intros Hlt. unfold lineBefore. rewrite bool_decide_eq_true_2 by done. done. Qed.

(** The last entry of a list whose entries all rank below [r]. *)
Lemma after_lower_rank (ls : list ManifestLine) (l : ManifestLine) :
  Forall (fun p => typeRank (ml_type p) < typeRank (ml_type l)) ls ->
  after (last ls) l.
Proof.
  intros Hall. unfold after. destruct (last ls) as [p|] eqn:E; [|done].
  apply lineBefore_lower_rank. rewrite Forall_forall in Hall. apply Hall.
  apply last_Some in E as [l' ->]. apply elem_of_app. right. left.
Qed.

(** ** The ['env var'] entries *)

Section EnvEntries.
Context `{Platform}.

Lemma envLoop_accepts env names mc s :
  Sorted strlt names ->
  (forall n, head names = Some n -> after (last (nextLines mc)) (envEntry env n)) ->
  forM (envStep env) names mc s = Ret (push_lines (envEntry env <$> names) mc) s.
Proof.
  intros Hs. revert mc. induction Hs as [|n names Hs IH Hhd]; intros mc Hfirst; simpl.
  - by rewrite push_lines_nil.
  - unfold bind, envStep, envValue.
    rewrite update_accepts by (apply Hfirst; done).
    rewrite push_lines_cons. apply IH.
    intros n' Hn'. rewrite last_push_line. simpl.
    destruct Hhd as [|n'' names' Hlt]; simplify_eq/=.
    by apply lineBefore_same_type.
Qed.

End EnvEntries.

(** ** What each group of entries adds to the builder *)

Lemma push_lines_app l1 l2 mc : push_lines (l1 ++ l2) mc = push_lines l2 (push_lines l1 mc).
Proof. unfold push_lines. simpl. by rewrite app_assoc. Qed.

Lemma extends_refl P mc : extends P mc mc.
Proof. exists []. by rewrite push_lines_nil. Qed.

Lemma extends_trans P mc1 mc2 mc3 :
  extends P mc1 mc2 -> extends P mc2 mc3 -> extends P mc1 mc3.
Proof.
  intros (l1 & -> & H1) (l2 & -> & H2). exists (l1 ++ l2).
  rewrite push_lines_app. split; [done|]. by apply Forall_app.
Qed.

Lemma extends_one (P : ManifestLine -> Prop) l mc : P l -> extends P mc (push_line l mc).
Proof. intros Hl. exists [l]. split; [done|]. by constructor. Qed.

Lemma forM_extends {A B} (proj : A -> ManifestConstructor) P
    (body : A -> B -> M State A) l a s a' s' :
  (forall a x s a' s', body a x s = Ret a' s' -> extends P (proj a) (proj a')) ->
  forM body l a s = Ret a' s' -> extends P (proj a) (proj a').
Proof.
  intros Hbody. revert a s. induction l as [|x l IH]; intros a s; simpl.
  - unfold ret. intros [= -> _]. apply extends_refl.
  - unfold bind. destruct (body a x s) as [a1 s1| |] eqn:E; try done.
    intros Hr. eapply extends_trans; [eapply Hbody; exact E|]. eapply IH; exact Hr.
Qed.

Section Groups.
Context `{Platform}.

Lemma update_Ret mc type id hash meta s mc' s' :
  ManifestConstructor.update mc type id hash meta s = Ret mc' s' ->
  mc' = push_line {| ml_type := type; ml_id := id; ml_hash := hash; ml_meta := meta |} mc
  /\ s' = s.
Proof.
  unfold ManifestConstructor.update.
  destruct (last (nextLines mc)); [destruct (lineBefore _ _)|]; unfold ret, throw;
    intros; simplify_eq; done.
Qed.

Lemma runsAfterStep_extends config task acc entry s acc' s' :
  runsAfterStep config task acc entry s = Ret acc' s' ->
  extends upstreamType acc.1 acc'.1.
Proof.
  destruct acc as [mc ex], entry as [name dc]. unfold runsAfterStep.
  destruct (negb _ && _).
  { unfold ret. intros [= <- _]. apply extends_refl. }
  unfold bind at 1. destruct (getTaskKey _ _ _ s) as [k s1| |]; try done.
  unfold bind at 1, gets. destruct (allTasks s1 !! k) as [dep|].
  - unfold bind. destruct (inheritsInput dc).
    + destruct (cacheKeyOf dep) as [h|]; [|done].
      destruct (ManifestConstructor.update _ _ _ _ _ s1) as [mc1 s2| |] eqn:E; try done.
      apply update_Ret in E as [-> ->]. unfold ret. intros [= <- _]. simpl.
      apply extends_one. by left.
    + unfold ret. intros [= <- _]. apply extends_refl.
  - destruct (bool_decide _); [done|]. unfold ret. intros [= <- _]. apply extends_refl.
Qed.

Lemma packageDepStep_extends mc k s mc' s' :
  packageDepStep mc k s = Ret mc' s' -> extends upstreamType mc mc'.
Proof.
  unfold packageDepStep, bind, gets. destruct (allTasks s !! k) as [dep|].
  - destruct (cacheKeyOf dep) as [h|]; [|done].
    intros E. apply update_Ret in E as [-> ->]. apply extends_one. by right.
  - unfold ret. intros [= <- _]. apply extends_refl.
Qed.

Lemma packageDepsPhase_extends config task cache mc s mc' s' :
  packageDepsPhase config task cache mc s = Ret mc' s' -> extends upstreamType mc mc'.
Proof.
  unfold packageDepsPhase. destruct (_ && _).
  - unfold bind. destruct (upstreamTaskKeys config task s) as [[keys|] s1| |]; try done.
    + apply (forM_extends id). intros. eapply packageDepStep_extends. eassumption.
    + unfold ret. intros [= <- _]. apply extends_refl.
  - unfold ret. intros [= <- _]. apply extends_refl.
Qed.

End Groups.

(** ** The ['file'] entries *)

Lemma lineBefore_same_type' p l :
  ml_type p = ml_type l -> strlt (ml_id p) (ml_id l) -> lineBefore p l = true.
Proof.
  intros Ht Hlt. unfold lineBefore. rewrite Ht, Hlt.
  rewrite (bool_decide_eq_true_2 (typeRank (ml_type l) = typeRank (ml_type l))) by done.
  apply orb_true_r.
Qed.

Lemma after_ext o l l' :
  ml_type l = ml_type l' -> ml_id l = ml_id l' -> after o l -> after o l'.
Proof.
  unfold after, lineBefore. destruct o as [p|]; [|done]. intros -> ->. done.
Qed.

Section FileEntries.
Context `{Platform}.

Lemma fileEntry_type mc file fi : ml_type (fileEntry mc file fi) = "file".
Proof. unfold fileEntry. destruct (fastPath _ _ _); done. Qed.

Lemma fileEntry_id mc file fi : ml_id (fileEntry mc file fi) = file.
Proof. unfold fileEntry. destruct (fastPath _ _ _); done. Qed.

Lemma fileEntry_meta mc file fi :
  ml_meta (fileEntry mc file fi) = Some (f_mtimeMs fi).
Proof. unfold fileEntry. destruct (fastPath _ _ _); done. Qed.

Lemma fileStep_spec config mc file fi s :
  files s !! fullPathOf config file = Some fi ->
  fileStep config mc file s
  = match fastPath mc file fi with
    | Some p => Ret (push_line (fileEntry mc file fi) mc) s
    | None =>
        ManifestConstructor.update mc "file" file (hashContent (f_content fi))
          (Some (f_mtimeMs fi))
          (set_hashed (fun l => l ++ [fullPathOf config file]) s)
    end.
Proof.
  intros Hfi. unfold fileStep, statSync. unfold bind at 1.
  fold (fullPathOf config file). rewrite Hfi.
  unfold ManifestConstructor.copyLineOverIfMetaIsSame, fileEntry, fastPath.
  destruct (nextUnread mc) as [p|]; [|done].
  destruct (sameEntry "file" file p && bool_decide (ml_meta p = Some (f_mtimeMs fi))); done.
Qed.

Lemma fileLoop_spec config fl mc s :
  Sorted strlt fl ->
  (forall f, f ∈ fl -> is_Some (files s !! fullPathOf config f)) ->
  (forall f, head fl = Some f ->
     after (last (nextLines mc))
       {| ml_type := "file"; ml_id := f; ml_hash := ""; ml_meta := None |}) ->
  exists s',
    forM (fileStep config) fl mc s
    = Ret (push_lines (fileEntries config (files s) mc fl) mc) s'
    /\ hashed s' = hashed s ++ (fullPathOf config <$> filesHashed config (files s) mc fl)
    /\ same_but_hashed s s'.
Proof.
  intros Hs. revert mc s. induction Hs as [|f fl Hs IH Hhd]; intros mc s Hex Hfirst.
  - exists s. simpl. rewrite push_lines_nil, app_nil_r. repeat split.
  - destruct (Hex f) as [fi Hfi]; [left|].
    assert (exists s1,
      fileStep config mc f s = Ret (push_line (fileEntry mc f fi) mc) s1
      /\ hashed s1 = hashed s
           ++ (fullPathOf config <$> (if needsHash config mc (files s) f then [f] else []))
      /\ same_but_hashed s s1) as (s1 & E1 & Hh1 & S1).
    { rewrite (fileStep_spec _ _ _ fi) by done.
      unfold needsHash. rewrite Hfi. unfold fileEntry.
      destruct (fastPath mc f fi) as [p|] eqn:Ef.
      - exists s. simpl. rewrite app_nil_r. repeat split.
      - eexists. rewrite update_accepts.
        + split; [reflexivity|]. repeat split.
        + eapply after_ext; [| |apply Hfirst]; done. }
    destruct (IH (push_line (fileEntry mc f fi) mc) s1) as (s2 & E2 & Hh2 & S2).
    { intros f' Hf'. destruct S1 as (-> & _). apply Hex. by right. }
    { intros f' Hf'. rewrite last_push_line. simpl.
      apply lineBefore_same_type'.
      - by rewrite fileEntry_type.
      - rewrite fileEntry_id. simpl. destruct Hhd; simplify_eq/=. done. }
    destruct S1 as (F1 & S1). rewrite F1 in E2, Hh2.
    exists s2. cbn [forM fileEntries filesHashed]. rewrite Hfi.
    unfold bind. rewrite E1, E2, push_lines_cons. split; [done|]. split.
    + rewrite Hh2, Hh1, fmap_app, app_assoc. done.
    + unfold same_but_hashed in *. destruct_and!. repeat split; congruence.
Qed.

(** The entries written for files that exist: one per file, of type
    ['file'], with the path as id and the modification time as metadata. *)
Lemma fileEntries_shape config (fs : gmap string FileInfo) mc fl :
  (forall f, f ∈ fl -> is_Some (fs !! fullPathOf config f)) ->
  Forall2 (fun f l => exists fi, fs !! fullPathOf config f = Some fi
                                 /\ ml_type l = "file" /\ ml_id l = f
                                 /\ ml_meta l = Some (f_mtimeMs fi))
    fl (fileEntries config fs mc fl).
Proof.
  revert mc. induction fl as [|f fl IH]; intros mc Hex; simpl; [constructor|].
  destruct (Hex f) as [fi Hfi]; [left|]. rewrite Hfi. constructor.
  - exists fi. by rewrite fileEntry_type, fileEntry_id, fileEntry_meta.
  - apply IH. intros f' Hf'. apply Hex. by right.
Qed.

(** Each of them is the entry of its file for the builder as the entries
    before it left it. *)
Lemma fileEntries_lookup config (fs : gmap string FileInfo) mc fl i f fi :
  (forall f, f ∈ fl -> is_Some (fs !! fullPathOf config f)) ->
  fl !! i = Some f -> fs !! fullPathOf config f = Some fi ->
  fileEntries config fs mc fl !! i
  = Some (fileEntry (push_lines (take i (fileEntries config fs mc fl)) mc) f fi).
Proof.
  revert mc i. induction fl as [|f0 fl IH]; intros mc i Hex Hi Hfi; [done|].
  destruct (Hex f0) as [fi0 Hfi0]; [left|]. simpl. rewrite Hfi0.
  destruct i as [|i]; simpl in *.
  - simplify_eq. by rewrite push_lines_nil.
  - rewrite push_lines_cons. apply IH; [|done..].
    intros f' Hf'. apply Hex. by right.
Qed.

Lemma filesHashed_lookup config (fs : gmap string FileInfo) mc fl f :
  (forall f, f ∈ fl -> is_Some (fs !! fullPathOf config f)) ->
  NoDup fl ->
  f ∈ filesHashed config fs mc fl
  <-> exists i, fl !! i = Some f
                /\ needsHash config
                     (push_lines (take i (fileEntries config fs mc fl)) mc) fs f = true.
Proof.
  revert mc. induction fl as [|f0 fl IH]; intros mc Hex Hnd.
  - simpl. split; [by intros ?%elem_of_nil|by intros (? & ? & _)].
  - destruct (Hex f0) as [fi0 Hfi0]; [left|]. simpl. rewrite Hfi0.
    apply NoDup_cons in Hnd as [Hnot Hnd].
    rewrite elem_of_app, IH; [|intros f' Hf'; apply Hex; by right|done]. split.
    + intros [Hin|(i & Hi & Hn)].
      * destruct (needsHash config mc fs f0) eqn:Hn; [|by apply elem_of_nil in Hin].
        apply list_elem_of_singleton in Hin as ->. exists 0%nat. simpl.
        by rewrite push_lines_nil.
      * exists (S i). simpl. by rewrite push_lines_cons.
    + intros ([|i] & Hi & Hn); simpl in *.
      * simplify_eq. rewrite push_lines_nil in Hn. rewrite Hn. left. by left.
      * right. exists i. by rewrite push_lines_cons in Hn.
Qed.

End FileEntries.

Section EntryLoops.
Context `{Platform}.

Lemma fileLoop_sorted_spec config inputFiles mc s :
  NoDup inputFiles ->
  (forall f, f ∈ inputFiles -> is_Some (files s !! fullPathOf config f)) ->
  Forall (fun p => typeRank (ml_type p) < typeRank "file") (nextLines mc) ->
  exists s',
    forM (fileStep config) (js_sort inputFiles) mc s
    = Ret (push_lines (fileEntries config (files s) mc (js_sort inputFiles)) mc) s'
    /\ hashed s' = hashed s
         ++ (fullPathOf config <$> filesHashed config (files s) mc (js_sort inputFiles))
    /\ same_but_hashed s s'.
Proof.
  intros Hnd Hex Hlow. apply fileLoop_spec.
  - by apply js_sort_strict.
  - intros f Hf. apply Hex. by apply js_sort_elem_of.
  - intros f _. by apply after_lower_rank.
Qed.

Lemma env_entries_aux env config task cache mc s :
  Forall (fun p => typeRank (ml_type p) < typeRank "env var") (nextLines mc) ->
  forM (envStep env) (allEnvVars config task cache) mc s
  = Ret (push_lines (envEntry env <$> allEnvVars config task cache) mc) s.
Proof.
  intros Hlow. apply envLoop_accepts.
  - unfold allEnvVars. apply js_sort_strict, uniq_NoDup.
  - intros n _. by apply after_lower_rank.
Qed.

End EntryLoops.

(** ** A manifest build that succeeds, step by step *)

Lemma bind_Ret {St A B} (c : M St A) (k : A -> M St B) (s : St) b s' :
  bind c k s = Ret b s' -> exists a s1, c s = Ret a s1 /\ k a s1 = Ret b s'.
Proof. unfold bind. destruct (c s) as [a s1| |]; try done. eauto. Qed.

Lemma readonly_Ret {A} (c : M State A) (s : State) a s' :
  readonly c -> c s = Ret a s' -> s' = s.
Proof. intros Hro E. specialize (Hro s). rewrite E in Hro. done. Qed.

Section Decompose.
Context `{Platform}.

Lemma end_spec mc s :
  exists s', ManifestConstructor.end_ mc s
             = Ret (didChangeOf mc, ManifestConstructor.aggregateHash (nextLines mc)) s'
    /\ manifests s' = manifestAfter mc (manifests s)
    /\ files s' = files s /\ dirs s' = dirs s /\ hashed s' = hashed s
    /\ spawned s' = spawned s /\ allTasks s' = allTasks s.
Proof. eexists. split; [reflexivity|]. repeat split. Qed.

Lemma getInputFiles_spec config task cache extraFiles s :
  tc_cache (taskConfig task) = CacheObject cache ->
  getInputFiles config task extraFiles s
  = Ret (Some (inputFileList config task cache extraFiles (files s))) s.
Proof. intros Hc. unfold getInputFiles. rewrite Hc. done. Qed.

Lemma inputFileList_NoDup config task cache extraFiles fs :
  NoDup (inputFileList config task cache extraFiles fs).
Proof. unfold inputFileList. rewrite js_sort_perm. apply uniq_NoDup. Qed.

Lemma fileStep_Ret_exists config mc f s mc' s' :
  fileStep config mc f s = Ret mc' s' ->
  is_Some (files s !! fullPathOf config f) /\ files s' = files s.
Proof.
  unfold fileStep, statSync. unfold bind at 1. fold (fullPathOf config f).
  destruct (files s !! fullPathOf config f) as [fi|]; [|done].
  intros E. split; [eauto|].
  destruct (ManifestConstructor.copyLineOverIfMetaIsSame _ _ _ _) as [[|] mc1].
  - unfold ret in E. by simplify_eq.
  - unfold hashFile in E. apply bind_Ret in E as (h & s1 & E1 & E2).
    apply update_Ret in E2 as [_ ->].
    unfold bind, modify, ret in E1. by simplify_eq.
Qed.

Lemma fileLoop_Ret_exists config fl mc s mc' s' :
  forM (fileStep config) fl mc s = Ret mc' s' ->
  forall f, f ∈ fl -> is_Some (files s !! fullPathOf config f).
Proof.
  revert mc s. induction fl as [|f0 fl IH]; intros mc s E f Hf.
  - by apply elem_of_nil in Hf.
  - simpl in E. apply bind_Ret in E as (mc1 & s1 & E1 & E2).
    apply fileStep_Ret_exists in E1 as [Hex Hfs].
    apply elem_of_cons in Hf as [->|Hf]; [done|].
    rewrite <- Hfs. eapply IH; eauto.
Qed.

End Decompose.

Lemma forM_sim {A B} (f : A -> A) (body : A -> B -> M State A) l a s s' :
  (forall a x, readonly (body a x)) ->
  (forall a x, body (f a) x s' = out_map f s' (body a x s)) ->
  forM body l (f a) s' = out_map f s' (forM body l a s).
Proof.
  intros Hro Hsim. revert a. induction l as [|x l IH]; intros a; simpl; [done|].
  unfold bind. rewrite Hsim. pose proof (Hro a x s) as Hs.
  destruct (body a x s) as [a1 s1| |]; simpl; try done. subst s1. apply IH.
Qed.

Lemma nodes_agree_refl ts : nodes_agree ts ts.
Proof. by intros k. Qed.

Lemma nodes_agree_eq ts ts' : ts' = ts -> nodes_agree ts ts'.
Proof. intros ->. apply nodes_agree_refl. Qed.

Lemma nodes_agree_lookup ts ts' k t :
  nodes_agree ts ts' -> ts !! k = Some t ->
  exists t', ts' !! k = Some t'
             /\ inputManifestCacheKey t' = inputManifestCacheKey t
             /\ outputFiles t' = outputFiles t.
Proof.
  intros Ha Ht. specialize (Ha k). rewrite Ht in Ha.
  destruct (ts' !! k) as [t'|]; simplify_eq/=. eauto.
Qed.

Lemma nodes_agree_None ts ts' k :
  nodes_agree ts ts' -> ts !! k = None -> ts' !! k = None.
Proof.
  intros Ha Ht. specialize (Ha k). rewrite Ht in Ha.
  destruct (ts' !! k); simplify_eq/=. done.
Qed.

Section Replay.
Context `{Platform}.

Lemma reprev_same mc : reprev (previousLines mc) mc = mc.
Proof. by destruct mc. Qed.

Lemma update_reprev P mc type id hash meta s s' :
  ManifestConstructor.update (reprev P mc) type id hash meta s'
  = out_map (reprev P) s' (ManifestConstructor.update mc type id hash meta s).
Proof.
  unfold ManifestConstructor.update. simpl.
  destruct (last (nextLines mc)); [destruct (lineBefore _ _)|]; done.
Qed.

Lemma getTaskKey_sim config dir name (s s' : State) :
  getTaskKey config dir name s' = out_map id s' (getTaskKey config dir name s).
Proof. unfold getTaskKey. destruct (path_isAbsolute dir); done. Qed.

Lemma runsAfterStep_sim P config task acc entry s s' :
  nodes_agree (allTasks s) (allTasks s') ->
  runsAfterStep config task (reprev P acc.1, acc.2) entry s'
  = out_map (fun a => (reprev P a.1, a.2)) s' (runsAfterStep config task acc entry s).
Proof.
  intros Ht. destruct acc as [mc ex], entry as [name dc]. unfold runsAfterStep. simpl.
  destruct (negb _ && _); [done|].
  set (isTop := bool_decide _).
  set (dir := if isTop then _ else _).
  unfold bind, gets. rewrite (getTaskKey_sim _ _ _ s s').
  destruct (getTaskKey config dir name s) as [k s1| |] eqn:Ek; simpl; try done.
  assert (s1 = s) as -> by (eapply readonly_Ret; [apply getTaskKey_readonly|exact Ek]).
  destruct (allTasks s !! k) as [dep|] eqn:Edep.
  - destruct (nodes_agree_lookup _ _ _ _ Ht Edep) as (dep' & -> & Hk & Ho).
    unfold cacheKeyOf. rewrite Hk, Ho.
    destruct (inheritsInput dc); [|done].
    destruct (inputManifestCacheKey dep) as [h|]; [|done].
    destruct (decide (h = "")); [done|].
    rewrite (update_reprev P mc _ _ _ _ s s').
    destruct (ManifestConstructor.update mc _ _ _ _ s); simpl; done.
  - rewrite (nodes_agree_None _ _ _ Ht Edep). destruct isTop; done.
Qed.

Lemma packageDepStep_sim P mc k s s' :
  nodes_agree (allTasks s) (allTasks s') ->
  packageDepStep (reprev P mc) k s' = out_map (reprev P) s' (packageDepStep mc k s).
Proof.
  intros Ht. unfold packageDepStep, bind, gets.
  destruct (allTasks s !! k) as [dep|] eqn:Edep.
  - destruct (nodes_agree_lookup _ _ _ _ Ht Edep) as (dep' & -> & Hk & Ho).
    unfold cacheKeyOf. rewrite Hk.
    destruct (inputManifestCacheKey dep) as [h|]; [|done].
    destruct (decide (h = "")); [done|]. apply update_reprev.
  - by rewrite (nodes_agree_None _ _ _ Ht Edep).
Qed.

Lemma upstreamTaskKeys_sim config task s s' :
  upstreamTaskKeys config task s' = out_map id s' (upstreamTaskKeys config task s).
Proof.
  unfold upstreamTaskKeys. destruct (_ ≫= _) as [deps|]; [|done].
  set (body := fun (acc : list string) packageName => _).
  assert (forall a x, readonly (body a x)) as Hro.
  { intros a x. unfold body. destruct (obj_lookup x _); [|auto with readonly].
    apply readonly_bind; [apply getTaskKey_readonly|auto with readonly]. }
  assert (forM body deps [] s' = out_map id s' (forM body deps [] s)) as Hsim.
  { apply (forM_sim id); [done|].
    intros a x. unfold body. destruct (obj_lookup x _) as [dx|]; [|done].
    unfold bind. rewrite (getTaskKey_sim _ _ _ s s').
    destruct (getTaskKey config (pd_dir dx) _ s); done. }
  unfold bind. rewrite Hsim.
  destruct (forM body deps [] s); simpl; done.
Qed.

Lemma packageDepsPhase_sim P config task cache mc s s' :
  nodes_agree (allTasks s) (allTasks s') ->
  packageDepsPhase config task cache (reprev P mc) s'
  = out_map (reprev P) s' (packageDepsPhase config task cache mc s).
Proof.
  intros Ht. unfold packageDepsPhase. destruct (_ && _); [|done].
  unfold bind. rewrite (upstreamTaskKeys_sim _ _ s s').
  pose proof (upstreamTaskKeys_readonly config task s) as Hs.
  destruct (upstreamTaskKeys config task s) as [[keys|] s1| |]; simpl; try done.
  subst s1. apply (forM_sim (reprev P)); [apply packageDepStep_readonly|].
  intros a x. by apply packageDepStep_sim.
Qed.

(** The two upstream phases, replayed in a state whose task nodes agree
    with those of the first, over another previous manifest. *)
Lemma upstream_replay P config task cache mc mcR ex mcU s s' :
  nodes_agree (allTasks s) (allTasks s') ->
  forM (runsAfterStep config task) (tc_runsAfter (taskConfig task)) (mc, []) s
  = Ret (mcR, ex) s ->
  packageDepsPhase config task cache mcR s = Ret mcU s ->
  forM (runsAfterStep config task) (tc_runsAfter (taskConfig task)) (reprev P mc, []) s'
  = Ret (reprev P mcR, ex) s'
  /\ packageDepsPhase config task cache (reprev P mcR) s' = Ret (reprev P mcU) s'.
Proof.
  intros Ht ER EU. split.
  - change (reprev P mc, @nil (list string))
      with ((fun a : ManifestConstructor * list (list string) => (reprev P a.1, a.2))
              (mc, [])).
    rewrite (forM_sim _ _ _ _ s s').
    + by rewrite ER.
    + intros. apply runsAfterStep_readonly.
    + intros a x. by apply runsAfterStep_sim.
  - rewrite (packageDepsPhase_sim _ _ _ _ _ s s') by done. by rewrite EU.
Qed.

End Replay.

Section BuildSteps.
Context `{Platform}.

Lemma upstreamType_rank (U : list ManifestLine) (t : string) :
  1 < typeRank t -> Forall upstreamType U ->
  Forall (fun p => typeRank (ml_type p) < typeRank t) U.
Proof.
  intros Ht HU. eapply Forall_impl; [exact HU|].
  intros p [Hp|Hp]; rewrite Hp;
    [change (typeRank "upstream task inputs") with 0
    |change (typeRank "upstream package inputs") with 1]; lia.
Qed.

Lemma extends_initial P task s mc :
  extends P (initialBuilder task s) mc ->
  Forall P (nextLines mc) /\ previousLines mc = manifests s !! getManifestPath (taskConfig task)
  /\ previousManifestPath mc = getManifestPath (taskConfig task)
  /\ nextManifestPath mc = getNextManifestPath (taskConfig task).
Proof. intros (ls & -> & Hls). done. Qed.

(** The upstream phases add upstream entries. *)
Lemma upstream_extends config task cache mc mcR ex mcU s :
  forM (runsAfterStep config task) (tc_runsAfter (taskConfig task)) (mc, []) s
  = Ret (mcR, ex) s ->
  packageDepsPhase config task cache mcR s = Ret mcU s ->
  extends upstreamType mc mcU.
Proof.
  intros ER EU. eapply extends_trans.
  - eapply (forM_extends fst) in ER; [exact ER|].
    intros. eapply runsAfterStep_extends. eassumption.
  - eapply packageDepsPhase_extends. exact EU.
Qed.

(** The rest of a build once the upstream phases have returned: when every
    input file exists it returns, with the entries of the environment
    variables and of the files added in this order. *)
Lemma buildManifest_returns env config task cache mc mcR ex mcU s :
  tc_cache (taskConfig task) = CacheObject cache ->
  forM (runsAfterStep config task) (tc_runsAfter (taskConfig task)) (mc, []) s
  = Ret (mcR, ex) s ->
  packageDepsPhase config task cache mcR s = Ret mcU s ->
  Forall upstreamType (nextLines mcU) ->
  let mcE := push_lines (envEntry env <$> allEnvVars config task cache) mcU in
  let inputFiles := inputFileList config task cache (concat ex) (files s) in
  (forall f, f ∈ inputFiles -> is_Some (files s !! fullPathOf config f)) ->
  let mcF := push_lines (fileEntries config (files s) mcE (js_sort inputFiles)) mcE in
  exists s1,
    buildManifest env config task cache mc s = Ret (Some (didChangeOf mcF)) s1
    /\ manifests s1 = manifestAfter mcF (manifests s)
    /\ hashed s1 = hashed s
         ++ (fullPathOf config <$> filesHashed config (files s) mcE (js_sort inputFiles))
    /\ files s1 = files s /\ dirs s1 = dirs s /\ spawned s1 = spawned s
    /\ stderr s1 = stderr s /\ stdout s1 = stdout s
    /\ allTasks s1
       = <[key task :=
             set_inputManifestCacheKey
               (ManifestConstructor.aggregateHash (nextLines mcF))
               (default task (allTasks s !! key task))]> (allTasks s).
Proof.
  intros Hc ER EU HU mcE inputFiles Hex mcF.
  pose proof (env_entries_aux env config task cache mcU s
                (upstreamType_rank _ "env var" ltac:(by vm_compute) HU)) as Eenv.
  destruct (fileLoop_sorted_spec config inputFiles mcE s) as (sF & EF & Hh & SF).
  { apply inputFileList_NoDup. }
  { exact Hex. }
  { unfold mcE. simpl. apply Forall_app. split.
    - apply upstreamType_rank; [by vm_compute|done].
    - apply Forall_fmap, Forall_true. intros n. by vm_compute. }
  destruct (end_spec mcF sF) as (sE & EEnd & HmE & HfE & HdE & HhE & HsE & HtE).
  destruct SF as (F1 & F2 & F3 & F4 & F5 & F6 & F7 & F8).
  eexists. split.
  - unfold buildManifest. unfold bind at 1. rewrite ER.
    unfold bind at 1. rewrite EU. unfold bind at 1. rewrite Eenv.
    unfold bind at 1. rewrite (getInputFiles_spec _ _ cache) by done.
    unfold bind at 1. fold inputFiles mcE. rewrite EF.
    unfold bind at 1. fold mcF. rewrite EEnd.
    unfold storeCacheKey, bind, modify, ret. reflexivity.
  - simpl. rewrite HmE, F3, HfE, F1, HdE, F2, HhE, Hh, HsE, F5, HtE, F8.
    repeat split; try done.
    + unfold ManifestConstructor.end_, bind, modify, ret in EEnd. by simplify_eq/=.
    + unfold ManifestConstructor.end_, bind, modify, ret in EEnd. by simplify_eq/=.
Qed.

(** The same for [computeManifest], from the state it is called in. *)
Lemma computeManifest_returns env config task cache mcR ex mcU s :
  tc_cache (taskConfig task) = CacheObject cache ->
  forM (runsAfterStep config task) (tc_runsAfter (taskConfig task))
    (initialBuilder task s, []) s = Ret (mcR, ex) s ->
  packageDepsPhase config task cache mcR s = Ret mcU s ->
  let mcE := push_lines (envEntry env <$> allEnvVars config task cache) mcU in
  let inputFiles := inputFileList config task cache (concat ex) (files s) in
  (forall f, f ∈ inputFiles -> is_Some (files s !! fullPathOf config f)) ->
  let mcF := push_lines (fileEntries config (files s) mcE (js_sort inputFiles)) mcE in
  exists s1,
    computeManifest env config task s = Ret (Some (didChangeOf mcF)) s1
    /\ manifests s1 = manifestAfter mcF (manifests s)
    /\ hashed s1 = hashed s
         ++ (fullPathOf config <$> filesHashed config (files s) mcE (js_sort inputFiles))
    /\ files s1 = files s /\ spawned s1 = spawned s
    /\ allTasks s1
       = <[key task :=
             set_inputManifestCacheKey
               (ManifestConstructor.aggregateHash (nextLines mcF))
               (default task (allTasks s !! key task))]> (allTasks s).
Proof.
  intros Hc ER EU mcE inputFiles Hex mcF.
  destruct (prepareManifest_spec task s) as (sp & Ep & Sp).
  destruct Sp as (Hfiles & Hman & Hdiffs & Hhashed & Hspawned & Herr & Hout & Htasks).
  destruct (upstream_replay (previousLines (initialBuilder task s)) config task cache
              (initialBuilder task s) mcR ex mcU s sp) as [ER' EU'];
    [by apply nodes_agree_eq|done|done|].
  pose proof (upstream_extends _ _ _ _ _ _ _ _ ER EU) as Hext.
  destruct (extends_initial _ _ _ _ Hext) as (HU & HprevU & _).
  assert (reprev (previousLines (initialBuilder task s)) mcU = mcU) as HrU.
  { rewrite <- (reprev_same mcU) at 2. by rewrite HprevU. }
  rewrite reprev_same, HrU in *.
  destruct (buildManifest_returns env config task cache (initialBuilder task s)
              (reprev (previousLines (initialBuilder task s)) mcR) ex mcU sp)
    as (s1 & E1 & Hm1 & Hh1 & Hf1 & _ & Hs1 & _ & _ & Ht1); try done.
  { by rewrite Hfiles. }
  exists s1. rewrite Hfiles, Htasks, Hman, Hhashed in *.
  split; [|repeat split; try congruence; done].
  unfold computeManifest. rewrite Hc. unfold bind at 1. by rewrite Ep.
Qed.

(** The steps of a build that returns [didChange]. *)
Lemma computeManifest_Ret env config task cache s d s1 :
  tc_cache (taskConfig task) = CacheObject cache ->
  computeManifest env config task s = Ret (Some d) s1 ->
  exists mcR ex mcU,
    forM (runsAfterStep config task) (tc_runsAfter (taskConfig task))
      (initialBuilder task s, []) s = Ret (mcR, ex) s
    /\ packageDepsPhase config task cache mcR s = Ret mcU s
    /\ extends upstreamType (initialBuilder task s) mcU
    /\ let mcE := push_lines (envEntry env <$> allEnvVars config task cache) mcU in
       let inputFiles := inputFileList config task cache (concat ex) (files s) in
       let mcF := push_lines (fileEntries config (files s) mcE (js_sort inputFiles)) mcE in
       (forall f, f ∈ inputFiles -> is_Some (files s !! fullPathOf config f))
       /\ d = didChangeOf mcF
       /\ manifests s1 = manifestAfter mcF (manifests s)
       /\ hashed s1 = hashed s
            ++ (fullPathOf config
                  <$> filesHashed config (files s) mcE (js_sort inputFiles))
       /\ files s1 = files s /\ spawned s1 = spawned s
       /\ allTasks s1
          = <[key task :=
                set_inputManifestCacheKey
                  (ManifestConstructor.aggregateHash (nextLines mcF))
                  (default task (allTasks s !! key task))]> (allTasks s).
Proof.
  intros Hc E0. pose proof E0 as E. unfold computeManifest in E. rewrite Hc in E.
  destruct (prepareManifest_spec task s) as (sp & Ep & Sp).
  apply bind_Ret in E as (mc0 & sp' & Ep' & E). rewrite Ep in Ep'.
  assert (mc0 = initialBuilder task s /\ sp' = sp) as [-> ->] by (by simplify_eq).
  clear Ep'.
  destruct Sp as (Hfiles & Hman & Hdiffs & Hhashed & Hspawned & Herr & Hout & Htasks).
  unfold buildManifest in E.
  apply bind_Ret in E as ([mcR ex] & s2 & ER & E).
  assert (s2 = sp) as ->.
  { eapply readonly_Ret; [|exact ER]. apply readonly_forM.
    intros. apply runsAfterStep_readonly. }
  apply bind_Ret in E as (mcU & s3 & EU & E).
  assert (s3 = sp) as -> by (eapply readonly_Ret; [apply packageDepsPhase_readonly|exact EU]).
  pose proof (upstream_extends _ _ _ _ _ _ _ _ ER EU) as Hext.
  destruct (extends_initial _ _ _ _ Hext) as (HU & HprevU & _).
  pose proof (env_entries_aux env config task cache mcU sp
                (upstreamType_rank _ "env var" ltac:(by vm_compute) HU)) as Eenv.
  apply bind_Ret in E as (mcE & s4 & EE & E). rewrite Eenv in EE.
  assert (mcE = push_lines (envEntry env <$> allEnvVars config task cache) mcU /\ s4 = sp)
    as [-> ->] by (by simplify_eq).
  clear EE.
  apply bind_Ret in E as (fs & s5 & EG & E).
  rewrite (getInputFiles_spec _ _ cache) in EG by done.
  assert (fs = Some (inputFileList config task cache (concat ex) (files sp)) /\ s5 = sp)
    as [-> ->] by (by simplify_eq).
  clear EG.
  apply bind_Ret in E as (mcF & sF & EF & _).
  rewrite Hfiles in EF.
  assert (forall f, f ∈ inputFileList config task cache (concat ex) (files s) ->
            is_Some (files s !! fullPathOf config f)) as Hexist.
  { intros f Hf. rewrite <- Hfiles. eapply fileLoop_Ret_exists; [exact EF|].
    by apply js_sort_elem_of. }
  (* back in the calling state *)
  destruct (upstream_replay (previousLines (initialBuilder task s)) config task cache
              (initialBuilder task s) mcR ex mcU sp s) as [ER' EU'];
    [by apply nodes_agree_eq|done|done|].
  assert (reprev (previousLines (initialBuilder task s)) mcU = mcU) as HrU.
  { rewrite <- (reprev_same mcU) at 2. by rewrite HprevU. }
  rewrite reprev_same, HrU in *.
  destruct (computeManifest_returns env config task cache _ ex mcU s Hc ER' EU' Hexist)
    as (s1' & E1 & Hm1 & Hh1 & Hf1 & Hs1 & Ht1).
  rewrite E1 in E0. simplify_eq.
  eexists _, ex, mcU. split; [exact ER'|]. split; [exact EU'|]. split; [done|].
  simpl. repeat split; done.
Qed.

End BuildSteps.

(** ** The manifest a successful build writes *)

Lemma filter_all {A} (P : A -> Prop) `{forall x, Decision (P x)} (l : list A) :
  Forall P l -> filter P l = l.
Proof.
  induction 1 as [|x l Hx Hl IH]; [done|]. rewrite filter_cons_True by done. by rewrite IH.
Qed.

Lemma filter_none {A} (P : A -> Prop) `{forall x, Decision (P x)} (l : list A) :
  Forall (fun x => ~ P x) l -> filter P l = [].
Proof.
  induction 1 as [|x l Hx Hl IH]; [done|]. by rewrite filter_cons_False.
Qed.

Lemma manifestAfter_lookup mc m :
  manifestAfter mc m !! previousManifestPath mc = Some (nextLines mc).
Proof. unfold manifestAfter. apply lookup_insert_eq. Qed.

Section Written.
Context `{Platform}.

Lemma fileEntries_type config (fs : gmap string FileInfo) mc fl :
  Forall fileType (fileEntries config fs mc fl).
Proof.
  revert mc. induction fl as [|f fl IH]; intros mc; simpl; [constructor|].
  destruct (fs !! fullPathOf config f); constructor; [apply fileEntry_type|apply IH].
Qed.

(** The manifest left by a build that returns: the upstream entries, the
    ['env var'] entries, the ['file'] entries, in this order. *)
Lemma computeManifest_written env config task cache s d s1 :
  tc_cache (taskConfig task) = CacheObject cache ->
  computeManifest env config task s = Ret (Some d) s1 ->
  exists U F,
    manifests s1 !! getManifestPath (taskConfig task)
    = Some (U ++ (envEntry env <$> allEnvVars config task cache) ++ F)
    /\ Forall upstreamType U
    /\ Forall fileType F.
Proof.
  intros Hc E.
  destruct (computeManifest_Ret _ _ _ _ _ _ _ Hc E)
    as (mcR & ex & mcU & ER & EU & Hext & Hex & Hd & Hm & _).
  destruct Hext as (U & -> & HU).
  eexists U, _. split; [|split; [done|apply fileEntries_type]].
  rewrite Hm.
  match goal with
  | |- manifestAfter ?mc _ !! _ = _ =>
      change (getManifestPath (taskConfig task)) with (previousManifestPath mc)
  end.
  rewrite manifestAfter_lookup. simpl. by rewrite <- app_assoc.
Qed.

End Written.

Section EntryClaims.
Context `{Platform}.

Lemma filter_type_written (t : string) (U E F : list ManifestLine) :
  Forall (fun l => ml_type l ≠ t) U -> Forall (fun l => ml_type l = t) E ->
  Forall (fun l => ml_type l ≠ t) F ->
  filter (fun l => ml_type l = t) (U ++ E ++ F) = E.
Proof.
  intros HU HE HF. rewrite !filter_app.
  rewrite (filter_none _ U), (filter_all _ E), (filter_none _ F) by done.
  by rewrite app_nil_r.
Qed.

Lemma fileEntry_copied mc file fi :
  fileEntry mc file fi
  = {| ml_type := "file"; ml_id := file;
       ml_hash := if copied mc file fi
                  then match nextUnread mc with Some p => ml_hash p | None => "" end
                  else hashContent (f_content fi);
       ml_meta := Some (f_mtimeMs fi) |}.
Proof.
  unfold fileEntry, fastPath, copied, hashedEntry,
    ManifestConstructor.copyLineOverIfMetaIsSame.
  destruct (nextUnread mc) as [p|]; [|done].
  destruct (sameEntry "file" file p && bool_decide (ml_meta p = Some (f_mtimeMs fi))); done.
Qed.

Lemma needsHash_copied config mc (fs : gmap string FileInfo) file fi :
  fs !! fullPathOf config file = Some fi ->
  needsHash config mc fs file = negb (copied mc file fi).
Proof.
  intros Hfi.
  unfold needsHash, fastPath, copied, ManifestConstructor.copyLineOverIfMetaIsSame.
  rewrite Hfi.
  destruct (nextUnread mc) as [p|]; [|done].
  destruct (sameEntry "file" file p && bool_decide (ml_meta p = Some (f_mtimeMs fi))); done.
Qed.

Lemma filesHashed_sub config (fs : gmap string FileInfo) mc fl f :
  f ∈ filesHashed config fs mc fl -> f ∈ fl.
Proof.
  revert mc. induction fl as [|g fl IH]; intros mc; simpl; [done|].
  destruct (fs !! fullPathOf config g) as [fi|]; [|by intros ?%elem_of_nil].
  rewrite elem_of_app, elem_of_cons. intros [Hf|Hf].
  - destruct (needsHash config mc fs g); [|by apply elem_of_nil in Hf].
    apply list_elem_of_singleton in Hf. by left.
  - right. by eapply IH.
Qed.

Lemma filesHashed_NoDup config (fs : gmap string FileInfo) mc fl :
  NoDup fl -> NoDup (filesHashed config fs mc fl).
Proof.
  revert mc. induction fl as [|g fl IH]; intros mc Hnd; simpl; [constructor|].
  apply NoDup_cons in Hnd as [Hg Hnd].
  destruct (fs !! fullPathOf config g) as [fi|]; [|constructor].
  apply NoDup_app. split; [|split].
  - destruct (needsHash config mc fs g); [apply NoDup_singleton|constructor].
  - intros x Hx Hx'. apply filesHashed_sub in Hx'.
    destruct (needsHash config mc fs g); [|by apply elem_of_nil in Hx].
    apply list_elem_of_singleton in Hx. by subst.
  - by apply IH.
Qed.

Lemma fileEntries_length config (fs : gmap string FileInfo) mc fl :
  (forall f, f ∈ fl -> is_Some (fs !! fullPathOf config f)) ->
  length (fileEntries config fs mc fl) = length fl.
Proof.
  revert mc. induction fl as [|g fl IH]; intros mc Hex; simpl; [done|].
  destruct (Hex g) as [fi ->]; [by left|]. simpl. f_equal. apply IH.
  intros f Hf. apply Hex. by right.
Qed.



End EntryClaims.

(** ** The previous manifest as a stream *)

Lemma strlt_trans a b c : strlt a b -> strlt b c -> strlt a c.
Proof.
  unfold strlt, String.ltb. intros Hab Hbc.
  destruct (String.compare a b) eqn:E1; try done.
  destruct (String.compare b c) eqn:E2; try done.
  apply String_as_OT.cmp_lt in E1, E2.
  pose proof (String_as_OT.lt_trans _ _ _ E1 E2) as E3.
  apply String_as_OT.cmp_lt in E3. unfold String_as_OT.cmp in E3. by rewrite E3.
Qed.

Lemma strlt_irrefl a : ~ strlt a a.
Proof.
  unfold strlt, String.ltb. intros Ha.
  destruct (String.compare a a) eqn:E; try done.
  apply String_as_OT.cmp_lt in E. by apply String_as_OT.lt_not_eq in E.
Qed.

Lemma lineBefore_cases a b :
  lineBefore a b = true <->
  typeRank (ml_type a) < typeRank (ml_type b)
  \/ (typeRank (ml_type a) = typeRank (ml_type b) /\ strlt (ml_id a) (ml_id b)).
Proof.
  unfold lineBefore, strlt.
  rewrite orb_true_iff, andb_true_iff, !bool_decide_eq_true. done.
Qed.

Lemma lineBefore_trans a b c :
  lineBefore a b = true -> lineBefore b c = true -> lineBefore a c = true.
Proof.
  rewrite !lineBefore_cases. intros [H1|[H1 H1']] [H2|[H2 H2']]; try (left; lia).
  right. split; [lia|]. by eapply strlt_trans.
Qed.

Lemma lineBefore_not_passed l p : lineBefore l p = true -> passed l p = false.
Proof.
  intros Hlp. unfold passed. apply orb_false_iff. split.
  - apply not_true_is_false. intros Hpl.
    apply lineBefore_cases in Hlp, Hpl.
    destruct Hlp as [?|[? Hlt]], Hpl as [?|[? Hlt']]; try lia.
    eapply strlt_irrefl, strlt_trans; eassumption.
  - apply not_true_is_false. unfold sameEntry.
    rewrite andb_true_iff, !bool_decide_eq_true. intros [Ht Hi].
    apply lineBefore_cases in Hlp. rewrite Ht, Hi in Hlp.
    destruct Hlp as [?|[_ Hlt]]; [lia|]. by apply strlt_irrefl in Hlt.
Qed.

Lemma passed_self l : passed l l = true.
Proof.
  unfold passed, sameEntry. rewrite !bool_decide_eq_true_2 by done.
  apply orb_true_r.
Qed.

Lemma passed_before l p : lineBefore p l = true -> passed l p = true.
Proof. intros Hp. unfold passed. by rewrite Hp. Qed.


Lemma find_passed l (W R : list ManifestLine) p :
  Forall (fun x => passed l x = true) W -> passed l p = false ->
  List.find (fun x => negb (passed l x)) (W ++ p :: R) = Some p.
Proof.
  intros HW Hp. induction HW as [|x W Hx _ IH]; simpl.
  - by rewrite Hp.
  - by rewrite Hx.
Qed.

(** Over a previous manifest in canonical order, a builder that has
    written a prefix of it has the next entry in hand. *)
Lemma nextUnread_prefix mc (W R : list ManifestLine) p :
  StronglySorted before (W ++ p :: R) ->
  previousLines mc = Some (W ++ p :: R) -> nextLines mc = W ->
  nextUnread mc = Some p.
Proof.
  intros Hs Hp Hn. unfold nextUnread. rewrite Hp, Hn.
  destruct (last W) as [l|] eqn:El.
  - apply last_Some in El as [W' ->].
    apply find_passed.
    + apply Forall_app. split.
      * apply Forall_forall. intros x Hx. apply passed_before.
        apply StronglySorted_app_1_l in Hs.
        eapply (StronglySorted_app_1_elem_of before W' [l]); [exact Hs|done|by left].
      * constructor; [apply passed_self|constructor].
    + apply lineBefore_not_passed.
      eapply (StronglySorted_app_1_elem_of before (W' ++ [l]) (p :: R)); [exact Hs| |by left].
      apply elem_of_app. right. by left.
  - apply last_None in El. by rewrite El.
Qed.

Lemma StronglySorted_snoc (ls : list ManifestLine) l :
  StronglySorted before ls -> after (last ls) l -> StronglySorted before (ls ++ [l]).
Proof.
  intros Hs Ha. apply StronglySorted_app_2; [|done|repeat constructor].
  intros x y Hx Hy. apply list_elem_of_singleton in Hy as ->.
  destruct (last ls) as [z|] eqn:Ez.
  - apply last_Some in Ez as [ls' ->]. simpl in Ha.
    apply elem_of_app in Hx as [Hx|Hx].
    + eapply lineBefore_trans; [|exact Ha].
      eapply (StronglySorted_app_1_elem_of before ls' [z]); [exact Hs|done|by left].
    + apply list_elem_of_singleton in Hx as ->. done.
  - apply last_None in Ez. subst. by apply elem_of_nil in Hx.
Qed.

Lemma forM_preserves {A B} (I : A -> Prop) (body : A -> B -> M State A) l a s a' s' :
  (forall a x s a' s', body a x s = Ret a' s' -> I a -> I a') ->
  forM body l a s = Ret a' s' -> I a -> I a'.
Proof.
  intros Hbody. revert a s. induction l as [|x l IH]; intros a s; simpl.
  - unfold ret. by intros [= <- _].
  - intros E Ha. apply bind_Ret in E as (a1 & s1 & E1 & E).
    eapply IH; [exact E|]. eapply Hbody; eassumption.
Qed.

Section SortedLines.
Context `{Platform}.

Lemma update_sorted mc type id hash meta s mc' s' :
  ManifestConstructor.update mc type id hash meta s = Ret mc' s' ->
  StronglySorted before (nextLines mc) -> StronglySorted before (nextLines mc').
Proof.
  unfold ManifestConstructor.update. intros E Hs.
  destruct (last (nextLines mc)) as [p|] eqn:El.
  - destruct (lineBefore p _) eqn:Eb; [|done].
    unfold ret in E. injection E as <- _. simpl.
    apply StronglySorted_snoc; [done|]. by rewrite El.
  - unfold ret in E. injection E as <- _. simpl.
    apply StronglySorted_snoc; [done|]. by rewrite El.
Qed.

Lemma runsAfterStep_sorted config task acc entry s acc' s' :
  runsAfterStep config task acc entry s = Ret acc' s' ->
  StronglySorted before (nextLines acc.1) -> StronglySorted before (nextLines acc'.1).
Proof.
  destruct acc as [mc ex], entry as [name dc]. unfold runsAfterStep.
  destruct (negb _ && _).
  { unfold ret. by intros [= <- _]. }
  unfold bind at 1. destruct (getTaskKey _ _ _ s) as [k s1| |]; try done.
  unfold bind at 1, gets. destruct (allTasks s1 !! k) as [dep|].
  - unfold bind. destruct (inheritsInput dc).
    + destruct (cacheKeyOf dep) as [h|]; [|done].
      destruct (ManifestConstructor.update _ _ _ _ _ s1) as [mc1 s2| |] eqn:E; try done.
      unfold ret. intros [= <- _]. simpl. by eapply update_sorted.
    + unfold ret. by intros [= <- _].
  - destruct (bool_decide _); [done|]. unfold ret. by intros [= <- _].
Qed.

Lemma packageDepsPhase_sorted config task cache mc s mc' s' :
  packageDepsPhase config task cache mc s = Ret mc' s' ->
  StronglySorted before (nextLines mc) -> StronglySorted before (nextLines mc').
Proof.
  unfold packageDepsPhase. destruct (_ && _).
  - unfold bind. destruct (upstreamTaskKeys config task s) as [[keys|] s1| |]; try done.
    + apply (forM_preserves (fun mc => StronglySorted before (nextLines mc))).
      intros a x s2 a' s2'. unfold packageDepStep, bind, gets.
      destruct (allTasks s2 !! x) as [dep|].
      * destruct (cacheKeyOf dep) as [h|]; [|done]. apply update_sorted.
      * unfold ret. by intros [= <- _].
    + unfold ret. by intros [= <- _].
  - unfold ret. by intros [= <- _].
Qed.

(** The extra files that the loop over [runsAfter] collects are output
    files of task nodes. *)
Lemma runsAfterLoop_outputs config task l acc s acc' s' :
  forM (runsAfterStep config task) l acc s = Ret acc' s' ->
  forall o, o ∈ acc'.2 ->
    o ∈ acc.2 \/ exists k t, allTasks s !! k = Some t /\ o = outputFiles t.
Proof.
  revert acc s. induction l as [|entry l IH]; intros acc s; simpl.
  - unfold ret. intros [= <- _] o Ho. by left.
  - intros E o Ho. apply bind_Ret in E as (acc1 & s1 & E1 & E).
    assert (s1 = s) as -> by (eapply readonly_Ret; [apply runsAfterStep_readonly|exact E1]).
    destruct (IH _ _ E o Ho) as [Ho1|Ho1]; [|by right].
    clear E IH Ho. destruct acc as [mc ex], entry as [name dc].
    revert E1. unfold runsAfterStep. destruct (negb _ && _).
    { unfold ret. intros [= <-]. by left. }
    unfold bind at 1. destruct (getTaskKey _ _ _ s) as [k s1| |] eqn:Ek; try done.
    assert (s1 = s) as -> by (eapply readonly_Ret; [apply getTaskKey_readonly|exact Ek]).
    unfold bind at 1, gets. destruct (allTasks s !! k) as [dep|] eqn:Edep.
    + unfold bind.
      destruct (if inheritsInput dc then _ else _) as [mc1 s1| |]; try done.
      unfold ret. intros E1. injection E1 as <-. simpl in Ho1.
      destruct (bool_decide _); [by left|].
      apply elem_of_app in Ho1 as [Ho1|Ho1]; [by left|].
      apply list_elem_of_singleton in Ho1. right. eauto.
    + destruct (bool_decide _); [done|]. unfold ret. intros [= <-]. by left.
Qed.

Lemma fileEntries_sorted config (fs : gmap string FileInfo) mc fl :
  Sorted strlt fl -> StronglySorted before (fileEntries config fs mc fl).
Proof.
  intros Hs. apply Sorted_StronglySorted in Hs; [|intros ???; apply strlt_trans].
  revert mc. induction Hs as [|f fl Hs IH Hall]; intros mc; simpl; [constructor|].
  destruct (fs !! fullPathOf config f) as [fi|]; [|constructor].
  constructor; [apply IH|].
  apply Forall_forall. intros l Hl.
  assert (ml_type l = "file" /\ ml_id l ∈ fl) as [Ht Hi].
  { clear -Hl. revert Hl. generalize (push_line (fileEntry mc f fi) mc).
    induction fl as [|g fl IH]; intros mc'; simpl; [by intros ?%elem_of_nil|].
    destruct (fs !! fullPathOf config g) as [gi|]; [|by intros ?%elem_of_nil].
    intros [->|Hl]%elem_of_cons.
    - rewrite fileEntry_type, fileEntry_id. split; [done|by left].
    - destruct (IH _ Hl). split; [done|by right]. }
  apply lineBefore_same_type'.
  - by rewrite fileEntry_type, Ht.
  - rewrite fileEntry_id. rewrite Forall_forall in Hall. by apply Hall.
Qed.

Lemma line_eta (l : ManifestLine) :
  l = {| ml_type := ml_type l; ml_id := ml_id l; ml_hash := ml_hash l;
         ml_meta := ml_meta l |}.
Proof. by destruct l. Qed.

(** Building over the manifest just written, with the files as they were:
    every ['file'] entry is copied and no content is read. *)
Lemma fileEntries_replay config (fs fs' : gmap string FileInfo) fl :
  forall mc1 mc2 W,
    (forall f, f ∈ fl -> is_Some (fs !! fullPathOf config f)
                         /\ fs' !! fullPathOf config f = fs !! fullPathOf config f) ->
    previousLines mc2 = Some (W ++ fileEntries config fs mc1 fl) ->
    nextLines mc2 = W ->
    StronglySorted before (W ++ fileEntries config fs mc1 fl) ->
    fileEntries config fs' mc2 fl = fileEntries config fs mc1 fl
    /\ filesHashed config fs' mc2 fl = [].
Proof.
  induction fl as [|f fl IH]; intros mc1 mc2 W Hex Hp Hn Hs; simpl; [done|].
  destruct (Hex f) as [[fi Hfi] Hfi']; [by left|].
  simpl in Hp, Hs. rewrite Hfi in Hp, Hs. rewrite Hfi', Hfi.
  set (e := fileEntry mc1 f fi) in *.
  assert (nextUnread mc2 = Some e) as Hnext by (by eapply nextUnread_prefix).
  assert (fastPath mc2 f fi = Some e) as Hfast.
  { unfold fastPath. rewrite Hnext. unfold sameEntry, e.
    rewrite fileEntry_type, fileEntry_id, fileEntry_meta.
    by rewrite !bool_decide_eq_true_2 by done. }
  assert (fileEntry mc2 f fi = e) as He.
  { unfold fileEntry at 1. rewrite Hfast. rewrite (line_eta e) at 2.
    unfold e. by rewrite fileEntry_type, fileEntry_id, fileEntry_meta. }
  assert (needsHash config mc2 fs' f = false) as Hneeds.
  { unfold needsHash. rewrite Hfi', Hfi, Hfast. done. }
  rewrite He, Hneeds. simpl.
  destruct (IH (push_line e mc1) (push_line e mc2) (W ++ [e])) as [IH1 IH2].
  - intros g Hg. apply Hex. by right.
  - simpl. by rewrite <- app_assoc.
  - simpl. by rewrite Hn.
  - by rewrite <- app_assoc.
  - by rewrite IH1, IH2.
Qed.

End SortedLines.

Section Rebuild.
Context `{Platform}.

Lemma inputFileList_elem_of config task cache extra (fs : gmap string FileInfo) f :
  f ∈ inputFileList config task cache extra fs <->
  f ∈ inputFileList config task cache [] fs \/ f ∈ extra.
Proof.
  unfold inputFileList. rewrite !js_sort_elem_of, !uniq_elem_of, !elem_of_app.
  rewrite elem_of_nil. tauto.
Qed.

(** The entries of a build that returned are in canonical order. *)
Lemma written_sorted env config task cache mc mcR ex mcU (s : State) fl :
  nextLines mc = [] ->
  forM (runsAfterStep config task) (tc_runsAfter (taskConfig task)) (mc, []) s
  = Ret (mcR, ex) s ->
  packageDepsPhase config task cache mcR s = Ret mcU s ->
  Sorted strlt fl ->
  let mcE := push_lines (envEntry env <$> allEnvVars config task cache) mcU in
  StronglySorted before (nextLines mcE ++ fileEntries config (files s) mcE fl).
Proof.
  intros Hnil ER EU Hfl mcE.
  pose proof (upstream_extends _ _ _ _ _ _ _ _ ER EU) as (U & HU & HUt).
  assert (StronglySorted before (nextLines mcU)) as HsU.
  { eapply packageDepsPhase_sorted; [exact EU|].
    eapply (forM_preserves (fun a => StronglySorted before (nextLines a.1))) in ER.
    - exact ER.
    - intros. eapply runsAfterStep_sorted; eassumption.
    - simpl. rewrite Hnil. constructor. }
  assert (Forall upstreamType (nextLines mcU)) as HUt'.
  { rewrite HU. simpl. rewrite Hnil. done. }
  assert (StronglySorted before (nextLines mcE)) as HsE.
  { pose proof (env_entries_aux env config task cache mcU s
                  (upstreamType_rank _ "env var" ltac:(by vm_compute) HUt')) as Eenv.
    eapply (forM_preserves (fun a => StronglySorted before (nextLines a))) in Eenv.
    - exact Eenv.
    - intros a x s0 a' s0'. apply update_sorted.
    - exact HsU. }
  apply StronglySorted_app_2; [|exact HsE|by apply fileEntries_sorted].
  intros x y Hx Hy. apply lineBefore_lower_rank.
  assert (ml_type y = "file") as ->.
  { pose proof (fileEntries_type config (files s) mcE fl) as Hall.
    rewrite Forall_forall in Hall. by apply Hall. }
  unfold mcE in Hx. simpl in Hx. apply elem_of_app in Hx as [Hx|Hx].
  - rewrite Forall_forall in HUt'. destruct (HUt' x Hx) as [-> | ->]; by vm_compute.
  - apply list_elem_of_fmap in Hx as (n & -> & _). by vm_compute.
Qed.

(** A manifest build that returned, built again where the task nodes, the
    input files and the manifest are as the first build saw or left them:
    it returns [didChange = false], reads no file content and writes the
    same manifest and the same cache key. *)
Lemma rebuild env config task cache s d s1 s' :
  tc_cache (taskConfig task) = CacheObject cache ->
  computeManifest env config task s = Ret (Some d) s1 ->
  nodes_agree (allTasks s) (allTasks s') ->
  (forall extra, inputFileList config task cache extra (files s')
                 = inputFileList config task cache extra (files s)) ->
  (forall f, f ∈ inputFileList config task cache [] (files s)
             \/ (exists k t, allTasks s !! k = Some t /\ f ∈ outputFiles t) ->
             files s' !! fullPathOf config f = files s !! fullPathOf config f) ->
  manifests s' !! getManifestPath (taskConfig task)
  = manifests s1 !! getManifestPath (taskConfig task) ->
  exists L s1',
    manifests s1
    = <[getManifestPath (taskConfig task) := L]>
        (delete (getNextManifestPath (taskConfig task))
           (<[getNextManifestPath (taskConfig task) := L]> (manifests s)))
    /\ files s1 = files s /\ spawned s1 = spawned s
    /\ allTasks s1
       = <[key task := set_inputManifestCacheKey (ManifestConstructor.aggregateHash L)
                         (default task (allTasks s !! key task))]> (allTasks s)
    /\ computeManifest env config task s' = Ret (Some false) s1'
    /\ manifests s1'
       = <[getManifestPath (taskConfig task) := L]>
           (delete (getNextManifestPath (taskConfig task))
              (<[getNextManifestPath (taskConfig task) := L]> (manifests s')))
    /\ hashed s1' = hashed s' /\ files s1' = files s' /\ spawned s1' = spawned s'
    /\ allTasks s1'
       = <[key task := set_inputManifestCacheKey (ManifestConstructor.aggregateHash L)
                         (default task (allTasks s' !! key task))]> (allTasks s').
Proof.
  intros Hc E Hnodes Hglob Hfiles Hprev.
  destruct (computeManifest_Ret _ _ _ _ _ _ _ Hc E)
    as (mcR & ex & mcU & ER & EU & Hext & Hex & Hd & Hm & Hh & Hf & Hsp & Ht).
  cbv zeta in Hex, Hd, Hm, Hh, Ht.
  set (E0 := envEntry env <$> allEnvVars config task cache) in *.
  set (mcE := push_lines E0 mcU) in *.
  set (inputFiles := inputFileList config task cache (concat ex) (files s)) in *.
  set (F := fileEntries config (files s) mcE (js_sort inputFiles)) in *.
  set (mcF := push_lines F mcE) in *.
  destruct (extends_initial _ _ _ _ Hext) as (HUt & HprevU & HmpU & HnpU).
  set (mp := getManifestPath (taskConfig task)) in *.
  set (np := getNextManifestPath (taskConfig task)) in *.
  set (L := nextLines mcF).
  assert (manifests s1 !! mp = Some L) as HL.
  { rewrite Hm, <- HmpU.
    change (previousManifestPath mcU) with (previousManifestPath mcF).
    apply manifestAfter_lookup. }
  set (P := Some L).
  assert (initialBuilder task s' = reprev P (initialBuilder task s)) as Hinit.
  { unfold initialBuilder, reprev. simpl. fold mp. by rewrite Hprev, HL. }
  destruct (upstream_replay P config task cache (initialBuilder task s) mcR ex mcU s s'
              Hnodes ER EU) as [ER' EU'].
  rewrite <- Hinit in ER'.
  assert (forall f, f ∈ inputFiles ->
            is_Some (files s !! fullPathOf config f)
            /\ files s' !! fullPathOf config f = files s !! fullPathOf config f) as Hsame.
  { intros f Hf'. split; [by apply Hex|]. apply Hfiles.
    apply inputFileList_elem_of in Hf' as [Hf'|Hf']; [by left|]. right.
    apply list_elem_of_In, in_concat in Hf' as (o & Ho & Hfo).
    apply list_elem_of_In in Ho, Hfo.
    destruct (runsAfterLoop_outputs _ _ _ _ _ _ _ ER o Ho) as [Hnil|(k & t & Hk & ->)].
    - by apply elem_of_nil in Hnil.
    - eauto. }
  destruct (computeManifest_returns env config task cache (reprev P mcR) ex (reprev P mcU)
              s' Hc ER' EU') as (s1' & E1' & Hm' & Hh' & Hf1' & Hsp' & Ht').
  { rewrite Hglob. fold inputFiles. intros f Hf'.
    destruct (Hsame f Hf') as [Hs1 Hs2]. by rewrite Hs2. }
  cbv zeta in E1', Hm', Hh', Ht'. rewrite Hglob in E1', Hm', Hh', Ht'.
  fold E0 inputFiles in E1', Hm', Hh', Ht'.
  set (mcE' := push_lines E0 (reprev P mcU)) in *.
  destruct (fileEntries_replay config (files s) (files s') (js_sort inputFiles)
              mcE mcE' (nextLines mcE)) as [HF' HH'].
  { intros f Hf'. apply Hsame. by rewrite js_sort_elem_of in Hf'. }
  { simpl. unfold P, L, mcF. simpl. done. }
  { done. }
  { eapply (written_sorted env config task cache (initialBuilder task s));
      [done|exact ER|exact EU|]. apply js_sort_strict, inputFileList_NoDup. }
  fold F in HF'. rewrite HF' in E1', Hm', Ht'. rewrite HH' in Hh'.
  assert (nextLines (push_lines F mcE') = L) as HL' by done.
  exists L, s1'. split; [|split; [done|split; [done|split; [done|]]]].
  { rewrite Hm. unfold manifestAfter. simpl. by rewrite HmpU, HnpU. }
  split.
  { rewrite E1'. do 2 f_equal. unfold didChangeOf. simpl.
    by rewrite bool_decide_eq_true_2. }
  split.
  { rewrite Hm'. unfold manifestAfter. simpl. by rewrite HmpU, HnpU. }
  split; [by rewrite Hh', app_nil_r|]. split; [done|]. split; [done|].
  by rewrite Ht', HL'.
Qed.

End Rebuild.

(** ** Two runs in a row *)

Section Visible.
Context `{Platform}.

Lemma computeManifest_cached env config task cache s r s1 :
  tc_cache (taskConfig task) = CacheObject cache ->
  computeManifest env config task s = Ret r s1 -> exists d, r = Some d.
Proof.
  intros Hc E. unfold computeManifest in E. rewrite Hc in E.
  apply bind_Ret in E as (mc0 & sp & _ & E). unfold buildManifest in E.
  apply bind_Ret in E as ([mcR ex] & s2 & _ & E).
  apply bind_Ret in E as (mcU & s3 & _ & E).
  apply bind_Ret in E as (mcE & s4 & _ & E).
  apply bind_Ret in E as (fs & s5 & EG & E).
  rewrite (getInputFiles_spec _ _ cache) in EG by done. injection EG as <- <-.
  apply bind_Ret in E as (mcF & sF & _ & E).
  apply bind_Ret in E as ([dc h] & sE & _ & E).
  apply bind_Ret in E as (u & sK & _ & E).
  unfold ret in E. injection E as <- _. eauto.
Qed.

(** What a manifest build that returned has left. *)
Lemma computeManifest_leaves env config task cache s d s1 :
  tc_cache (taskConfig task) = CacheObject cache ->
  computeManifest env config task s = Ret (Some d) s1 ->
  exists L,
    manifests s1
    = <[getManifestPath (taskConfig task) := L]>
        (delete (getNextManifestPath (taskConfig task))
           (<[getNextManifestPath (taskConfig task) := L]> (manifests s)))
    /\ files s1 = files s /\ spawned s1 = spawned s
    /\ allTasks s1
       = <[key task := set_inputManifestCacheKey (ManifestConstructor.aggregateHash L)
                         (default task (allTasks s !! key task))]> (allTasks s).
Proof.
  intros Hc E.
  destruct (computeManifest_Ret _ _ _ _ _ _ _ Hc E)
    as (mcR & ex & mcU & ER & EU & Hext & Hex & Hd & Hm & Hh & Hf & Hsp & Ht).
  destruct (extends_initial _ _ _ _ Hext) as (_ & _ & HmpU & HnpU).
  eexists. split; [|split; [done|split; [done|exact Ht]]].
  rewrite Hm. unfold manifestAfter. simpl. by rewrite HmpU, HnpU.
Qed.

Lemma same_visible_refl config ts own (fs : gmap string FileInfo) :
  same_visible config ts own fs fs.
Proof. by split. Qed.

Lemma watched_mono config ts own own' (fs : gmap string FileInfo) f :
  (forall k, k ∈ own -> k ∈ own') ->
  watched config ts own' fs f -> watched config ts own fs f.
Proof.
  intros Hsub (k & t & Hk & [Hf|[Hn Hf]]); exists k, t; (split; [done|]);
    [by left|right]. split; [|done]. intros Hin. apply Hn. by apply Hsub.
Qed.

Lemma same_visible_mono config ts own own' (fs fs' : gmap string FileInfo) :
  (forall k, k ∈ own -> k ∈ own') ->
  same_visible config ts own fs fs' -> same_visible config ts own' fs fs'.
Proof.
  intros Hsub [Hg Hl]. split.
  - intros k t Hk. destruct (Hg k t Hk) as [Hi Ho]. split; [done|].
    intros Hn. apply Ho. intros Hin. apply Hn. by apply Hsub.
  - intros f Hf. apply Hl. by eapply watched_mono.
Qed.

Lemma watched_same config ts own (fs fs' : gmap string FileInfo) f :
  same_visible config ts own fs fs' ->
  watched config ts own fs f -> watched config ts own fs' f.
Proof.
  intros [Hg _] (k & t & Hk & Hf). exists k, t. split; [done|].
  destruct (Hg k t Hk) as [Hi Ho]. rewrite Hi.
  destruct Hf as [Hf|[Hn Hf]]; [by left|right]. split; [done|]. by rewrite Ho.
Qed.

Lemma watched_step config ts own own' (fs fs' : gmap string FileInfo) f :
  (forall k, k ∈ own -> k ∈ own') ->
  same_visible config ts own fs fs' ->
  watched config ts own' fs f -> watched config ts own' fs' f.
Proof.
  intros Hsub Hv. apply watched_same. by eapply same_visible_mono.
Qed.

Lemma same_visible_trans config ts own own' (fs fs' fs'' : gmap string FileInfo) :
  same_visible config ts own fs fs' -> same_visible config ts own' fs' fs'' ->
  same_visible config ts (own ++ own') fs fs''.
Proof.
  intros H1 H2.
  apply (same_visible_mono _ _ own (own ++ own')) in H1;
    [|intros k Hk; apply elem_of_app; by left].
  apply (same_visible_mono _ _ own' (own ++ own')) in H2;
    [|intros k Hk; apply elem_of_app; by right].
  split.
  - intros k t Hk. destruct (proj1 H1 k t Hk) as [Hi1 Ho1].
    destruct (proj1 H2 k t Hk) as [Hi2 Ho2]. split; [by rewrite Hi2|].
    intros Hn. by rewrite Ho2, Ho1.
  - intros f Hf. rewrite (proj2 H2 f) by (by eapply watched_same).
    by apply (proj2 H1).
Qed.

(** What [same_visible] gives for one task: its input file list and, when
    the task is not among [own], its output files. *)
Lemma same_visible_inputs config ts own (fs fs' : gmap string FileInfo) k t c extra :
  same_visible config ts own fs fs' -> ts !! k = Some t ->
  tc_cache (taskConfig t) = CacheObject c ->
  inputFileList config t c extra fs' = inputFileList config t c extra fs.
Proof.
  intros [Hg _] Hk Hc. destruct (Hg k t Hk) as [Hi _].
  unfold inputGlobsOf in Hi. rewrite Hc in Hi.
  injection Hi as Hb Hp. unfold inputFileList. simpl. by rewrite Hb, Hp.
Qed.

Lemma same_visible_outputs config ts own (fs fs' : gmap string FileInfo) k t c :
  same_visible config ts own fs fs' -> ts !! k = Some t -> k ∉ own ->
  tc_cache (taskConfig t) = CacheObject c ->
  glob_sync (gp_include (cc_outputs c)) (gp_exclude (cc_outputs c)) (taskDir t) fs'
  = glob_sync (gp_include (cc_outputs c)) (gp_exclude (cc_outputs c)) (taskDir t) fs.
Proof.
  intros [Hg _] Hk Hn Hc. destruct (Hg k t Hk) as [_ Ho]. specialize (Ho Hn).
  unfold outputGlobOf in Ho. by rewrite Hc in Ho.
Qed.

Lemma watched_inputs config ts own (fs : gmap string FileInfo) k t c f :
  ts !! k = Some t -> tc_cache (taskConfig t) = CacheObject c ->
  f ∈ inputFileList config t c [] fs -> watched config ts own fs f.
Proof.
  intros Hk Hc Hf. exists k, t. split; [done|]. left. unfold inputGlobsOf. rewrite Hc.
  unfold inputFileList in Hf. rewrite js_sort_elem_of, uniq_elem_of in Hf.
  simpl. rewrite app_nil_r in Hf. rewrite !elem_of_app in *. tauto.
Qed.

Lemma watched_outputs config ts own (fs : gmap string FileInfo) k t c f :
  ts !! k = Some t -> k ∉ own -> tc_cache (taskConfig t) = CacheObject c ->
  f ∈ js_sort (glob_sync (gp_include (cc_outputs c)) (gp_exclude (cc_outputs c))
                 (taskDir t) fs) ->
  watched config ts own fs f.
Proof.
  intros Hk Hn Hc Hf. exists k, t. split; [done|]. right. split; [done|].
  unfold outputGlobOf. rewrite Hc. by rewrite js_sort_elem_of in Hf.
Qed.

End Visible.

Section Rerun.
Context `{Platform} `{Host}.

Lemma runAllTasks_runStep env tasks :
  runAllTasks env tasks = forM (runStep env tasks) (sortedTaskKeys tasks) tt.
Proof. reflexivity. Qed.

Lemma finished_spec st task c s :
  tc_cache (taskConfig task) = CacheObject c ->
  (set_task (key task) (set_status st) ;;; captureOutputFiles task) s
  = Ret tt (finished st task s)
  /\ files (finished st task s) = files s
  /\ manifests (finished st task s) = manifests s
  /\ hashed (finished st task s) = hashed s
  /\ spawned (finished st task s) = spawned s
  /\ allTasks (finished st task s)
     = alter (set_outputFiles
                (js_sort (glob_sync (gp_include (cc_outputs c)) (gp_exclude (cc_outputs c))
                            (taskDir task) (files s))))
         (key task) (alter (set_status st) (key task) (allTasks s)).
Proof.
  intros Hc. unfold finished, captureOutputFiles. rewrite Hc.
  unfold bind, set_task, modify, gets, ret. simpl. done.
Qed.

(** The ways one round of the loop goes for a cached task, when it
    returns. *)
Lemma runStep_cases env tasks k t c a a' :
  allTasks a !! k = Some t -> key t = k ->
  tc_cache (taskConfig t) = CacheObject c ->
  runStep env tasks tt k a = Ret tt a' ->
  a' = set_allTasks (alter (set_status skipped) k) a
  \/ exists d a_c,
       computeManifest env (tg_config tasks) t (started t a) = Ret (Some d) a_c
       /\ ((force t
            || negb (bool_decide (is_Some (manifests a !! getManifestPath (taskConfig t))))
            || d = false
            /\ a' = finished success_lazy t a_c)
           \/ exists code a_s,
                spawnCommand t (set_spawned (fun l => l ++ [k]) a_c) = Ret code a_s
                /\ ((code = 0 /\ a' = finished success_eager t a_s)
                    \/ (code ≠ 0
                        /\ a' = set_allTasks (alter (set_status failure) k) a_s))).
Proof.
  intros Ha Hk Hc. subst k. unfold runStep, bind at 1, gets. rewrite Ha.
  unfold bind at 1. destruct (bool_decide _).
  { unfold set_task, modify. intros [= <-]. by left. }
  unfold runTaskIfNeeded. unfold bind at 1, set_task, modify.
  fold (started t a). unfold bind at 1, gets.
  unfold bind at 1.
  destruct (computeManifest env (tg_config tasks) t (started t a)) as [r a_c| |] eqn:E;
    try done.
  destruct (computeManifest_cached _ _ _ _ _ _ _ Hc E) as [d ->].
  intros E'. right. exists d, a_c. split; [done|].
  change (manifests (started t a)) with (manifests a) in E'.
  destruct (force t || negb _ || d) eqn:Econd.
  - right. unfold runCommand in E'. unfold bind at 1, modify in E'.
    unfold bind at 1 in E'.
    destruct (spawnCommand t _) as [code a_s| |] eqn:Es; try done.
    exists code, a_s. split; [done|].
    destruct (decide (code = 0)) as [->|Hne].
    + left. split; [done|].
      destruct (finished_spec success_eager t c a_s Hc) as [E2 _].
      rewrite E2 in E'. by injection E' as <-.
    + right. split; [done|]. unfold set_task, modify in E'. by injection E' as <-.
  - left. split; [done|].
    destruct (finished_spec success_lazy t c a_c Hc) as [E2 _].
    pose proof (eq_trans (eq_sym E2) E') as E3. by injection E3 as <-.
Qed.

(** A round that finds the manifest unchanged ends the task lazily. *)
Lemma runStep_lazy env tasks k t c b b_c :
  allTasks b !! k = Some t -> key t = k ->
  tc_cache (taskConfig t) = CacheObject c ->
  (forall u, status <$> allTasks b !! u ≠ Some failure
             /\ status <$> allTasks b !! u ≠ Some skipped) ->
  force t = false ->
  is_Some (manifests b !! getManifestPath (taskConfig t)) ->
  computeManifest env (tg_config tasks) t (started t b) = Ret (Some false) b_c ->
  runStep env tasks tt k b = Ret tt (finished success_lazy t b_c).
Proof.
  intros Hb Hk Hc Hst Hforce Hm E. subst k. unfold runStep, bind at 1, gets. rewrite Hb.
  unfold bind at 1. rewrite bool_decide_eq_false_2.
  2:{ rewrite Exists_exists. intros (u & _ & [Hu|Hu]); by destruct (Hst u). }
  unfold runTaskIfNeeded. unfold bind at 1, set_task, modify.
  fold (started t b). unfold bind at 1, gets. unfold bind at 1. rewrite E.
  change (manifests (started t b)) with (manifests b).
  rewrite Hforce, (bool_decide_eq_true_2 _ Hm). simpl.
  by destruct (finished_spec success_lazy t c b_c Hc) as [E2 _].
Qed.

Section Graph.
Variable env : gmap string string.
Variable tasks : TaskGraph.
Variable ts0 : gmap string ScheduledTask.
Hypothesis Hcmd : commands_leave_inputs (tg_config tasks) ts0.

(** What one round changes, for a cached task of the graph. *)
Lemma runStep_frame k t c a a' :
  ts0 !! k = Some t -> allTasks a !! k = Some t -> key t = k ->
  tc_cache (taskConfig t) = CacheObject c ->
  runStep env tasks tt k a = Ret tt a' ->
  (forall j, j ≠ k -> allTasks a' !! j = allTasks a !! j)
  /\ same_visible (tg_config tasks) ts0 [k] (files a) (files a')
  /\ (forall p, p ≠ getManifestPath (taskConfig t) ->
                p ≠ getNextManifestPath (taskConfig t) ->
                manifests a' !! p = manifests a !! p)
  /\ (forall p, p ≠ getManifestPath (taskConfig t) ->
                manifests a !! p = None -> manifests a' !! p = None).
Proof.
  intros Hts Ha Hk Hc E.
  destruct (runStep_cases _ _ _ _ _ _ _ Ha Hk Hc E)
    as [->|(d & a_c & Ec & Hrest)].
  { simpl. split; [|split; [apply same_visible_refl|done]].
    intros j Hj. by rewrite lookup_alter_ne. }
  destruct (computeManifest_leaves _ _ _ _ _ _ _ Hc Ec) as (L & Hm & Hf & Hsp & Ht).
  change (manifests (started t a)) with (manifests a) in Hm.
  change (files (started t a)) with (files a) in Hf.
  change (allTasks (started t a)) with (alter (set_status running) (key t) (allTasks a)) in Ht.
  assert (forall j, j ≠ k -> allTasks a_c !! j = allTasks a !! j) as Hother.
  { intros j Hj. rewrite Ht, Hk, lookup_insert_ne, lookup_alter_ne by done. done. }
  assert (forall p, p ≠ getManifestPath (taskConfig t) ->
                    p ≠ getNextManifestPath (taskConfig t) ->
                    manifests a_c !! p = manifests a !! p) as HmA.
  { intros p Hp1 Hp2.
    by rewrite Hm, lookup_insert_ne, lookup_delete_ne, lookup_insert_ne. }
  assert (forall p, p ≠ getManifestPath (taskConfig t) ->
                    manifests a !! p = None -> manifests a_c !! p = None) as HmB.
  { intros p Hp1 Hnone. rewrite Hm, lookup_insert_ne by done.
    destruct (decide (p = getNextManifestPath (taskConfig t))) as [->|Hp2].
    - by rewrite lookup_delete_eq.
    - by rewrite lookup_delete_ne, lookup_insert_ne. }
  destruct Hrest as [[_ ->]|(code & a_s & Es & Hcode)].
  - destruct (finished_spec success_lazy t c a_c Hc) as (_ & Hf' & Hm' & _ & _ & Ht').
    rewrite Hf', Hm', Ht', Hf. split; [|split; [apply same_visible_refl|done]].
    intros j Hj. rewrite Hk, !lookup_alter_ne by done. by apply Hother.
  - destruct (Hcmd _ _ _ _ _ Hts Es) as (Hv & Hms & Hns).
    change (files (set_spawned _ a_c)) with (files a_c) in Hv.
    change (manifests (set_spawned _ a_c)) with (manifests a_c) in Hms.
    change (allTasks (set_spawned _ a_c)) with (allTasks a_c) in Hns.
    rewrite Hf in Hv.
    destruct Hcode as [[_ ->]|[_ ->]].
    + destruct (finished_spec success_eager t c a_s Hc) as (_ & Hf' & Hm' & _ & _ & Ht').
      rewrite Hf', Hm', Ht', Hms, Hns. split; [|split; [done|done]].
      intros j Hj. rewrite Hk, !lookup_alter_ne by done. by apply Hother.
    + simpl. rewrite Hms, Hns. split; [|split; [done|done]].
      intros j Hj. rewrite lookup_alter_ne by done. by apply Hother.
Qed.

(** The same for the rest of the loop. *)
Lemma runLoop_frame todo :
  forall a s1,
    NoDup todo ->
    (forall j, j ∈ todo ->
       exists t c, ts0 !! j = Some t /\ allTasks a !! j = Some t /\ key t = j
                   /\ tc_cache (taskConfig t) = CacheObject c) ->
    forM (runStep env tasks) todo tt a = Ret tt s1 ->
    (forall j, j ∉ todo -> allTasks s1 !! j = allTasks a !! j)
    /\ same_visible (tg_config tasks) ts0 todo (files a) (files s1)
    /\ (forall p, (forall j t, j ∈ todo -> ts0 !! j = Some t ->
                     p ≠ getManifestPath (taskConfig t)
                     /\ p ≠ getNextManifestPath (taskConfig t)) ->
                  manifests s1 !! p = manifests a !! p)
    /\ (forall p, (forall j t, j ∈ todo -> ts0 !! j = Some t ->
                     p ≠ getManifestPath (taskConfig t)) ->
                  manifests a !! p = None -> manifests s1 !! p = None).
Proof.
  induction todo as [|k todo IH]; intros a s1 Hnd Hnodes E.
  { simpl in E. unfold ret in E. injection E as <-.
    split; [done|]. split; [apply same_visible_refl|done]. }
  apply NoDup_cons in Hnd as [Hk Hnd]. simpl in E.
  apply bind_Ret in E as ([] & a' & E1 & E).
  destruct (Hnodes k) as (t & c & Hts & Ha & Hkey & Hc); [by left|].
  destruct (runStep_frame _ _ _ _ _ Hts Ha Hkey Hc E1) as (F1 & F2 & F3 & F4).
  destruct (IH a' s1 Hnd) as (G1 & G2 & G3 & G4); [|exact E|].
  { intros j Hj. destruct (Hnodes j) as (tj & cj & ? & ? & ? & ?); [by right|].
    exists tj, cj. split; [done|]. split; [|done].
    rewrite F1; [done|]. intros ->. done. }
  split; [|split; [|split]].
  - intros j Hj. apply not_elem_of_cons in Hj as [Hj1 Hj2].
    rewrite G1, F1 by done. done.
  - by apply (same_visible_trans _ _ [k] todo _ (files a')).
  - intros p Hp. rewrite G3.
    + destruct (Hp k t) as [? ?]; [by left|done|]. by apply F3.
    + intros j tj Hj Htj. apply (Hp j tj); [by right|done].
  - intros p Hp Hnone. apply G4.
    + intros j tj Hj Htj. apply (Hp j tj); [by right|done].
    + apply F4; [|done]. apply (Hp k t); [by left|done].
Qed.

End Graph.
End Rerun.

Lemma nodes_agree_alter ts ts' k (f : ScheduledTask -> ScheduledTask) :
  (forall t, inputManifestCacheKey (f t) = inputManifestCacheKey t
             /\ outputFiles (f t) = outputFiles t) ->
  nodes_agree ts ts' -> nodes_agree (alter f k ts) (alter f k ts').
Proof.
  intros Hf Ha j. destruct (decide (j = k)) as [->|Hj].
  - rewrite !lookup_alter_eq. specialize (Ha k).
    destruct (ts !! k) as [t|], (ts' !! k) as [t'|]; simplify_eq/=; try done.
    destruct (Hf t) as [-> ->], (Hf t') as [-> ->]. congruence.
  - rewrite !lookup_alter_ne by done. apply Ha.
Qed.

Lemma manifest_rewritten (m : gmap string (list ManifestLine)) mp np L :
  m !! mp = Some L -> np = mp \/ m !! np = None ->
  <[mp := L]> (delete np (<[np := L]> m)) = m.
Proof.
  intros Hmp Hnp. apply map_eq. intros p.
  destruct (decide (p = mp)) as [->|Hp]; [by rewrite lookup_insert_eq|].
  rewrite lookup_insert_ne by done.
  destruct (decide (p = np)) as [->|Hp'].
  - rewrite lookup_delete_eq. destruct Hnp as [->|Hnp]; done.
  - by rewrite lookup_delete_ne, lookup_insert_ne.
Qed.

Section RerunLoop.
Context `{Platform} `{Host}.
Variable env : gmap string string.
Variable tasks : TaskGraph.
Variables s0 s1 : State.
Hypothesis Hready : graph_ready tasks s0.
Hypothesis Hcmd : commands_leave_inputs (tg_config tasks) (allTasks s0).

Lemma rerun_loop todo :
  forall (past : list string) a b,
    NoDup todo ->
    (forall k, k ∈ todo -> (k ∉ past) /\ k ∈ sortedTaskKeys tasks) ->
    (forall j, j ∉ past -> allTasks a !! j = allTasks s0 !! j
                           /\ allTasks b !! j = allTasks s0 !! j) ->
    nodes_agree (allTasks a) (allTasks b) ->
    (forall j, j ∈ past -> status <$> allTasks b !! j = Some success_lazy) ->
    files b = files s1 -> manifests b = manifests s1 ->
    (forall j t f, allTasks a !! j = Some t -> f ∈ outputFiles t ->
                   watched (tg_config tasks) (allTasks s0) todo (files a) f) ->
    forM (runStep env tasks) todo tt a = Ret tt s1 ->
    (forall k, k ∈ todo -> exists t, allTasks s1 !! k = Some t /\ succeeded t) ->
    exists s2,
      forM (runStep env tasks) todo tt b = Ret tt s2
      /\ manifests s2 = manifests s1 /\ files s2 = files s1
      /\ hashed s2 = hashed b /\ spawned s2 = spawned b
      /\ (forall k, k ∈ past \/ k ∈ todo ->
                    status <$> allTasks s2 !! k = Some success_lazy).
Proof.
  destruct Hready as (Hnd0 & Hnode & Hsched & Hpaths).
  induction todo as [|k todo IH]; intros past a b Hnd Htodo I1 I2 I3 I4 I4' I5 E Hsucc.
  { exists b. simpl. split; [done|]. repeat split; try done.
    intros k [Hk|Hk]; [by apply I3|by apply elem_of_nil in Hk]. }
  apply NoDup_cons in Hnd as [Hk Hnd]. simpl in E.
  apply bind_Ret in E as ([] & a' & E1 & E).
  destruct (Htodo k) as [Hkpast Hksched]; [by left|].
  destruct (Hsched k Hksched) as (t & Ht0 & Hforce & Hcache).
  destruct (tc_cache (taskConfig t)) as [|c] eqn:Hc; [done|]. clear Hcache.
  destruct (Hnode k t Ht0) as (Hkey & Hpending & Houts).
  destruct (I1 k Hkpast) as [Ha Hb]. rewrite Ht0 in Ha, Hb.
  destruct (runStep_frame env tasks (allTasks s0) Hcmd k t c a a' Ht0 Ha Hkey Hc E1)
    as (F1 & F2 & F3 & F4).
  assert (forall j, j ∈ todo ->
            exists tj cj, allTasks s0 !! j = Some tj /\ allTasks a' !! j = Some tj
                          /\ key tj = j /\ tc_cache (taskConfig tj) = CacheObject cj)
    as Hrest.
  { intros j Hj. destruct (Htodo j) as [Hjpast Hjsched]; [by right|].
    destruct (Hsched j Hjsched) as (tj & Htj & _ & Hcj).
    destruct (tc_cache (taskConfig tj)) as [|cj] eqn:Hcj'; [done|].
    exists tj, cj. split; [done|]. split; [|split; [by apply (Hnode j tj)|done]].
    rewrite F1 by (intros ->; done). rewrite <- Htj. by apply I1. }
  destruct (runLoop_frame env tasks (allTasks s0) Hcmd todo a' s1 Hnd Hrest E)
    as (G1 & G2 & G3 & G4).
  destruct (Hsucc k) as (t1 & Ht1 & Hs1); [by left|].
  rewrite G1 in Ht1 by done.
  assert (forall j tj, j ∈ todo -> allTasks s0 !! j = Some tj ->
            getManifestPath (taskConfig t) ≠ getManifestPath (taskConfig tj)
            /\ getManifestPath (taskConfig t) ≠ getNextManifestPath (taskConfig tj)
            /\ getNextManifestPath (taskConfig t) ≠ getManifestPath (taskConfig tj))
    as Hdistinct.
  { intros j tj Hj Htj. destruct (Htodo j) as [_ Hjsched]; [by right|].
    assert (k ≠ j) as Hkj by (intros ->; done).
    destruct (Hpaths k j t tj Hksched Hjsched Hkj Ht0 Htj) as [P1 P2].
    destruct (Hpaths j k tj t Hjsched Hksched (not_eq_sym Hkj) Htj Ht0) as [_ P3].
    split; [done|]. split; [done|]. by apply not_eq_sym. }
  destruct (runStep_cases _ _ _ _ _ _ _ Ha Hkey Hc E1) as [->|(d & a_c & Ec & Hways)].
  { simpl in Ht1. rewrite lookup_alter_eq, Ha in Ht1. simplify_eq/=.
    destruct Hs1 as [Hs1|Hs1]; discriminate Hs1. }
  destruct (computeManifest_leaves _ _ _ _ _ _ _ Hc Ec) as (L0 & Hm0 & Hf0 & _ & Hn0).
  change (files (started t a)) with (files a) in Hf0.
  change (allTasks (started t a))
    with (alter (set_status running) (key t) (allTasks a)) in Hn0.
  rewrite Hkey, lookup_alter_eq, Ha in Hn0. simpl in Hn0.
  assert (exists st a_x,
            a' = finished st t a_x /\ manifests a_x = manifests a_c
            /\ allTasks a_x = allTasks a_c /\ files a' = files a_x) as Hend.
  { destruct Hways as [[_ ->]|(code & a_s & Es & [[_ ->]|[_ ->]])].
    - exists success_lazy, a_c. repeat split; try done.
      by destruct (finished_spec success_lazy t c a_c Hc) as (_ & -> & _).
    - destruct (Hcmd _ _ _ _ _ Ht0 Es) as (_ & Hms & Hns).
      exists success_eager, a_s. repeat split; try done.
      by destruct (finished_spec success_eager t c a_s Hc) as (_ & -> & _).
    - destruct (Hcmd _ _ _ _ _ Ht0 Es) as (_ & Hms & Hns).
      simpl in Ht1. change (allTasks (set_spawned _ a_c)) with (allTasks a_c) in Hns.
      rewrite lookup_alter_eq, Hns, Hn0, lookup_insert_eq in Ht1. simplify_eq/=.
      destruct Hs1 as [Hs1|Hs1]; discriminate Hs1. }
  destruct Hend as (st & a_x & -> & Hmx & Hnx & Hfx).
  destruct (finished_spec st t c a_x Hc) as (_ & Hf' & Hm' & _ & _ & Hn').
  assert (same_visible (tg_config tasks) (allTasks s0) (k :: todo) (files a) (files s1))
    as Hvis by (by apply (same_visible_trans _ _ [k] todo _ (files (finished st t a_x)))).
  destruct (rebuild env (tg_config tasks) t c (started t a) d a_c (started t b) Hc Ec)
    as (L & b_c & Hm & _ & _ & Hn & E2 & Hm2 & Hh2 & Hf2 & Hsp2 & Hn2).
  { apply nodes_agree_alter; [done|exact I2]. }
  { intros extra. change (files (started t b)) with (files b).
    change (files (started t a)) with (files a). rewrite I4.
    exact (same_visible_inputs _ _ _ _ _ k t c extra Hvis Ht0 Hc). }
  { intros f Hf. change (files (started t b)) with (files b).
    change (files (started t a)) with (files a). rewrite I4.
    apply (proj2 Hvis). destruct Hf as [Hf|(j & tj & Hj & Hf)].
    - by eapply watched_inputs.
    - change (allTasks (started t a))
        with (alter (set_status running) (key t) (allTasks a)) in Hj.
      destruct (decide (j = key t)) as [->|Hne].
      + rewrite lookup_alter_eq, Hkey, Ha in Hj. simplify_eq/=.
        by eapply I5.
      + rewrite lookup_alter_ne in Hj by done. by eapply I5. }
  { change (manifests (started t b)) with (manifests b). rewrite I4', <- Hmx, <- Hm'.
    apply G3. intros j tj Hj Htj.
    destruct (Hdistinct j tj Hj Htj) as (? & ? & ?). done. }
  change (manifests (started t a)) with (manifests a) in Hm.
  change (manifests (started t b)) with (manifests b) in Hm2.
  change (files (started t b)) with (files b) in Hf2.
  change (hashed (started t b)) with (hashed b) in Hh2.
  change (spawned (started t b)) with (spawned b) in Hsp2.
  change (allTasks (started t b))
    with (alter (set_status running) (key t) (allTasks b)) in Hn2.
  change (allTasks (started t a))
    with (alter (set_status running) (key t) (allTasks a)) in Hn.
  rewrite Hkey, lookup_alter_eq, Hb in Hn2. rewrite Hkey, lookup_alter_eq, Ha in Hn.
  simpl in Hn, Hn2.
  assert (manifests s1 !! getManifestPath (taskConfig t) = Some L) as HL.
  { rewrite (G3 (getManifestPath (taskConfig t))).
    - by rewrite Hm', Hmx, Hm, lookup_insert_eq.
    - intros j tj Hj Htj. destruct (Hdistinct j tj Hj Htj) as (? & ? & ?). done. }
  assert (manifests b_c = manifests s1) as Hmb.
  { rewrite Hm2, I4'. apply manifest_rewritten; [done|].
    destruct (decide (getNextManifestPath (taskConfig t) = getManifestPath (taskConfig t)))
      as [Heq|Hne]; [by left|right].
    apply G4.
    - intros j tj Hj Htj. destruct (Hdistinct j tj Hj Htj) as (? & ? & ?). done.
    - by rewrite Hm', Hmx, Hm, lookup_insert_ne, lookup_delete_eq. }
  assert (runStep env tasks tt k b = Ret tt (finished success_lazy t b_c)) as Estep.
  { eapply runStep_lazy; try done.
    - intros u. destruct (decide (u ∈ past)) as [Hu|Hu].
      + rewrite (I3 u Hu). done.
      + destruct (I1 u Hu) as [_ ->]. destruct (allTasks s0 !! u) as [tu|] eqn:Hu0; [|done].
        destruct (Hnode u tu Hu0) as (_ & Hp & _). simpl. rewrite Hp. done.
    - rewrite I4', HL. done. }
  destruct (finished_spec success_lazy t c b_c Hc) as (_ & Hfb & Hmb' & Hhb & Hsb & Hnb).
  destruct (IH (k :: past) (finished st t a_x) (finished success_lazy t b_c) Hnd)
    as (s2 & E3 & Hms2 & Hfs2 & Hhs2 & Hss2 & Hst2).
  - intros j Hj. destruct (Htodo j) as [Hjp Hjs]; [by right|]. split; [|done].
    apply not_elem_of_cons. split; [intros ->; done|done].
  - intros j Hj. apply not_elem_of_cons in Hj as [Hjk Hjp]. split.
    + rewrite F1 by done. by apply I1.
    + rewrite Hnb, Hkey, !lookup_alter_ne, Hn2, lookup_insert_ne, lookup_alter_ne by done.
      by apply I1.
  - intros j. rewrite Hn', Hnb, Hkey. destruct (decide (j = k)) as [->|Hj].
    + rewrite !lookup_alter_eq, Hnx, Hn, Hn2, !lookup_insert_eq. simpl.
      do 3 f_equal. rewrite Hf2, I4, <- Hfx.
      symmetry. exact (same_visible_outputs _ _ _ _ _ k t c G2 Ht0 Hk Hc).
    + rewrite !lookup_alter_ne, Hnx, Hn, Hn2, !lookup_insert_ne, !lookup_alter_ne by done.
      apply I2.
  - intros j Hj. rewrite Hnb, Hkey. apply elem_of_cons in Hj as [->|Hj].
    + by rewrite !lookup_alter_eq, Hn2, lookup_insert_eq.
    + assert (j ≠ k) by (intros ->; done).
      rewrite !lookup_alter_ne, Hn2, lookup_insert_ne, lookup_alter_ne by done.
      by apply I3.
  - by rewrite Hfb, Hf2.
  - by rewrite Hmb'.
  - intros j tj f Hj Hf. destruct (decide (j = k)) as [->|Hjk].
    + rewrite Hn', Hkey, !lookup_alter_eq, Hnx, Hn, lookup_insert_eq in Hj.
      simplify_eq/=. rewrite Hf'. by eapply watched_outputs.
    + rewrite F1 in Hj by done.
      apply (watched_mono _ _ todo (k :: todo)); [intros; by right|].
      eapply (watched_step _ _ [k] (k :: todo)); [|exact F2|by eapply I5].
      intros k' ->%list_elem_of_singleton. by left.
  - exact E.
  - intros j Hj. apply Hsucc. by right.
  - exists s2. split; [|split; [done|split; [done|split; [|split]]]].
    + simpl. unfold bind. by rewrite Estep.
    + by rewrite Hhs2, Hhb, Hh2.
    + by rewrite Hss2, Hsb, Hsp2.
    + intros j [Hj|Hj]; apply Hst2.
      * left. by right.
      * apply elem_of_cons in Hj as [->|Hj]; [left; by left|by right].
Qed.

End RerunLoop.

Section BackToBack.
Context `{Platform} `{Host}.


End BackToBack.

(** C1: the order table of [compareManifestTypes] names the type
    ['dependency task inputs'], which is never written, and lacks
    ['upstream package inputs'], which is; so the comparison puts
    ['upstream task inputs'] after ['upstream package inputs'], not before.
    And the loop over [runsAfter] follows the order of the configuration
    object: for [runsAfter: { test, lint }] it supplies the entry of
    [test::pkg] and then that of [lint::pkg], which is not ascending, and
    the builder refuses the second. *)
Theorem upstream_entries_out_of_canonical_order :
  indexOf order "upstream package inputs" = -1
  /\ compareManifestTypes "upstream task inputs" "upstream package inputs" = 1
  /\ compareManifestTypes "upstream package inputs" "upstream task inputs" = -1
  /\ tc_runsAfter (taskConfig ex_build) = [("test", inherits); ("lint", inherits)]
  /\ (exists mc s',
        forM (@runsAfterStep ex_platform ex_config ex_build) [("test", inherits)]
          (@initialBuilder ex_platform ex_build (ex_state ex_nodes), []) (ex_state ex_nodes)
        = Ret (mc, [[]]) s'
        /\ nextLines mc = [ {| ml_type := "upstream task inputs"; ml_id := "test::pkg";
                               ml_hash := "k-test"; ml_meta := None |} ]
        /\ @runsAfterStep ex_platform ex_config ex_build (mc, [[]]) ("lint", inherits) s'
           = Throw "Manifest entries out of order: upstream task inputs lint::pkg" s')
  /\ String.ltb "lint::pkg" "test::pkg" = true
  /\ exists s',
       @computeManifest ex_platform ∅ ex_config ex_build (ex_state ex_nodes)
       = Throw "Manifest entries out of order: upstream task inputs lint::pkg" s'.
Proof.
  repeat split; try (vm_compute; reflexivity).
  - eexists _, _. repeat split; vm_compute; reflexivity.
  - eexists. vm_compute. reflexivity.
Qed.


(** C2 does not extend to a run in which a command failed.  The runner of
    the model leaves the manifest of the failed task in place, which §9
    leaves open: the second run then takes the failed task for done and
    starts the tasks that the first run had to skip.  (Were the manifest
    discarded, the second run would start the failed task again.) *)
Lemma rerun_after_a_failure_starts_commands :
  ~ @back_to_back_lazy ws_platform (ws_host_with ws_failing_command) ∅ ws_graph ws_state.
Proof.
  intros Hc.
  set (H0 := ws_host_with ws_failing_command).
  set (s1 := outcome_state (@runAllTasks ws_platform H0 ∅ ws_graph ws_state)).
  set (s2 := outcome_state (@runAllTasks ws_platform H0 ∅ ws_graph
                              (next_process ws_state s1))).
  destruct (Hc s1 s2) as (_ & _ & Hs & _).
  - vm_compute. reflexivity.
  - vm_compute. reflexivity.
  - vm_compute in Hs. discriminate.
Qed.

(** Nor to a command that rewrites an input file of its task: the second
    run finds the file changed, hashes it and starts the command again. *)
Lemma command_that_rewrites_an_input_runs_again :
  ~ @back_to_back_lazy ws_platform (ws_host_with ws_formatting_command) ∅ ws_graph ws_state.
Proof.
  intros Hc.
  set (H0 := ws_host_with ws_formatting_command).
  set (s1 := outcome_state (@runAllTasks ws_platform H0 ∅ ws_graph ws_state)).
  set (s2 := outcome_state (@runAllTasks ws_platform H0 ∅ ws_graph
                              (next_process ws_state s1))).
  destruct (Hc s1 s2) as (_ & Hh & _ & _).
  - vm_compute. reflexivity.
  - vm_compute. reflexivity.
  - vm_compute in Hh. discriminate.
Qed.

(** The manifest of [ex_b_removed] is the one that the build of [lint] over
    the three files writes. *)
Lemma ex_three_manifest_built :
  manifests (outcome_state (@computeManifest ex_platform ∅ ex_config ex_lint ex_three_state))
  = manifests ex_b_removed.
Proof. vm_compute. reflexivity. Qed.


(** ** The theorems at work on the concrete workspace *)

Lemma cache_none_writes_nothing_and_runs_witness :
  tc_cache (taskConfig ex_bundle) = CacheNone
  /\ @computeManifest ex_platform ∅ ex_config ex_bundle (ex_state [ex_bundle])
     = Ret None (ex_state [ex_bundle]).
Proof.
  split; [reflexivity|].
  apply (@cache_none_writes_nothing_and_runs ex_platform (ex_host [ex_bundle] (fun _ => 0))
           ∅ ex_config ex_bundle (ex_state [ex_bundle])).
  reflexivity.
Defined.

Lemma unset_env_var_same_as_empty_witness :
  (∅ : gmap string string) !! "CI" = None
  /\ @computeManifest ex_platform (<["CI" := ""]> ∅) ex_config ex_test (ex_state [ex_test])
     = @computeManifest ex_platform ∅ ex_config ex_test (ex_state [ex_test]).
Proof.
  split; [reflexivity|].
  apply (@unset_env_var_same_as_empty ex_platform ∅ "CI" ex_config ex_test
           (@initialBuilder ex_platform ex_test (ex_state [ex_test])) (ex_state [ex_test])).
  reflexivity.
Defined.

Lemma missing_upstream_cache_key_throws_witness :
  tc_cache (taskConfig ex_build) = CacheObject (cache_of ex_build)
  /\ inputManifestCacheKey ex_test = None
  /\ exists msg s',
       @computeManifest ex_platform ∅ ex_config ex_build
         (ex_state [ex_build; ex_test; with_key "k-lint" ex_lint]) = Throw msg s'
       /\ same_but_dirs (ex_state [ex_build; ex_test; with_key "k-lint" ex_lint]) s'.
Proof.
  split; [reflexivity|]. split; [reflexivity|].
  apply (@missing_upstream_cache_key_throws ex_platform ∅ ex_config ex_build
           (cache_of ex_build)); [reflexivity|].
  left. exists "test", inherits, "test::pkg", ex_test.
  split; [left|]. split; [reflexivity|]. split; [reflexivity|].
  split; [vm_compute; reflexivity|reflexivity].
Defined.

Lemma runsAfter_absent_node_witness :
  (* [lint] orders only: passed over *)
  @runsAfterStep ex_platform ex_config ex_deploy
    (@initialBuilder ex_platform ex_deploy (ex_state [ex_deploy]), [])
    ("lint", ordering_only) (ex_state [ex_deploy])
  = Ret (@initialBuilder ex_platform ex_deploy (ex_state [ex_deploy]), [])
      (ex_state [ex_deploy])
  (* [setup] is top-level and has no node: an error *)
  /\ @runsAfterStep ex_platform ex_config ex_deploy
       (@initialBuilder ex_platform ex_deploy (ex_state [ex_deploy]), [])
       ("setup", inherits) (ex_state [ex_deploy])
     = Throw "Missing task: setup::<rootDir>." (ex_state [ex_deploy])
  (* [check] is not top-level and has no node: nothing happens *)
  /\ @runsAfterStep ex_platform ex_config ex_deploy
       (@initialBuilder ex_platform ex_deploy (ex_state [ex_deploy]), [])
       ("check", inherits) (ex_state [ex_deploy])
     = Ret (@initialBuilder ex_platform ex_deploy (ex_state [ex_deploy]), [])
         (ex_state [ex_deploy]).
Proof.
  split; [|split].
  - apply (proj1 (@runsAfter_absent_node ex_platform ∅ ex_config ex_deploy
                    (cache_of ex_deploy) _ [] "lint" ordering_only (ex_state [ex_deploy])));
      reflexivity.
  - apply (proj2 (@runsAfter_absent_node ex_platform ∅ ex_config ex_deploy
                    (cache_of ex_deploy) _ [] "setup" inherits (ex_state [ex_deploy]))
             "setup::<rootDir>").
    + intros [Hi _]. discriminate Hi.
    + reflexivity.
    + vm_compute. reflexivity.
    + reflexivity.
  - apply (proj2 (@runsAfter_absent_node ex_platform ∅ ex_config ex_deploy
                    (cache_of ex_deploy) _ [] "check" inherits (ex_state [ex_deploy]))
             "check::pkg").
    + intros [Hi _]. discriminate Hi.
    + reflexivity.
    + vm_compute. reflexivity.
    + intros Ht. discriminate Ht.
Defined.

Lemma getConfigFromDir_file_count_witness :
  (1 < length (@configFilesIn ex_platform "/w" ex_two_configs))%nat
  /\ @fail_reports ex_returning_host
  /\ (exists code s',
        @getConfigFromDir ex_platform ex_returning_host "/w" ex_two_configs = Exit code s'
        /\ code ≠ 0 /\ spawned s' = spawned ex_two_configs)
  /\ @configFilesIn ex_platform "/w" (ex_state []) = []
  /\ @getConfigFromDir ex_platform ex_returning_host "/w" (ex_state [])
     = Ret {| filePath := None; config := emptyLazyConfig |} (ex_state []).
Proof.
  assert (@fail_reports ex_returning_host) as Hfail.
  { intros headline more s. left. eexists. split; reflexivity. }
  split; [vm_compute; lia|]. split; [exact Hfail|]. split.
  - apply (proj1 (@getConfigFromDir_file_count ex_platform ex_returning_host "/w"
                    ex_two_configs)); [vm_compute; lia|exact Hfail].
  - assert (@configFilesIn ex_platform "/w" (ex_state []) = []) as Hnone
      by (vm_compute; reflexivity).
    split; [exact Hnone|].
    exact (proj2 (@getConfigFromDir_file_count ex_platform ex_returning_host "/w"
                    (ex_state [])) Hnone).
Defined.

Lemma run_exit_status_witness :
  @logger_follows_spec ex_run_host
  /\ exitCode (@run ex_platform ex_run_host ∅ "test" no_options (ex_state [])) = 0.
Proof.
  assert (@logger_follows_spec ex_run_host) as Hlog.
  { split; [|split].
    - intros headline more s. exists 1. eexists. split; [reflexivity|lia].
    - intros m s. eexists. reflexivity.
    - intros s. exists s. split; reflexivity. }
  split; [exact Hlog|].
  set (o1 := @Config_from ex_platform ex_run_host (@process_cwd ex_run_host) (ex_state [])).
  set (o2 := @newTaskGraph ex_run_host (value_or ex_config o1)
               (requestedTasksOf "test" no_options) (outcome_state o1)).
  set (tasks := value_or (ex_graph []) o2).
  set (o3 := @runAllTasks ex_platform ex_run_host ∅ tasks (outcome_state o2)).
  destruct (@run_exit_status ex_platform ex_run_host ∅ "test" no_options
              (value_or ex_config o1) tasks (ex_state []) (outcome_state o1)
              (outcome_state o2) Hlog) as [_ Hrun].
  - vm_compute. reflexivity.
  - vm_compute. reflexivity.
  - destruct (Hrun (outcome_state o3)) as [_ Hok].
    + vm_compute. discriminate.
    + vm_compute. reflexivity.
    + apply Hok. intros k Hk.
      assert (k = "test::pkg") as ->.
      { vm_compute in Hk. apply list_elem_of_singleton in Hk. exact Hk. }
      eexists. split; [vm_compute; reflexivity|]. left. reflexivity.
Defined.



(** *** The workspace of the dependent tasks *)

Lemma omap_pointwise {A B} (f g : A -> option B) (l : list A) :
  (forall x, x ∈ l -> f x = g x) -> omap f l = omap g l.
Proof.
  induction l as [|x l IH]; intros Hfg; [done|].
  assert (omap f l = omap g l) as IH' by (apply IH; intros y Hy; apply Hfg; by right).
  change (omap f (x :: l)) with (match f x with Some y => y :: omap f l | None => omap f l end).
  change (omap g (x :: l)) with (match g x with Some y => y :: omap g l | None => omap g l end).
  rewrite (Hfg x) by (by left). by rewrite IH'.
Qed.

(** A path that the glob does not list is nothing to it. *)
Lemma ws_glob_insert patterns ignore cwd (fs : gmap string FileInfo) p v :
  ws_listed patterns ignore cwd p = false ->
  ws_glob patterns ignore cwd (<[p := v]> fs) = ws_glob patterns ignore cwd fs.
Proof.
  intros Hp. unfold ws_glob. apply omap_pointwise. intros q _.
  destruct (decide (q = p)) as [->|Hq].
  - by rewrite Hp.
  - by rewrite lookup_insert_ne.
Qed.

Lemma ws_glob_listed patterns ignore cwd (fs : gmap string FileInfo) f :
  f ∈ ws_glob patterns ignore cwd fs ->
  exists q, q ∈ ws_paths /\ ws_listed patterns ignore cwd q = true
            /\ f = demo_relative "/w" q.
Proof.
  unfold ws_glob. intros (q & Hq & Hf)%list_elem_of_omap. exists q. split; [done|].
  destruct (ws_listed patterns ignore cwd q); [|done].
  destruct (bool_decide _); [|done]. simpl in Hf. by injection Hf as <-.
Qed.

Lemma ws_nodes k t :
  allTasks ws_state !! k = Some t ->
  (k = key ws_build_utils /\ t = ws_build_utils)
  \/ (k = key ws_build_core /\ t = ws_build_core).
Proof.
  intros Hk. unfold ws_state in Hk. simpl in Hk.
  apply lookup_insert_Some in Hk as [[<- <-]|[_ Hk]];
    [left; split; vm_compute; reflexivity|].
  apply lookup_insert_Some in Hk as [[<- <-]|[_ Hk]];
    [right; split; vm_compute; reflexivity|].
  by rewrite lookup_empty in Hk.
Qed.

Lemma ws_cached t :
  t = ws_build_utils \/ t = ws_build_core ->
  tc_cache (taskConfig t) = CacheObject (cache_of t).
Proof. intros [-> | ->]; reflexivity. Qed.

Lemma ws_command_writes t (s : State) code s' :
  ws_command "4321" t s = Ret code s' ->
  files s'
  = <[taskDir t +:+ "/.out.txt" := {| f_content := "4321"; f_mtimeMs := "4321" |}]>
      (<[taskDir t +:+ "/dist/index.js" := {| f_content := "built"; f_mtimeMs := "4321" |}]>
         (files s))
  /\ manifests s' = manifests s /\ allTasks s' = allTasks s.
Proof. unfold ws_command, bind, modify, ret. by intros [= <- <-]. Qed.

Ltac ws_paths_cases H :=
  unfold ws_paths in H;
  repeat (apply elem_of_cons in H as [->|H]); [..|by apply elem_of_nil in H].

Lemma ws_commands_leave_inputs :
  @commands_leave_inputs ws_platform ws_host (tg_config ws_graph) (allTasks ws_state).
Proof.
  intros k task s code s' Hk E.
  destruct (ws_command_writes task s code s' E) as (Hf & Hm & Hn).
  split; [|done]. rewrite Hf. clear Hf E Hm Hn.
  assert (forall k' t', allTasks ws_state !! k' = Some t' ->
            t' = ws_build_utils \/ t' = ws_build_core) as Hnodes.
  { intros k' t' Hk'. destruct (ws_nodes k' t' Hk') as [[_ ->]|[_ ->]]; [by left|by right]. }
  split.
  - intros k' t' Hk'. split.
    + unfold inputGlobsOf. rewrite (ws_cached t') by (by eapply Hnodes).
      cbv [glob_sync ws_platform].
      destruct (ws_nodes k task Hk) as [[_ ->]|[_ ->]],
               (ws_nodes k' t' Hk') as [[_ ->]|[_ ->]];
        by rewrite !ws_glob_insert by (vm_compute; reflexivity).
    + intros Hne. apply not_elem_of_cons in Hne as [Hne _].
      unfold outputGlobOf. rewrite (ws_cached t') by (by eapply Hnodes).
      cbv [glob_sync ws_platform].
      destruct (ws_nodes k task Hk) as [[-> ->]|[-> ->]],
               (ws_nodes k' t' Hk') as [[-> ->]|[-> ->]]; try done;
        by rewrite !ws_glob_insert by (vm_compute; reflexivity).
  - intros f (k' & t' & Hk' & Hw).
    assert (exists patterns ignore cwd q,
              q ∈ ws_paths /\ ws_listed patterns ignore cwd q = true
              /\ f = demo_relative "/w" q
              /\ ((patterns = ["**/*"]
                   /\ ignore = ["dist/**/*"; @path_join ws_platform [taskDir t'; ".lazy"]]
                   /\ cwd = taskDir t')
                  \/ (patterns = ["dist/**/*"] /\ ignore = [] /\ cwd = taskDir t' /\ k' ≠ k)
                  \/ patterns = includes (getBaseCacheConfig ws_config (taskDir t'))))
      as (patterns & ignore & cwd & q & Hq & Hl & -> & Hpat).
    { destruct Hw as [Hw|[Hne Hw]].
      - unfold inputGlobsOf in Hw. rewrite (ws_cached t') in Hw by (by eapply Hnodes).
        cbv [glob_sync ws_platform] in Hw.
        cbn [concat app] in Hw. rewrite app_nil_r in Hw.
        apply elem_of_app in Hw as [Hw|Hw];
          apply ws_glob_listed in Hw as (q & Hq & Hl & ->).
        + eexists _, _, _, q. repeat (split; [done|]). right. right. reflexivity.
        + eexists _, _, _, q. repeat (split; [done|]). left.
          by destruct (Hnodes k' t' Hk') as [-> | ->].
      - apply not_elem_of_cons in Hne as [Hne _].
        unfold outputGlobOf in Hw. rewrite (ws_cached t') in Hw by (by eapply Hnodes).
        cbv [glob_sync ws_platform] in Hw.
        apply ws_glob_listed in Hw as (q & Hq & Hl & ->).
        eexists _, _, _, q. repeat (split; [done|]). right. left.
        by destruct (Hnodes k' t' Hk') as [-> | ->]. }
    destruct (ws_nodes k task Hk) as [[-> ->]|[-> ->]],
             (ws_nodes k' t' Hk') as [[-> ->]|[-> ->]];
      destruct Hpat as [(-> & -> & ->)|[(-> & -> & -> & Hne)| ->]]; try done;
      ws_paths_cases Hq; vm_compute in Hl; try discriminate Hl;
      by rewrite !lookup_insert_ne by (vm_compute; discriminate).
Qed.

Lemma ws_graph_ready : @graph_ready ws_platform ws_graph ws_state.
Proof.
  split; [|split; [|split]].
  - simpl. apply NoDup_cons. split; [|apply NoDup_singleton].
    intros Hin%list_elem_of_singleton. vm_compute in Hin. discriminate.
  - intros k t Hk. destruct (ws_nodes k t Hk) as [[-> ->]|[-> ->]]; done.
  - intros k Hk. simpl in Hk.
    apply elem_of_cons in Hk as [->|Hk].
    { exists ws_build_utils. split; [vm_compute; reflexivity|]. done. }
    apply elem_of_cons in Hk as [->|Hk].
    { exists ws_build_core. split; [vm_compute; reflexivity|]. done. }
    by apply elem_of_nil in Hk.
  - intros k k' t t' _ _ Hne Hk Hk'.
    destruct (ws_nodes k t Hk) as [[-> ->]|[-> ->]],
             (ws_nodes k' t' Hk') as [[-> ->]|[-> ->]]; try done;
      split; vm_compute; discriminate.
Qed.


(** * Further properties *)

(** ** The colour of a task name *)

Lemma toInt32_range x : - 2 ^ 31 <= toInt32 x < 2 ^ 31.
Proof. unfold toInt32. pose proof (Z.mod_pos_bound (x + 2 ^ 31) (2 ^ 32)). lia. Qed.

Lemma hashCodes_bound_from (codes : list Z) (h : Z) :
  Forall (fun c => 0 <= c < 2 ^ 16) codes ->
  Z.abs (fold_left hashStep codes h)
  <= Z.abs h + Z.of_nat (length codes) * (2 ^ 31 + 2 ^ 16).
Proof.
  intros Hc. revert h. induction Hc as [|c codes Hc _ IH]; intros h; simpl fold_left.
  - simpl. lia.
  - specialize (IH (hashStep h c)).
    assert (Z.abs (hashStep h c) <= Z.abs h + (2 ^ 31 + 2 ^ 16)).
    { unfold hashStep, shiftLeft. pose proof (toInt32_range (Z.shiftl (toInt32 h) 5)). lia. }
    rewrite length_cons, Nat2Z.inj_succ. lia.
Qed.

(** X1: [getColorForString] always answers one of the five colour pairs of
    its table, whatever the code units of its argument are: the index
    [Math.abs(hash % colors.length)] never leaves the array, so the result
    is never [undefined]. *)
Theorem getColorForString_defined (codes : list Z) (str : string) :
  (exists c, getColorForCodes codes = Some c /\ c ∈ colors)
  /\ (exists c, getColorForString str = Some c /\ c ∈ colors).
Proof.
  assert (forall l, exists c, getColorForCodes l = Some c /\ c ∈ colors) as Hall.
  { intros l. unfold getColorForCodes.
    destruct (lookup_lt_is_Some_2 colors (Z.to_nat (colorIndex l))) as [c Hc].
    - unfold colorIndex. simpl length.
      pose proof (Z.rem_bound_abs (hashCodes l) 5). lia.
    - exists c. split; [done|]. by eapply list_elem_of_lookup_2. }
  split; [apply Hall|apply Hall].
Qed.

(** X2: the hash that [getColorForString] accumulates over a string of [n]
    UTF-16 code units stays within [n * (2^31 + 2^16)] in absolute value;
    for a string of up to [2^21] code units it is below [2^53], the range in
    which a JavaScript number holds every integer exactly. *)
Theorem hashCodes_exact_in_double (codes : list Z) :
  Forall (fun c => 0 <= c < 2 ^ 16) codes ->
  Z.of_nat (length codes) <= 2 ^ 21 ->
  Z.abs (hashCodes codes) <= Z.of_nat (length codes) * (2 ^ 31 + 2 ^ 16)
  /\ Z.abs (hashCodes codes) < 2 ^ 53.
Proof.
  intros Hc Hn. pose proof (hashCodes_bound_from codes 0 Hc) as Hb.
  unfold hashCodes. split; [lia|nia].
Qed.

(** ** Strings *)

Lemma str_app_cons (x : Ascii.ascii) (a b : string) :
  String x a +:+ b = String x (a +:+ b).
Proof. reflexivity. Qed.

Lemma str_app_nil_l (a : string) : "" +:+ a = a.
Proof. reflexivity. Qed.

Lemma str_app_assoc (a b c : string) : (a +:+ b) +:+ c = a +:+ (b +:+ c).
Proof.
  induction a as [|x a IH]; [done|]. rewrite !str_app_cons. by f_equal.
Qed.

Lemma str_length_app (a b : string) :
  String.length (a +:+ b) = (String.length a + String.length b)%nat.
Proof.
  induction a as [|x a IH]; [done|]. rewrite str_app_cons. simpl. by f_equal.
Qed.

Lemma concat_cons_app sep a l ls :
  String.concat sep ((a +:+ l) :: ls) = a +:+ String.concat sep (l :: ls).
Proof. destruct ls; simpl; [done|]. by rewrite str_app_assoc. Qed.

Lemma concat_cons_cons sep (x y : string) ys :
  String.concat sep (x :: y :: ys) = x +:+ sep +:+ String.concat sep (y :: ys).
Proof. reflexivity. Qed.

(** ** prefixLines *)

Lemma getSubstitution_plain before after p :
  hasChar dollar p = false -> getSubstitution before after p = p.
Proof.
  induction p as [|c p IH]; simpl; [done|].
  intros Hp. apply orb_false_iff in Hp as [Hc Hp].
  apply bool_decide_eq_false in Hc.
  rewrite decide_False by done. by rewrite IH.
Qed.

Lemma split_newline_cons s : exists l ls, split_newline s = l :: ls.
Proof.
  induction s as [|c s (l & ls & IH)]; simpl; [by eexists _, _|].
  destruct (decide (c = newline)); [by eexists _, _|].
  rewrite IH. by eexists _, _.
Qed.

Lemma isLineTerminator_cases c :
  isLineTerminator c = true -> c = newline \/ c = carriageReturn.
Proof.
  unfold isLineTerminator, charCode. intros Hc. apply orb_true_iff in Hc as [Hc|Hc];
    apply bool_decide_eq_true in Hc; [left|right];
    rewrite <- (Ascii.ascii_N_embedding c), Hc; reflexivity.
Qed.

Lemma prefixLinesFrom_linewise p before s l ls :
  hasChar dollar p = false ->
  hasChar carriageReturn s = false ->
  split_newline s = l :: ls ->
  prefixLinesFrom p before s
  = String.concat (String newline "") (l :: ((fun x => p +:+ x) <$> ls)).
Proof.
  intros Hp. revert before l ls.
  induction s as [|c s IH]; intros before l ls Hs Hsplit.
  - simpl in Hsplit. by simplify_eq.
  - simpl hasChar in Hs. simpl split_newline in Hsplit. simpl prefixLinesFrom.
    apply orb_false_iff in Hs as [Hc Hs]. apply bool_decide_eq_false in Hc.
    destruct (split_newline_cons s) as (l' & ls' & E).
    rewrite (IH (before +:+ String c "") l' ls' Hs E).
    destruct (decide (c = newline)) as [->|Hn].
    + simplify_eq. rewrite E, fmap_cons, concat_cons_cons, str_app_nil_l, str_app_cons.
      rewrite getSubstitution_plain by done.
      replace (isLineTerminator newline) with true by reflexivity.
      by rewrite (concat_cons_app _ p l' _).
    + rewrite E in Hsplit. simplify_eq.
      destruct (isLineTerminator c) eqn:Hlt.
      { apply isLineTerminator_cases in Hlt as [?|?]; done. }
      rewrite str_app_nil_l. change (String c l') with (String c "" +:+ l').
      by rewrite concat_cons_app.
Qed.

(** X3: for a prefix without a dollar sign and a text whose code units are
    all below 256 (so without U+2028 and U+2029, after which [/^/gm] matches
    too) and which has no carriage return, [prefixLines] is the text split at
    its newlines, the prefix put in front of every line (the empty line
    after a final newline included), and the lines joined by newlines
    again. *)
Theorem prefixLines_linewise (prefix str : string) :
  hasChar dollar prefix = false ->
  hasChar carriageReturn str = false ->
  prefixLines prefix str
  = String.concat (String newline "") ((fun l => prefix +:+ l) <$> split_newline str).
Proof.
  intros Hp Hs. unfold prefixLines. rewrite getSubstitution_plain by done.
  destruct (split_newline_cons str) as (l & ls & E).
  rewrite (prefixLinesFrom_linewise prefix "" str l ls Hp Hs E), E.
  rewrite fmap_cons. by rewrite concat_cons_app.
Qed.

Lemma prefixLinesFrom_length p before s :
  hasChar dollar p = false ->
  String.length (prefixLinesFrom p before s)
  = (String.length s + String.length p * countLineTerminators s)%nat.
Proof.
  intros Hp. revert before. induction s as [|c s IH]; intros before; simpl; [lia|].
  rewrite str_length_app, IH.
  destruct (isLineTerminator c).
  - rewrite getSubstitution_plain by done. lia.
  - simpl. lia.
Qed.


(** ** lastNonEmptyLineIfPossible and decapitalize *)

Lemma trimStart_nil s : trimStart s = "" <-> allWhiteSpace s = true.
Proof.
  induction s as [|c s IH]; simpl; [done|].
  destruct (isWhiteSpace c); simpl; [done|]. split; discriminate.
Qed.

Lemma trimEnd_nil s : trimEnd s = "" <-> allWhiteSpace s = true.
Proof.
  induction s as [|c s IH]; simpl; [done|].
  destruct (trimEnd s) eqn:E.
  - destruct (isWhiteSpace c); simpl; [tauto|]. split; discriminate.
  - split; [discriminate|]. intros Hw. apply andb_true_iff in Hw as [_ Hw].
    apply IH in Hw. discriminate.
Qed.

Lemma trimStart_allWhiteSpace s :
  allWhiteSpace (trimStart s) = true -> allWhiteSpace s = true.
Proof.
  induction s as [|c s IH]; simpl; [done|].
  destruct (isWhiteSpace c) eqn:E; simpl; [done|]. by rewrite E.
Qed.

Lemma trim_nil s : trim s = "" <-> allWhiteSpace s = true.
Proof.
  unfold trim. rewrite trimEnd_nil. split; [apply trimStart_allWhiteSpace|].
  intros Hw. apply trimStart_nil in Hw. by rewrite Hw.
Qed.

Lemma allWhiteSpace_split s :
  allWhiteSpace s = true
  <-> Forall (fun l => allWhiteSpace l = true) (split_newline s).
Proof.
  induction s as [|c s IH]; simpl.
  - split; [by repeat constructor|done].
  - destruct (decide (c = newline)) as [->|Hn].
    + replace (isWhiteSpace newline) with true by reflexivity. simpl.
      rewrite IH. split; [by constructor|by inversion 1].
    + destruct (split_newline_cons s) as (l & ls & E). rewrite E in IH |- *.
      rewrite andb_true_iff, IH. split.
      * intros [Hc Hl]. inversion Hl; subst. constructor; [|done]. simpl.
        by rewrite Hc.
      * inversion 1 as [|?? Hl Hls]; subst. simpl in Hl.
        apply andb_true_iff in Hl as [??]. split; [done|by constructor].
Qed.

Lemma split_newline_no_newline s l :
  l ∈ split_newline s -> hasChar newline l = false.
Proof.
  revert l. induction s as [|c s IH]; intros l; simpl.
  - by intros ->%list_elem_of_singleton.
  - destruct (decide (c = newline)) as [->|Hn].
    + intros [->| Hl]%elem_of_cons; [done|by apply IH].
    + destruct (split_newline_cons s) as (l' & ls & E). rewrite E in IH |- *.
      intros [->| Hl]%elem_of_cons.
      * simpl. rewrite bool_decide_eq_false_2 by done. apply IH. by left.
      * apply IH. by right.
Qed.

Lemma lastNonEmptyLineBelow_spec lines n :
  let r := lastNonEmptyLineBelow lines n in
  (r = "" /\ Forall (fun l => allWhiteSpace l = true) (take n lines))
  \/ (exists i, (i < n)%nat /\ lines !! i = Some r /\ allWhiteSpace r = false
                /\ Forall (fun l => allWhiteSpace l = true) (drop (S i) (take n lines))).
Proof.
  induction n as [|n IH]; simpl.
  - left. by rewrite take_0.
  - destruct (lines !! n) as [line|] eqn:E.
    + rewrite (take_S_r _ _ _ E).
      destruct (decide (trim line = "")) as [Ht|Ht].
      * apply trim_nil in Ht. destruct IH as [[Hr Hall]|(i & Hi & Hl & Hr & Hall)].
        -- left. split; [done|]. apply Forall_app. by repeat constructor.
        -- right. exists i. split; [lia|]. split; [done|]. split; [done|].
           rewrite drop_app_le by (rewrite length_take; apply lookup_lt_Some in Hl; lia).
           apply Forall_app. by repeat constructor.
      * right. exists n. split; [lia|]. split; [done|]. split.
        -- destruct (allWhiteSpace line) eqn:Hw; [|done]. by apply trim_nil in Hw.
        -- rewrite drop_ge; [constructor|].
           rewrite length_app, length_take. simpl. lia.
    + apply lookup_ge_None in E. rewrite take_ge by lia.
      rewrite take_ge in IH by lia.
      destruct IH as [?|(i & Hi & Hl & Hr & Hall)]; [by left|].
      right. exists i. split; [lia|]. done.
Qed.

(** X5: [lastNonEmptyLineIfPossible] answers the empty string exactly when
    its argument holds nothing but white space (the empty string
    included). *)
Theorem lastNonEmptyLine_empty_iff_blank (str : string) :
  lastNonEmptyLineIfPossible str = "" <-> allWhiteSpace str = true.
Proof.
  unfold lastNonEmptyLineIfPossible.
  pose proof (lastNonEmptyLineBelow_spec (split_newline str)
                (length (split_newline str))) as Hspec.
  simpl in Hspec. rewrite take_ge in Hspec by done. rewrite allWhiteSpace_split.
  destruct Hspec as [[Hr Hall]|(i & Hi & Hl & Hr & Hall)].
  - tauto.
  - split.
    + intros E. rewrite E in Hr. done.
    + intros Hall'. rewrite Forall_forall in Hall'.
      apply list_elem_of_lookup_2, Hall' in Hl. congruence.
Qed.

(** X6: when its argument holds something other than white space,
    [lastNonEmptyLineIfPossible] answers one of its lines, untrimmed: the
    last line that is not blank; every line after it is blank, and the
    answer holds no newline. *)
Theorem lastNonEmptyLine_is_last_non_blank (str : string) :
  allWhiteSpace str = false ->
  let r := lastNonEmptyLineIfPossible str in
  exists before after,
    split_newline str = before ++ r :: after
    /\ Forall (fun l => allWhiteSpace l = true) after
    /\ allWhiteSpace r = false
    /\ hasChar newline r = false.
Proof.
  intros Hw r. subst r. unfold lastNonEmptyLineIfPossible.
  pose proof (lastNonEmptyLineBelow_spec (split_newline str)
                (length (split_newline str))) as Hspec.
  simpl in Hspec. rewrite take_ge in Hspec by done.
  destruct Hspec as [[Hr Hall]|(i & Hi & Hl & Hr & Hall)].
  - apply allWhiteSpace_split in Hall. congruence.
  - exists (take i (split_newline str)), (drop (S i) (split_newline str)).
    split; [by rewrite take_drop_middle|]. split; [done|]. split; [done|].
    eapply split_newline_no_newline, list_elem_of_lookup_2, Hl.
Qed.

Lemma toLowerCase_char_idem c : toLowerCase_char (toLowerCase_char c) = toLowerCase_char c.
Proof. destruct c as [[] [] [] [] [] [] [] []]; reflexivity. Qed.

(** X7: on a string whose code units are all below 256, the empty string
    included, [decapitalize] keeps the length, and decapitalizing twice is
    the same as decapitalizing once.  (From 256 on [toLowerCase] may give
    two code units for one, as for U+0130.) *)
Theorem decapitalize_idempotent (str : string) :
  decapitalize (decapitalize str) = decapitalize str
  /\ String.length (decapitalize str) = String.length str.
Proof.
  destruct str as [|c rest]; [done|]. unfold decapitalize.
  rewrite str_app_cons, str_app_nil_l. split; [|done].
  rewrite str_app_cons, str_app_nil_l. by rewrite toLowerCase_char_idem.
Qed.

(** ** compareManifestTypes *)

Lemma indexOf_ge l x : -1 <= indexOf l x.
Proof.
  induction l as [|y l IH]; simpl; [lia|].
  destruct (decide (y = x)); [lia|]. destruct (decide (indexOf l x = -1)); lia.
Qed.

Lemma indexOf_absent l x : indexOf l x = -1 <-> x ∉ l.
Proof.
  induction l as [|y l IH]; simpl.
  - split; [intros _; apply not_elem_of_nil|done].
  - rewrite not_elem_of_cons. pose proof (indexOf_ge l x).
    destruct (decide (y = x)) as [->|Hne].
    + split; [lia|]. intros [? _]. done.
    + destruct (decide (indexOf l x = -1)) as [E|E].
      * split; [|done]. intros _. split; [done|]. by apply IH.
      * split; [lia|]. intros [_ Hx]. apply IH in Hx. done.
Qed.

Lemma indexOf_lookup l x : 0 <= indexOf l x -> l !! Z.to_nat (indexOf l x) = Some x.
Proof.
  induction l as [|y l IH]; simpl; [lia|].
  destruct (decide (y = x)) as [->|Hne]; [done|].
  destruct (decide (indexOf l x = -1)) as [E|E]; [lia|]. intros _.
  pose proof (indexOf_ge l x).
  replace (Z.to_nat (indexOf l x + 1)) with (S (Z.to_nat (indexOf l x))) by lia.
  simpl. apply IH. lia.
Qed.

Lemma indexOf_inj l x y : 0 <= indexOf l x -> indexOf l x = indexOf l y -> x = y.
Proof.
  intros Hx E. pose proof (indexOf_lookup l x Hx) as H1.
  rewrite E in Hx. pose proof (indexOf_lookup l y Hx) as H2.
  rewrite E in H1. congruence.
Qed.

(** X8: [compareManifestTypes] is a consistent comparator, as
    [Array.prototype.sort] asks for: a type compares equal to itself,
    swapping the arguments negates the answer, and "not after" is
    transitive. *)
Theorem compareManifestTypes_consistent (a b c : string) :
  compareManifestTypes a a = 0
  /\ compareManifestTypes b a = - compareManifestTypes a b
  /\ (compareManifestTypes a b <= 0 -> compareManifestTypes b c <= 0 ->
      compareManifestTypes a c <= 0).
Proof.
  unfold compareManifestTypes.
  generalize (indexOf order a) (indexOf order b) (indexOf order c). intros i j k.
  repeat match goal with |- context [decide ?P] => destruct (decide P) end; lia.
Qed.

(** X9: [compareManifestTypes] answers [0] for two equal types and for two
    types that are both missing from its table, and in no other case. *)
Theorem compareManifestTypes_zero (a b : string) :
  compareManifestTypes a b = 0 <-> a = b \/ ((a ∉ order) /\ (b ∉ order)).
Proof.
  unfold compareManifestTypes.
  rewrite <- (indexOf_absent order a), <- (indexOf_absent order b).
  pose proof (indexOf_ge order a). pose proof (indexOf_ge order b).
  destruct (decide (indexOf order a = indexOf order b)) as [E|E].
  - split; [intros _|done].
    destruct (decide (indexOf order a = -1)); [right; lia|].
    left. apply (indexOf_inj order); [lia|done].
  - split.
    + repeat match goal with |- context [decide ?P] => destruct (decide P) end; lia.
    + intros [->|[??]]; [done|lia].
Qed.

(** X10: a type that is missing from the table of [compareManifestTypes]
    sorts before every type of the table. *)
Theorem compareManifestTypes_unlisted_first (a b : string) :
  a ∉ order -> b ∈ order ->
  compareManifestTypes a b = -1 /\ compareManifestTypes b a = 1.
Proof.
  intros Ha%indexOf_absent Hb. unfold compareManifestTypes.
  assert (indexOf order b ≠ -1) as Hb' by (by intros ?%indexOf_absent).
  pose proof (indexOf_ge order b).
  repeat match goal with |- context [decide ?P] => destruct (decide P) end; lia.
Qed.


(** ** Loading the configuration *)

Lemma forM_Ret_invariant {St A B} (I : A -> Prop) (body : A -> B -> M St A)
    (l : list B) (a : A) (s : St) a' s' :
  (forall acc x s1 acc' s2, x ∈ l -> I acc -> body acc x s1 = Ret acc' s2 -> I acc') ->
  I a -> forM body l a s = Ret a' s' -> I a'.
Proof.
  revert a s. induction l as [|x l IH]; intros a s Hstep Ha; simpl.
  - unfold ret. by intros [= <- _].
  - intros (acc & s1 & E1 & E2)%bind_Ret.
    eapply (IH acc s1); [|by eapply Hstep; [left|exact Ha|exact E1]|exact E2].
    intros acc0 x0 s0 acc' s2 Hin. apply Hstep. by right.
Qed.

Section ConfigExtras.
Context `{Platform} `{Host}.

(** X11: [getConfigFromDir] returns only for a directory that holds at
    most one [lazy.config.*] file, whatever the logger does.  With none
    it returns the empty configuration, no file path, and leaves the state
    alone; with one, named by one of the seven file names, it returns what
    loading that file gave, with the path of the file joined to the
    directory. *)
Theorem getConfigFromDir_returns dir s lc s' :
  getConfigFromDir dir s = Ret lc s' ->
  (configFilesIn dir s = []
   /\ lc = {| filePath := None; config := emptyLazyConfig |} /\ s' = s)
  \/ (exists n cfg,
        configFilesIn dir s = [n] /\ n ∈ configFileNames
        /\ loadConfigObject dir (path_join [dir; n]) s = Ret (Some cfg) s'
        /\ lc = {| filePath := Some (path_join [dir; n]); config := cfg |}).
Proof.
  assert (globConfigFiles dir s
          = Ret ((fun n => path_join [dir; n]) <$> configFilesIn dir s) s) as Hglob by done.
  unfold getConfigFromDir. unfold bind at 1. rewrite Hglob.
  destruct (configFilesIn dir s) as [|n [|m ns]] eqn:E.
  - rewrite decide_False by (simpl; lia). simpl. unfold bind, ret.
    intros [= <- <-]. by left.
  - rewrite decide_False by (simpl; lia). unfold bind at 1. unfold ret at 1.
    simpl. intros (cfg & s1 & E1 & E2)%bind_Ret.
    destruct cfg as [cfg|]; [|done]. unfold ret in E2. simplify_eq.
    right. exists n, cfg. split; [done|]. split; [|done].
    assert (n ∈ configFilesIn dir s) as Hn by (rewrite E; left).
    by apply list_elem_of_filter in Hn as [? _].
  - rewrite decide_True by (simpl; lia). unfold bind.
    destruct (logger_fail _ _ s); done.
Qed.

(** X12: in the configuration that [Config.from] returns, every entry of
    [packageDirConfigs] sits under the directory of a package of the
    repository, is what [getConfigFromDir] returned for that directory, and
    has a file path: a package without a config file has no entry. *)
Theorem Config_from_package_configs dir s c s' :
  Config_from dir s = Ret c s' ->
  forall d lc, packageDirConfigs c !! d = Some lc ->
    is_Some (filePath lc)
    /\ (exists name pkg, (name, pkg) ∈ packagesByName (repoDetails c) /\ pd_dir pkg = d)
    /\ exists s1 s2, getConfigFromDir d s1 = Ret lc s2.
Proof.
  unfold Config_from. intros (root & s1 & E1 & E)%bind_Ret.
  destruct root as [root|].
  2:{ apply bind_Ret in E as (? & ? & _ & E). done. }
  apply bind_Ret in E as (pm & s2 & _ & E).
  apply bind_Ret in E as (_ & s3 & _ & E).
  apply bind_Ret in E as (repo & s4 & _ & E).
  apply bind_Ret in E as (rootCfg & s5 & _ & E).
  apply bind_Ret in E as ([loaded byDir] & s6 & Eloop & E).
  apply bind_Ret in E as (_ & s7 & _ & E).
  unfold ret in E. simplify_eq. simpl.
  set (I := fun acc : list string * gmap string LoadedConfig =>
              forall d lc, acc.2 !! d = Some lc ->
                is_Some (filePath lc)
                /\ (exists name pkg, (name, pkg) ∈ packagesByName repo /\ pd_dir pkg = d)
                /\ exists s1 s2, getConfigFromDir d s1 = Ret lc s2).
  apply (forM_Ret_invariant I) in Eloop; [exact Eloop| |].
  - intros [l1 m1] pkg sa [l2 m2] sb Hin HI (cfg & sc & Ec & Er)%bind_Ret.
    unfold ret in Er. destruct (filePath cfg) as [f|] eqn:Ef; simplify_eq; [|exact HI].
    intros d lc. simpl. destruct (decide (d = pd_dir pkg)) as [->|Hne].
    + rewrite lookup_insert_eq. intros [= <-]. split; [by rewrite Ef|]. split; [|eauto].
      apply list_elem_of_fmap in Hin as ([name pkg'] & -> & Hin). eauto.
    + rewrite lookup_insert_ne by done. apply HI.
  - intros d lc. simpl. by rewrite lookup_empty.
Qed.

(** X13: when no workspace root is found, [Config.from] never returns a
    configuration; with a logger whose [fail] reports and returns or exits
    non-zero, the process ends with a status other than 0 and no task is
    started. *)
Theorem Config_from_no_workspace_root dir s s1 :
  getWorkspaceRoot dir s = Ret None s1 ->
  (forall c s', Config_from dir s ≠ Ret c s')
  /\ (fail_reports ->
      exists code s', Config_from dir s = Exit code s'
                      /\ code ≠ 0 /\ spawned s' = spawned s1).
Proof.
  intros Hroot.
  assert (Config_from dir s
          = bind (logger_fail ("Could not find workspace root for dir '" +:+ dir +:+ "'") None)
                 (fun _ => process_exit 1) s1) as ->.
  { unfold Config_from. unfold bind at 1. rewrite Hroot. done. }
  split.
  - intros c s'. unfold bind. destruct (logger_fail _ _ s1); done.
  - intros Hfail. unfold bind, process_exit.
    destruct (Hfail ("Could not find workspace root for dir '" +:+ dir +:+ "'") None s1)
      as [(s' & -> & Hs)|(code & s' & -> & Hc & Hs)].
    + by exists 1, s'.
    + by exists code, s'.
Qed.

End ConfigExtras.

(** X14: a package with a config file of its own is configured by that
    file alone: a task that the file does not define gets every default
    (run type [dependent], no command, no [runsAfter], parallel, the
    default cache object), whatever the root configuration says about
    it. *)
Theorem task_missing_from_package_config (c : Config) (dir name : string)
    (lc : LoadedConfig) :
  packageDirConfigs c !! dir = Some lc ->
  lc_tasks (config lc) ≫= (fun ts => ts !! name) = None ->
  let tc := getTaskConfig c dir name in
  tc_runType tc = Dependent
  /\ tc_baseCommand tc = None
  /\ tc_runsAfter tc = []
  /\ tc_parallel tc = true
  /\ tc_cache tc
     = CacheObject
         {| cc_envInputs := []; cc_inheritsInputFromDependencies := true;
            cc_inputs := {| gp_include := ["**/*"]; gp_exclude := [] |};
            cc_outputs := {| gp_include := ["**/*"]; gp_exclude := [] |};
            cc_usesOutputFromDependencies := true |}.
Proof.
  intros Hlc Hnone tc. subst tc.
  unfold getTaskConfig, tc_runType, tc_baseCommand, tc_runsAfter, tc_parallel, tc_cache.
  simpl. rewrite Hlc, Hnone. done.
Qed.

Lemma key_split n1 n2 r1 r2 :
  hasChar colon n1 = false -> hasChar colon n2 = false ->
  n1 +:+ "::" +:+ r1 = n2 +:+ "::" +:+ r2 -> n1 = n2 /\ r1 = r2.
Proof.
  revert n2. induction n1 as [|a n1 IH]; intros [|b n2] H1 H2 E.
  - rewrite !str_app_nil_l in E. by simplify_eq.
  - rewrite str_app_nil_l, str_app_cons in E. simpl in H2.
    apply orb_false_iff in H2 as [Hb _]. apply bool_decide_eq_false in Hb.
    injection E as E _. by subst.
  - rewrite str_app_nil_l, str_app_cons in E. simpl in H1.
    apply orb_false_iff in H1 as [Ha _]. apply bool_decide_eq_false in Ha.
    injection E as E _. by subst.
  - rewrite !str_app_cons in E. injection E as -> E.
    simpl in H1, H2. apply orb_false_iff in H1 as [_ H1].
    apply orb_false_iff in H2 as [_ H2].
    destruct (IH n2 H1 H2 E) as [-> ->]. done.
Qed.

Section KeyExtras.
Context `{Platform}.

(** X15: task keys tell tasks apart as long as task names hold no colon:
    two calls of [getTaskKey] that return the same key were given absolute
    directories and the same task name, and, unless one of the directories
    is literally called [<rootDir>] relative to the workspace root, the same
    relative directory. *)
Theorem getTaskKey_injective {St} c d1 n1 d2 n2 (s s1 s2 : St) k :
  hasChar colon n1 = false -> hasChar colon n2 = false ->
  getTaskKey c d1 n1 s = Ret k s1 ->
  getTaskKey c d2 n2 s = Ret k s2 ->
  n1 = n2
  /\ path_isAbsolute d1 = true /\ path_isAbsolute d2 = true
  /\ (path_relative (workspaceRoot c) d1 ≠ "<rootDir>" ->
      path_relative (workspaceRoot c) d2 ≠ "<rootDir>" ->
      path_relative (workspaceRoot c) d1 = path_relative (workspaceRoot c) d2).
Proof.
  intros H1 H2. unfold getTaskKey.
  destruct (path_isAbsolute d1); [|done]. destruct (path_isAbsolute d2); [|done].
  unfold ret. intros [= <- <-] [= E _].
  apply key_split in E as [-> E]; [|done..]. split; [done|]. split; [done|]. split; [done|].
  intros N1 N2.
  destruct (decide (path_relative (workspaceRoot c) d1 = "")) as [E1|E1];
    destruct (decide (path_relative (workspaceRoot c) d2 = "")) as [E2|E2]; congruence.
Qed.

End KeyExtras.

(** ** More on computeManifest *)

Section ExtraFiles.
Context `{Platform}.

Lemma taskKeyOf_Ret config dir name (s s' : State) k :
  getTaskKey config dir name s = Ret k s' -> taskKeyOf config dir name = Some k.
Proof.
  unfold taskKeyOf, getTaskKey. destruct (path_isAbsolute dir); [|done].
  unfold ret. by intros [= <- _].
Qed.

Lemma runsAfterStep_extraFiles config task mc ex entry s mc' ex' s' :
  runsAfterStep config task (mc, ex) entry s = Ret (mc', ex') s' ->
  ex' = ex ++ option_list (outputsUsed config task (allTasks s) entry).
Proof.
  destruct entry as [name dc]. unfold runsAfterStep, outputsUsed. simpl.
  destruct (inheritsInput dc) eqn:Hi; simpl.
  - intros (k & s1 & Ek & E)%bind_Ret.
    pose proof (readonly_Ret _ _ _ _ (getTaskKey_readonly _ _ _) Ek) as ->.
    unfold runsAfterDir. rewrite (taskKeyOf_Ret _ _ _ _ _ _ Ek). simpl.
    unfold bind at 1, gets at 1 in E.
    destruct (allTasks s !! k) as [dep|]; simpl.
    + apply bind_Ret in E as (mc1 & s2 & _ & E). unfold ret in E.
      destruct (bool_decide (usesOutput dc = Some false)); simplify_eq; simpl;
        by rewrite ?app_nil_r.
    + destruct (bool_decide (tc_runType _ = TopLevel)); [done|].
      unfold ret in E. simplify_eq. destruct (bool_decide _); by rewrite app_nil_r.
  - destruct (bool_decide (usesOutput dc = Some false)) eqn:Hu.
    + unfold ret. intros [= <- <- <-]. by rewrite app_nil_r.
    + intros (k & s1 & Ek & E)%bind_Ret.
      pose proof (readonly_Ret _ _ _ _ (getTaskKey_readonly _ _ _) Ek) as ->.
      unfold runsAfterDir. rewrite (taskKeyOf_Ret _ _ _ _ _ _ Ek). simpl.
      unfold bind at 1, gets at 1 in E.
      destruct (allTasks s !! k) as [dep|]; simpl.
      * apply bind_Ret in E as (mc1 & s2 & _ & E). unfold ret in E. by simplify_eq.
      * destruct (bool_decide (tc_runType _ = TopLevel)); [done|].
        unfold ret in E. simplify_eq. by rewrite app_nil_r.
Qed.

Lemma runsAfterLoop_extraFiles config task entries mc ex s mc' ex' s' :
  forM (runsAfterStep config task) entries (mc, ex) s = Ret (mc', ex') s' ->
  ex' = ex ++ omap (outputsUsed config task (allTasks s)) entries.
Proof.
  revert mc ex. induction entries as [|entry entries IH]; intros mc ex E;
    cbn [forM] in E.
  - unfold ret in E. simplify_eq. simpl. by rewrite app_nil_r.
  - apply bind_Ret in E as ([mc1 ex1] & s1 & E1 & E2).
    pose proof (readonly_Ret _ _ _ _ (runsAfterStep_readonly _ _ _ _) E1) as ->.
    apply runsAfterStep_extraFiles in E1 as ->. apply IH in E2 as ->.
    rewrite <- app_assoc. f_equal. cbn [omap list_omap].
    destruct (outputsUsed config task (allTasks s) entry); done.
Qed.

(** X16: when the loop over [runsAfter] returns, [extraFiles] has grown by
    the output files of the upstream tasks in the order of the entries: one
    list for every entry whose [usesOutput] is not [false] and whose task
    node exists, none for the others. *)
Theorem runsAfter_extraFiles config task entries mc ex s mc' ex' s' :
  forM (runsAfterStep config task) entries (mc, ex) s = Ret (mc', ex') s' ->
  ex' = ex ++ omap (outputsUsed config task (allTasks s)) entries.
Proof. apply runsAfterLoop_extraFiles. Qed.

End ExtraFiles.

Section Outcomes.
Context `{Platform}.

Lemma same_but_manifests_refl s : same_but_manifests s s.
Proof. by repeat split. Qed.

Lemma same_but_manifests_trans s1 s2 s3 :
  same_but_manifests s1 s2 -> same_but_manifests s2 s3 -> same_but_manifests s1 s3.
Proof. unfold same_but_manifests. intuition congruence. Qed.

Lemma readonly_quiet {A} (c : M State A) : readonly c -> quiet c.
Proof.
  intros Hro s. specialize (Hro s).
  destruct (c s); subst; try done; apply same_but_manifests_refl.
Qed.

Lemma quiet_bind {A B} (c : M State A) (k : A -> M State B) :
  quiet c -> (forall a, quiet (k a)) -> quiet (bind c k).
Proof.
  intros Hc Hk s. unfold bind. specialize (Hc s).
  destruct (c s) as [a s1| |]; try done.
  specialize (Hk a s1). destruct (k a s1); try done;
    eapply same_but_manifests_trans; eauto.
Qed.

Lemma quiet_forM {A B} (f : A -> B -> M State A) (l : list B) (a : A) :
  (forall a x, quiet (f a x)) -> quiet (forM f l a).
Proof.
  intros Hf. revert a. induction l as [|x l IH]; intros a; simpl.
  - apply readonly_quiet, readonly_ret.
  - apply quiet_bind; [apply Hf|apply IH].
Qed.

Lemma fileStep_quiet config mc f : quiet (fileStep config mc f).
Proof.
  unfold fileStep. apply quiet_bind.
  - apply readonly_quiet. intros s. unfold statSync. by destruct (files s !! _).
  - intros fi. destruct (ManifestConstructor.copyLineOverIfMetaIsSame _ _ _ _) as [[|] mc1].
    + apply readonly_quiet, readonly_ret.
    + apply quiet_bind; [|intros; apply readonly_quiet, update_readonly].
      intros s. unfold hashFile, bind, modify, ret. by repeat split.
Qed.

Lemma built_bind {A} task s0 (c : M State A) (k : A -> M State (option bool)) s :
  same_but_manifests s0 s -> quiet c ->
  (forall a s1, same_but_manifests s0 s1 -> built task s0 (k a s1)) ->
  built task s0 (bind c k s).
Proof.
  intros Hs Hc Hk. unfold bind. specialize (Hc s).
  destruct (c s) as [a s1|msg s1|]; [| |done].
  - apply Hk. eapply same_but_manifests_trans; eauto.
  - simpl. eapply same_but_manifests_trans; eauto.
Qed.

Lemma buildManifest_built env config task cache mc s :
  built task s (buildManifest env config task cache mc s).
Proof.
  unfold buildManifest.
  apply built_bind; [apply same_but_manifests_refl| |].
  { apply readonly_quiet, readonly_forM. intros. apply runsAfterStep_readonly. }
  intros [mc1 ex] s1 S1.
  apply built_bind; [done|apply readonly_quiet, packageDepsPhase_readonly|].
  intros mc2 s2 S2.
  apply built_bind; [done| |].
  { apply readonly_quiet, readonly_forM. intros. apply envStep_readonly. }
  intros mc3 s3 S3.
  apply built_bind; [done| |].
  { apply readonly_quiet. unfold getInputFiles.
    destruct (tc_cache _); [auto with readonly|].
    apply readonly_bind; auto with readonly. }
  intros [fl|] s4 S4; [|exact S4].
  apply built_bind; [done| |].
  { apply quiet_forM. intros. apply fileStep_quiet. }
  intros mc5 s5 (Hf & Hd & Hsp & He & Ho & Ht).
  unfold bind, ManifestConstructor.end_, storeCacheKey, modify, ret. simpl.
  repeat (split; [done|]). rewrite Ht. eauto.
Qed.

Lemma mkdirs_subseteq n p ds : ds ⊆ mkdirs n p ds.
Proof.
  revert p ds. induction n as [|n IH]; intros p ds; simpl; [done|].
  destruct (decide (p ∈ ds)); [done|].
  etrans; [|apply IH]. set_solver.
Qed.

Lemma mkdirs_elem n p ds : p ∈ mkdirs (S n) p ds.
Proof.
  simpl. destruct (decide (p ∈ ds)); [done|].
  apply (mkdirs_subseteq n (path_dirname p) ({[p]} ∪ ds)). set_solver.
Qed.

Lemma ensureDir_dirs dir s :
  exists s', ensureDir dir s = Ret tt s'
             /\ same_but_dirs s s' /\ dir ∈ dirs s' /\ dirs s ⊆ dirs s'.
Proof.
  unfold ensureDir, existsSync, mkdirSync_recursive, bind, gets, modify, ret.
  destruct (bool_decide (dir ∈ dirs s)) eqn:E.
  - apply bool_decide_eq_true in E. exists s. split; [done|].
    split; [apply same_but_dirs_refl|]. done.
  - eexists. split; [reflexivity|]. split; [by repeat split|].
    split; [apply (mkdirs_elem (String.length dir) dir (dirs s))
           |apply (mkdirs_subseteq (S (String.length dir)) dir (dirs s))].
Qed.

Lemma prepareManifest_dirs task s :
  exists s', prepareManifest task s = Ret (initialBuilder task s) s'
    /\ same_but_dirs s s'
    /\ dirs s ⊆ dirs s'
    /\ path_dirname (getManifestPath (taskConfig task)) ∈ dirs s'
    /\ path_dirname (getNextManifestPath (taskConfig task)) ∈ dirs s'
    /\ (getDiffPath (taskConfig task) ≠ ""
        -> path_dirname (getDiffPath (taskConfig task)) ∈ dirs s').
Proof.
  destruct (prepareManifest_spec task s) as (s' & E & S).
  exists s'. split; [done|]. split; [done|].
  unfold prepareManifest in E.
  destruct (ensureDir_dirs (path_dirname (getManifestPath (taskConfig task))) s)
    as (s1 & E1 & _ & I1 & D1).
  destruct (ensureDir_dirs (path_dirname (getNextManifestPath (taskConfig task))) s1)
    as (s2 & E2 & _ & I2 & D2).
  unfold bind at 1 in E. rewrite E1 in E. unfold bind at 1 in E. rewrite E2 in E.
  unfold bind at 1 in E.
  destruct (decide (getDiffPath (taskConfig task) = "")) as [Ed|Ed].
  - unfold ret at 1 in E.
    unfold ManifestConstructor.new, bind, gets, ret in E. simplify_eq.
    split; [set_solver|]. split; [set_solver|]. split; [set_solver|done].
  - destruct (ensureDir_dirs (path_dirname (getDiffPath (taskConfig task))) s2)
      as (s3 & E3 & _ & I3 & D3).
    rewrite E3 in E.
    unfold ManifestConstructor.new, bind, gets, ret in E. simplify_eq.
    split; [set_solver|]. split; [set_solver|]. split; [set_solver|done].
Qed.

(** X17: a manifest build of a cached task never ends the process; however
    it ends, by returning or by throwing, no directory has gone and the
    input files and the started commands are as they were; and when it
    returns, the directories of the manifest, of the [.next] manifest and
    of the diff exist. *)
Theorem computeManifest_ensures_directories env config task cache s :
  tc_cache (taskConfig task) = CacheObject cache ->
  let o := computeManifest env config task s in
  (forall code s', o ≠ Exit code s')
  /\ dirs s ⊆ dirs (outcome_state o)
  /\ files (outcome_state o) = files s
  /\ spawned (outcome_state o) = spawned s
  /\ (forall r s', o = Ret r s' ->
        path_dirname (getManifestPath (taskConfig task)) ∈ dirs s'
        /\ path_dirname (getNextManifestPath (taskConfig task)) ∈ dirs s'
        /\ (getDiffPath (taskConfig task) ≠ ""
            -> path_dirname (getDiffPath (taskConfig task)) ∈ dirs s')).
Proof.
  intros Hc o. subst o.
  destruct (prepareManifest_dirs task s) as (s1 & E1 & S1 & D & I1 & I2 & I3).
  assert (computeManifest env config task s
          = buildManifest env config task cache (initialBuilder task s) s1) as ->.
  { unfold computeManifest. rewrite Hc. unfold bind at 1. by rewrite E1. }
  pose proof (buildManifest_built env config task cache (initialBuilder task s) s1) as Hb.
  destruct S1 as (Hf & _ & _ & _ & Hsp & _ & _ & _).
  destruct (buildManifest env config task cache (initialBuilder task s) s1)
    as [[d|] s2|msg s2|]; [| | |done]; simpl in Hb |- *.
  - destruct Hb as (Hf2 & Hd2 & Hsp2 & _).
    rewrite Hd2, Hf2, Hsp2. repeat (split; [done|]).
    intros r s' [= <- <-]. by rewrite Hd2.
  - destruct Hb as (Hf2 & Hd2 & Hsp2 & _).
    rewrite Hd2, Hf2, Hsp2. repeat (split; [done|]).
    intros r s' [= <- <-]. by rewrite Hd2.
  - destruct Hb as (Hf2 & Hd2 & Hsp2 & _).
    rewrite Hd2, Hf2, Hsp2. repeat (split; [done|]). done.
Qed.

(** X18: [computeManifest] touches one task node at most, the one of its
    own task, and only to store the cache key of a build that returned
    [didChange]; when it returns [null] or throws, every task node is as it
    was. *)
Theorem computeManifest_touches_own_node env config task s :
  match computeManifest env config task s with
  | Ret (Some _) s' =>
      exists h, allTasks s'
                = <[key task := set_inputManifestCacheKey h
                                  (default task (allTasks s !! key task))]> (allTasks s)
  | Ret None s' | Throw _ s' => allTasks s' = allTasks s
  | Exit _ _ => False
  end.
Proof.
  unfold computeManifest. destruct (tc_cache (taskConfig task)) as [|cache]; [done|].
  destruct (prepareManifest_spec task s) as (s1 & E1 & S1).
  unfold bind at 1. rewrite E1.
  pose proof (buildManifest_built env config task cache (initialBuilder task s) s1) as Hb.
  destruct S1 as (_ & _ & _ & _ & _ & _ & _ & Ht).
  destruct (buildManifest env config task cache (initialBuilder task s) s1)
    as [[d|] s2|msg s2|]; [| | |done]; simpl in Hb.
  - destruct Hb as (_ & _ & _ & _ & _ & h & Hh). exists h. by rewrite Hh, Ht.
  - destruct Hb as (_ & _ & _ & _ & _ & Hh). by rewrite Hh.
  - destruct Hb as (_ & _ & _ & _ & _ & Hh). by rewrite Hh.
Qed.

End Outcomes.

Section MoreUpstream.
Context `{Platform}.

Lemma nextUnread_elem mc p :
  nextUnread mc = Some p ->
  exists previous, previousLines mc = Some previous /\ p ∈ previous.
Proof.
  unfold nextUnread. destruct (previousLines mc) as [previous|]; [|done].
  intros Hp. exists previous. split; [done|].
  destruct (last (nextLines mc)).
  - apply find_some in Hp as [Hp _]. by apply list_elem_of_In.
  - destruct previous; simplify_eq/=. by left.
Qed.

(** X19: the output files of an upstream task are input files of the task
    that uses them.  When a manifest build returns, every output file of
    every [runsAfter] entry whose output is used exists and has its ['file']
    entry in the manifest that was written, with its current modification
    time; the hash of the entry is that of the content of the file, or the
    hash of an entry of the previous manifest for this file and this
    modification time. *)
Theorem upstream_outputs_are_inputs env config task cache s d s1 entry outs f :
  tc_cache (taskConfig task) = CacheObject cache ->
  computeManifest env config task s = Ret (Some d) s1 ->
  entry ∈ tc_runsAfter (taskConfig task) ->
  outputsUsed config task (allTasks s) entry = Some outs ->
  f ∈ outs ->
  exists lines fi l,
    manifests s1 !! getManifestPath (taskConfig task) = Some lines
    /\ files s !! fullPathOf config f = Some fi
    /\ l ∈ lines
    /\ ml_type l = "file" /\ ml_id l = f /\ ml_meta l = Some (f_mtimeMs fi)
    /\ (ml_hash l = hashContent (f_content fi)
        \/ exists previous p,
             manifests s !! getManifestPath (taskConfig task) = Some previous
             /\ p ∈ previous /\ sameEntry "file" f p = true
             /\ ml_meta p = Some (f_mtimeMs fi) /\ ml_hash l = ml_hash p).
Proof.
  intros Hc E Hin Hout Hf.
  destruct (computeManifest_Ret _ _ _ _ _ _ _ Hc E)
    as (mcR & ex & mcU & ER & EU & Hext & Hex & Hd & Hm & _).
  destruct (extends_initial _ _ _ _ Hext) as (_ & HprevU & HmpU & _).
  apply runsAfterLoop_extraFiles in ER. simpl in ER.
  set (mcE := push_lines (envEntry env <$> allEnvVars config task cache) mcU) in *.
  set (inputFiles := inputFileList config task cache (concat ex) (files s)) in *.
  assert (f ∈ inputFiles) as Hfin'.
  { unfold inputFiles, inputFileList.
    apply js_sort_elem_of, uniq_elem_of. rewrite !elem_of_app. right. right.
    apply list_elem_of_In, in_concat. exists outs.
    split; apply list_elem_of_In; [|done]. rewrite ER.
    apply list_elem_of_omap. eauto. }
  assert (f ∈ js_sort inputFiles) as Hfin by (by apply js_sort_elem_of).
  apply list_elem_of_lookup in Hfin as [i Hi].
  destruct (Hex f Hfin') as [fi Hfi].
  assert (forall g, g ∈ js_sort inputFiles -> is_Some (files s !! fullPathOf config g))
    as Hex'.
  { intros g Hg. apply Hex. by rewrite js_sort_elem_of in Hg. }
  pose proof (fileEntries_lookup config (files s) mcE (js_sort inputFiles) i f fi
                Hex' Hi Hfi) as Hl.
  set (mc := push_lines (take i (fileEntries config (files s) mcE (js_sort inputFiles)))
               mcE) in *.
  exists (nextLines mcE ++ fileEntries config (files s) mcE (js_sort inputFiles)), fi,
    (fileEntry mc f fi).
  split.
  { rewrite Hm, <- HmpU.
    match goal with
    | |- manifestAfter ?m _ !! _ = _ =>
        change (previousManifestPath mcU) with (previousManifestPath m)
    end.
    by rewrite manifestAfter_lookup. }
  split; [exact Hfi|]. split.
  { apply elem_of_app. right. by eapply list_elem_of_lookup_2. }
  split; [apply fileEntry_type|]. split; [apply fileEntry_id|].
  split; [apply fileEntry_meta|].
  unfold fileEntry, fastPath. destruct (nextUnread mc) as [p|] eqn:Hp; [|by left].
  destruct (sameEntry "file" f p && bool_decide (ml_meta p = Some (f_mtimeMs fi)))
    eqn:Hcond; [|by left].
  apply andb_true_iff in Hcond as [Hsame Hmeta]. apply bool_decide_eq_true in Hmeta.
  right. destruct (nextUnread_elem mc p Hp) as (previous & Hprev & Hpin).
  exists previous, p. split; [|done]. by rewrite <- HprevU.
Qed.

Lemma upstream_without_key_throws env config task cache s :
  tc_cache (taskConfig task) = CacheObject cache ->
  (exists otherTaskName depConfig k depTask,
      (otherTaskName, depConfig) ∈ tc_runsAfter (taskConfig task)
      /\ inheritsInput depConfig = true
      /\ getTaskKey config (runsAfterDir config task otherTaskName) otherTaskName s = Ret k s
      /\ allTasks s !! k = Some depTask
      /\ cacheKeyOf depTask = None)
  \/ (tc_runType (taskConfig task) ≠ Independent
      /\ cc_inheritsInputFromDependencies cache = true
      /\ exists pd deps packageName depPackage k depTask,
           packageDetails task = Some pd /\ pd_localDeps pd = Some deps
           /\ packageName ∈ deps
           /\ obj_lookup packageName (packagesByName (repoDetails config)) = Some depPackage
           /\ getTaskKey config (pd_dir depPackage) (taskName task) s = Ret k s
           /\ allTasks s !! k = Some depTask
           /\ cacheKeyOf depTask = None) ->
  exists msg s', computeManifest env config task s = Throw msg s' /\ same_but_dirs s s'.
Proof.
  intros Hc [(name & dc & k & dep & Hin & Hinh & Hk & Hdep & Hnone)
            |(Hrt & Hinherit & pd & deps & p & dp & k & dep
              & Hpd & Hdeps & Hin & Hdp & Hk & Hdep & Hnone)].
  - eapply computeManifest_runsAfter_throws; [exact Hc|exact Hin|].
    intros [mc ex] s' Hs'. unfold runsAfterStep. rewrite Hinh. simpl.
    unfold runsAfterDir in Hk. unfold bind at 1.
    rewrite (getTaskKey_state _ _ _ _ _ s' _ Hk).
    unfold bind at 1, gets. rewrite Hs', Hdep, Hnone. done.
  - unfold computeManifest. rewrite Hc.
    destruct (prepareManifest_spec task s) as (s1 & E1 & S1).
    unfold bind at 1. rewrite E1.
    unfold buildManifest. unfold bind at 1.
    pose proof (readonly_forM (runsAfterStep config task) (tc_runsAfter (taskConfig task))
      (initialBuilder task s, []) (fun a x => runsAfterStep_readonly config task a x) s1) as Hro.
    destruct (forM (runsAfterStep config task) _ _ s1) as [[mc1 ex] s2|msg s2|] eqn:E;
      [subst s2| subst s2; eauto |done].
    unfold bind at 1. unfold packageDepsPhase.
    rewrite bool_decide_eq_true_2 by done. rewrite Hinherit. simpl.
    unfold bind at 1.
    pose proof (upstreamTaskKeys_readonly config task s1) as Hro2.
    destruct (upstreamTaskKeys config task s1) as [keys s2|msg s2|] eqn:E2;
      [subst s2| subst s2; eauto |done].
    destruct (upstreamTaskKeys_elem config task pd deps p dp k keys s1 s1)
      as (ks & -> & Hks); auto.
    { eapply getTaskKey_state; eauto. }
    destruct (readonly_throws_inv (forM packageDepStep ks mc1) s1) as [msg Em].
    { apply readonly_forM. apply packageDepStep_readonly. }
    { eapply forM_throws; [apply packageDepStep_readonly|exact Hks|].
      intros mc. unfold packageDepStep, bind, gets.
      destruct S1 as (_&_&_&_&_&_&_&->). rewrite Hdep, Hnone. done. }
    rewrite Em. eauto.
Qed.

(** X20: an upstream task node whose [inputManifestCacheKey] is the empty
    string counts as having none: reached through a [runsAfter] entry with
    [inheritsInput] or through package-dependency inheritance, it makes
    [computeManifest] throw. *)
Theorem empty_cache_key_counts_as_missing env config task cache s :
  tc_cache (taskConfig task) = CacheObject cache ->
  (exists otherTaskName depConfig k depTask,
      (otherTaskName, depConfig) ∈ tc_runsAfter (taskConfig task)
      /\ inheritsInput depConfig = true
      /\ getTaskKey config (runsAfterDir config task otherTaskName) otherTaskName s = Ret k s
      /\ allTasks s !! k = Some depTask
      /\ inputManifestCacheKey depTask = Some "")
  \/ (tc_runType (taskConfig task) ≠ Independent
      /\ cc_inheritsInputFromDependencies cache = true
      /\ exists pd deps packageName depPackage k depTask,
           packageDetails task = Some pd /\ pd_localDeps pd = Some deps
           /\ packageName ∈ deps
           /\ obj_lookup packageName (packagesByName (repoDetails config)) = Some depPackage
           /\ getTaskKey config (pd_dir depPackage) (taskName task) s = Ret k s
           /\ allTasks s !! k = Some depTask
           /\ inputManifestCacheKey depTask = Some "") ->
  exists msg s', computeManifest env config task s = Throw msg s'.
Proof.
  intros Hc Hup.
  destruct (upstream_without_key_throws env config task cache s Hc) as (msg & s' & E & _);
    [|by eauto].
  destruct Hup as [(name & dc & k & dep & Hin & Hinh & Hk & Hdep & Hempty)
                  |(Hrt & Hinherit & pd & deps & p & dp & k & dep
                    & Hpd & Hdeps & Hin & Hdp & Hk & Hdep & Hempty)].
  - left. exists name, dc, k, dep. repeat (split; [done|]).
    unfold cacheKeyOf. by rewrite Hempty.
  - right. split; [done|]. split; [done|]. exists pd, deps, p, dp, k, dep.
    repeat (split; [done|]). unfold cacheKeyOf. by rewrite Hempty.
Qed.

Lemma getTaskKey_taskKeyOf config dir name (s : State) :
  match taskKeyOf config dir name with
  | Some k => getTaskKey config dir name s = Ret k s
  | None => throws (getTaskKey config dir name s) = true
  end.
Proof. unfold taskKeyOf, getTaskKey. by destruct (path_isAbsolute dir). Qed.

(** X21: with package-dependency inheritance in force, a local dependency
    that names no package of the repository, or a package whose directory
    is not absolute, makes [computeManifest] throw. *)
Theorem unusable_local_dependency_throws env config task cache pd deps p s :
  tc_cache (taskConfig task) = CacheObject cache ->
  tc_runType (taskConfig task) ≠ Independent ->
  cc_inheritsInputFromDependencies cache = true ->
  packageDetails task = Some pd -> pd_localDeps pd = Some deps ->
  p ∈ deps ->
  packageKey config (taskName task) p = None ->
  exists msg s', computeManifest env config task s = Throw msg s'.
Proof.
  intros Hc Hrt Hinherit Hpd Hdeps Hin Hnone.
  unfold computeManifest. rewrite Hc.
  destruct (prepareManifest_spec task s) as (s1 & E1 & S1).
  unfold bind at 1. rewrite E1.
  unfold buildManifest. unfold bind at 1.
  pose proof (readonly_forM (runsAfterStep config task) (tc_runsAfter (taskConfig task))
    (initialBuilder task s, []) (fun a x => runsAfterStep_readonly config task a x) s1) as Hro.
  destruct (forM (runsAfterStep config task) _ _ s1) as [[mc1 ex] s2|msg s2|] eqn:E;
    [subst s2| subst s2; eauto |done].
  unfold bind at 1. unfold packageDepsPhase.
  rewrite bool_decide_eq_true_2 by done. rewrite Hinherit. simpl.
  unfold bind at 1.
  destruct (readonly_throws_inv (upstreamTaskKeys config task) s1) as [msg Em].
  { apply upstreamTaskKeys_readonly. }
  { unfold upstreamTaskKeys. rewrite Hpd. simpl. rewrite Hdeps.
    set (body := fun (acc : list string) packageName => _).
    assert (throws (forM body deps [] s1) = true) as Ht.
    { eapply forM_throws; [|exact Hin|].
      - intros acc x. unfold body. destruct (obj_lookup x _); [|auto with readonly].
        apply readonly_bind; [apply getTaskKey_readonly|auto with readonly].
      - intros acc. unfold body. unfold packageKey in Hnone.
        destruct (obj_lookup p _) as [dp|]; [|done]. simpl in Hnone.
        pose proof (getTaskKey_taskKeyOf config (pd_dir dp) (taskName task) s1) as Hk.
        rewrite Hnone in Hk. unfold bind.
        destruct (getTaskKey config (pd_dir dp) (taskName task) s1); done. }
    unfold bind. destruct (forM body deps [] s1); done. }
  rewrite Em. eauto.
Qed.

Lemma keysLoop_spec config name l acc (s : State) :
  let body := fun (acc : list string) packageName =>
    match obj_lookup packageName (packagesByName (repoDetails config)) with
    | None => throw "TypeError: Cannot read properties of undefined (reading 'dir')"
    | Some depPackage =>
        k <- getTaskKey config (pd_dir depPackage) name ;;
        ret (acc ++ [k])
    end in
  if bool_decide (Forall (fun p => is_Some (packageKey config name p)) l)
  then forM body l acc s = Ret (acc ++ omap (packageKey config name) l) s
  else throws (forM body l acc s) = true.
Proof.
  intros body. revert acc. induction l as [|p l IH]; intros acc.
  - rewrite bool_decide_eq_true_2 by constructor. simpl. by rewrite app_nil_r.
  - cbn [forM].
    destruct (obj_lookup p (packagesByName (repoDetails config))) as [dp|] eqn:Ep.
    + pose proof (getTaskKey_taskKeyOf config (pd_dir dp) name s) as Hk.
      destruct (taskKeyOf config (pd_dir dp) name) as [k|] eqn:Ek.
      * assert (packageKey config name p = Some k) as Hp.
        { unfold packageKey. rewrite Ep. simpl. by rewrite Ek. }
        assert (body acc p s = Ret (acc ++ [k]) s) as Hb.
        { unfold body. rewrite Ep. unfold bind. by rewrite Hk. }
        unfold bind. rewrite Hb. specialize (IH (acc ++ [k])).
        destruct (bool_decide (Forall _ l)) eqn:El.
        -- apply bool_decide_eq_true in El.
           rewrite bool_decide_eq_true_2 by (constructor; [by rewrite Hp|done]).
           rewrite IH. cbn [omap list_omap]. rewrite Hp. by rewrite <- app_assoc.
        -- apply bool_decide_eq_false in El.
           rewrite bool_decide_eq_false_2; [exact IH|].
           intros HF. apply El. by inversion HF.
      * assert (packageKey config name p = None) as Hp.
        { unfold packageKey. rewrite Ep. simpl. by rewrite Ek. }
        rewrite bool_decide_eq_false_2.
        2:{ intros HF. inversion HF as [|?? Hp' _]; subst. rewrite Hp in Hp'.
            by destruct Hp'. }
        unfold bind, body. rewrite Ep. unfold bind.
        destruct (getTaskKey config (pd_dir dp) name s); done.
    + assert (packageKey config name p = None) as Hp.
      { unfold packageKey. by rewrite Ep. }
      rewrite bool_decide_eq_false_2.
      2:{ intros HF. inversion HF as [|?? Hp' _]; subst. rewrite Hp in Hp'.
          by destruct Hp'. }
      unfold bind, body. by rewrite Ep.
Qed.

(** X22: the upstream task keys do not depend on the order of
    [localDeps]: two tasks of the same name whose local dependencies are
    the same up to order get the same sorted keys. *)
Theorem upstreamTaskKeys_order_independent config task task' pd pd' deps deps' s r s1 :
  taskName task' = taskName task ->
  packageDetails task = Some pd -> pd_localDeps pd = Some deps ->
  packageDetails task' = Some pd' -> pd_localDeps pd' = Some deps' ->
  deps ≡ₚ deps' ->
  upstreamTaskKeys config task s = Ret r s1 ->
  upstreamTaskKeys config task' s = Ret r s1.
Proof.
  intros Hn Hpd Hdeps Hpd' Hdeps' Hperm.
  unfold upstreamTaskKeys. rewrite Hpd, Hpd'. simpl. rewrite Hdeps, Hdeps', Hn.
  pose proof (keysLoop_spec config (taskName task) deps [] s) as H1.
  pose proof (keysLoop_spec config (taskName task) deps' [] s) as H2.
  simpl in H1, H2. unfold bind at 1 3.
  destruct (bool_decide (Forall _ deps)) eqn:E.
  - apply bool_decide_eq_true in E. rewrite H1.
    rewrite bool_decide_eq_true_2 in H2 by (by rewrite <- Hperm).
    rewrite H2. unfold ret. intros [= <- <-]. do 2 f_equal.
    apply (Sorted_unique String.le); [apply js_sort_sorted..|].
    rewrite !js_sort_perm. by rewrite Hperm.
  - destruct (forM _ deps [] s); done.
Qed.

End MoreUpstream.

(** ** The further properties on concrete inputs *)

Lemma hashCodes_exact_in_double_witness :
  Forall (fun c => 0 <= c < 2 ^ 16) (charCodes "build::packages/core")
  /\ Z.of_nat (length (charCodes "build::packages/core")) <= 2 ^ 21
  /\ Z.abs (hashCodes (charCodes "build::packages/core"))
     <= Z.of_nat (length (charCodes "build::packages/core")) * (2 ^ 31 + 2 ^ 16)
  /\ Z.abs (hashCodes (charCodes "build::packages/core")) < 2 ^ 53.
Proof.
  assert (Forall (fun c => 0 <= c < 2 ^ 16) (charCodes "build::packages/core")) as H1.
  { apply Forall_forall. intros c Hc. vm_compute in Hc.
    repeat (apply elem_of_cons in Hc as [->|Hc]; [lia|]). by apply elem_of_nil in Hc. }
  assert (Z.of_nat (length (charCodes "build::packages/core")) <= 2 ^ 21) as H2
    by (vm_compute; discriminate).
  split; [exact H1|]. split; [exact H2|].
  exact (hashCodes_exact_in_double (charCodes "build::packages/core") H1 H2).
Defined.

Lemma prefixLines_linewise_witness :
  hasChar dollar "pack | " = false
  /\ hasChar carriageReturn ex_log = false
  /\ prefixLines "pack | " ex_log
     = String.concat (String newline "")
         ((fun l => "pack | " +:+ l) <$> split_newline ex_log).
Proof.
  split; [reflexivity|]. split; [reflexivity|].
  apply prefixLines_linewise; reflexivity.
Defined.


Lemma lastNonEmptyLine_is_last_non_blank_witness :
  allWhiteSpace ex_log = false
  /\ let r := lastNonEmptyLineIfPossible ex_log in
     exists before after,
       split_newline ex_log = before ++ r :: after
       /\ Forall (fun l => allWhiteSpace l = true) after
       /\ allWhiteSpace r = false
       /\ hasChar newline r = false.
Proof.
  split; [reflexivity|]. apply lastNonEmptyLine_is_last_non_blank. reflexivity.
Defined.

Lemma compareManifestTypes_consistent_witness :
  compareManifestTypes "env var" "file" <= 0
  /\ compareManifestTypes "file" "file" <= 0
  /\ compareManifestTypes "env var" "file" <= 0.
Proof.
  assert (compareManifestTypes "env var" "file" <= 0) as H1 by (vm_compute; discriminate).
  assert (compareManifestTypes "file" "file" <= 0) as H2 by (vm_compute; discriminate).
  split; [exact H1|]. split; [exact H2|].
  exact (proj2 (proj2 (compareManifestTypes_consistent "env var" "file" "file")) H1 H2).
Defined.

Lemma compareManifestTypes_unlisted_first_witness :
  ("upstream package inputs" ∉ order)
  /\ "env var" ∈ order
  /\ compareManifestTypes "upstream package inputs" "env var" = -1
  /\ compareManifestTypes "env var" "upstream package inputs" = 1.
Proof.
  assert ("upstream package inputs" ∉ order) as H1.
  { intros Hin. repeat (apply elem_of_cons in Hin as [Hin|Hin]; [discriminate|]).
    by apply elem_of_nil in Hin. }
  assert ("env var" ∈ order) as H2 by (do 2 right; left).
  split; [exact H1|]. split; [exact H2|].
  exact (compareManifestTypes_unlisted_first _ _ H1 H2).
Defined.

Lemma getConfigFromDir_returns_witness :
  let lc := {| config := emptyLazyConfig; filePath := Some "/w/pkg/lazy.config.json" |} in
  @getConfigFromDir ex_platform ex_pkg_host "/w/pkg" ex_pkg_config = Ret lc ex_pkg_config
  /\ ((@configFilesIn ex_platform "/w/pkg" ex_pkg_config = []
       /\ lc = {| filePath := None; config := emptyLazyConfig |}
       /\ ex_pkg_config = ex_pkg_config)
      \/ (exists n cfg,
            @configFilesIn ex_platform "/w/pkg" ex_pkg_config = [n]
            /\ n ∈ configFileNames
            /\ @loadConfigObject ex_platform ex_pkg_host "/w/pkg"
                 (@path_join ex_platform ["/w/pkg"; n]) ex_pkg_config
               = Ret (Some cfg) ex_pkg_config
            /\ lc = {| filePath := Some (@path_join ex_platform ["/w/pkg"; n]);
                       config := cfg |})).
Proof.
  intros lc.
  assert (@getConfigFromDir ex_platform ex_pkg_host "/w/pkg" ex_pkg_config
          = Ret lc ex_pkg_config) as E by (vm_compute; reflexivity).
  split; [exact E|].
  exact (@getConfigFromDir_returns ex_platform ex_pkg_host "/w/pkg" ex_pkg_config lc
           ex_pkg_config E).
Defined.

Lemma Config_from_package_configs_witness :
  exists c s',
    @Config_from ex_platform ex_pkg_host "/w" ex_pkg_config = Ret c s'
    /\ is_Some (packageDirConfigs c !! "/w/pkg")
    /\ forall d lc, packageDirConfigs c !! d = Some lc ->
         is_Some (filePath lc)
         /\ (exists name pkg, (name, pkg) ∈ packagesByName (repoDetails c) /\ pd_dir pkg = d)
         /\ exists s1 s2, @getConfigFromDir ex_platform ex_pkg_host d s1 = Ret lc s2.
Proof.
  eexists _, _. split; [vm_compute; reflexivity|]. split; [vm_compute; eauto|].
  eapply (@Config_from_package_configs ex_platform ex_pkg_host "/w" ex_pkg_config).
  vm_compute. reflexivity.
Defined.

Lemma Config_from_no_workspace_root_witness :
  @getWorkspaceRoot ex_rootless_host "/w" (ex_state []) = Ret None (ex_state [])
  /\ @fail_reports ex_rootless_host
  /\ (forall c s', @Config_from ex_platform ex_rootless_host "/w" (ex_state []) ≠ Ret c s')
  /\ exists code s',
       @Config_from ex_platform ex_rootless_host "/w" (ex_state []) = Exit code s'
       /\ code ≠ 0 /\ spawned s' = spawned (ex_state []).
Proof.
  assert (@fail_reports ex_rootless_host) as Hfail.
  { intros headline more s. left. eexists. split; reflexivity. }
  split; [reflexivity|]. split; [exact Hfail|].
  destruct (@Config_from_no_workspace_root ex_platform ex_rootless_host "/w"
              (ex_state []) (ex_state []) eq_refl) as [H1 H2].
  split; [exact H1|exact (H2 Hfail)].
Defined.

Lemma getTaskKey_injective_witness :
  hasChar colon "build" = false
  /\ @getTaskKey ex_platform unit ex_config "/w/pkg" "build" tt = Ret "build::pkg" tt
  /\ "build" = "build"
  /\ @path_isAbsolute ex_platform "/w/pkg" = true
  /\ @path_isAbsolute ex_platform "/w/pkg" = true
  /\ (@path_relative ex_platform (workspaceRoot ex_config) "/w/pkg" ≠ "<rootDir>" ->
      @path_relative ex_platform (workspaceRoot ex_config) "/w/pkg" ≠ "<rootDir>" ->
      @path_relative ex_platform (workspaceRoot ex_config) "/w/pkg"
      = @path_relative ex_platform (workspaceRoot ex_config) "/w/pkg").
Proof.
  assert (@getTaskKey ex_platform unit ex_config "/w/pkg" "build" tt = Ret "build::pkg" tt)
    as E by (vm_compute; reflexivity).
  split; [reflexivity|]. split; [exact E|].
  exact (@getTaskKey_injective ex_platform unit ex_config "/w/pkg" "build" "/w/pkg" "build"
           tt tt tt "build::pkg" eq_refl eq_refl E E).
Defined.

Lemma task_missing_from_package_config_witness :
  is_Some (packageDirConfigs ex_shadow_config !! "/w/pkg")
  /\ tc_cache (getTaskConfig ex_config "/w/pkg" "bundle") = CacheNone
  /\ let tc := getTaskConfig ex_shadow_config "/w/pkg" "bundle" in
     tc_runType tc = Dependent
     /\ tc_baseCommand tc = None
     /\ tc_runsAfter tc = []
     /\ tc_parallel tc = true
     /\ tc_cache tc
        = CacheObject
            {| cc_envInputs := []; cc_inheritsInputFromDependencies := true;
               cc_inputs := {| gp_include := ["**/*"]; gp_exclude := [] |};
               cc_outputs := {| gp_include := ["**/*"]; gp_exclude := [] |};
               cc_usesOutputFromDependencies := true |}.
Proof.
  split; [vm_compute; eauto|]. split; [vm_compute; reflexivity|].
  apply (task_missing_from_package_config ex_shadow_config "/w/pkg" "bundle"
           {| config := emptyLazyConfig; filePath := Some "/w/pkg/lazy.config.json" |}).
  - vm_compute. reflexivity.
  - reflexivity.
Defined.

Lemma runsAfter_extraFiles_witness :
  let mc := @initialBuilder ex_platform ex_pack ex_pack_state in
  let mc' := push_line {| ml_type := "upstream task inputs"; ml_id := "lint::pkg";
                          ml_hash := "k-lint"; ml_meta := None |} mc in
  forM (@runsAfterStep ex_platform ex_pack_config ex_pack)
    (tc_runsAfter (taskConfig ex_pack)) (mc, []) ex_pack_state
  = Ret (mc', [[]; ["reports/test.xml"]]) ex_pack_state
  /\ [[]; ["reports/test.xml"]]
     = [] ++ omap (@outputsUsed ex_platform ex_pack_config ex_pack (allTasks ex_pack_state))
               (tc_runsAfter (taskConfig ex_pack)).
Proof.
  intros mc mc'.
  assert (forM (@runsAfterStep ex_platform ex_pack_config ex_pack)
            (tc_runsAfter (taskConfig ex_pack)) (mc, []) ex_pack_state
          = Ret (mc', [[]; ["reports/test.xml"]]) ex_pack_state) as E
    by (vm_compute; reflexivity).
  split; [exact E|].
  exact (@runsAfter_extraFiles ex_platform ex_pack_config ex_pack _ _ _ _ _ _ _ E).
Defined.

Lemma upstream_outputs_are_inputs_witness :
  let s1 := outcome_state (@computeManifest ex_platform ∅ ex_pack_config ex_pack ex_pack_state) in
  tc_cache (taskConfig ex_pack) = CacheObject (cache_of ex_pack)
  /\ @computeManifest ex_platform ∅ ex_pack_config ex_pack ex_pack_state = Ret (Some true) s1
  /\ ("test", uses_output) ∈ tc_runsAfter (taskConfig ex_pack)
  /\ @outputsUsed ex_platform ex_pack_config ex_pack (allTasks ex_pack_state)
       ("test", uses_output) = Some ["reports/test.xml"]
  /\ exists lines fi l,
       manifests s1 !! @getManifestPath ex_platform (taskConfig ex_pack) = Some lines
       /\ files ex_pack_state !! @fullPathOf ex_platform ex_pack_config "reports/test.xml"
          = Some fi
       /\ l ∈ lines
       /\ ml_type l = "file" /\ ml_id l = "reports/test.xml"
       /\ ml_meta l = Some (f_mtimeMs fi)
       /\ (ml_hash l = @hashContent ex_platform (f_content fi)
           \/ exists previous p,
                manifests ex_pack_state !! @getManifestPath ex_platform (taskConfig ex_pack)
                = Some previous
                /\ p ∈ previous /\ sameEntry "file" "reports/test.xml" p = true
                /\ ml_meta p = Some (f_mtimeMs fi) /\ ml_hash l = ml_hash p).
Proof.
  intros s1.
  assert (tc_cache (taskConfig ex_pack) = CacheObject (cache_of ex_pack)) as Hc
    by reflexivity.
  assert (@computeManifest ex_platform ∅ ex_pack_config ex_pack ex_pack_state
          = Ret (Some true) s1) as E by (vm_compute; reflexivity).
  assert (("test", uses_output) ∈ tc_runsAfter (taskConfig ex_pack)) as Hin
    by (right; left).
  assert (@outputsUsed ex_platform ex_pack_config ex_pack (allTasks ex_pack_state)
            ("test", uses_output) = Some ["reports/test.xml"]) as Hout
    by (vm_compute; reflexivity).
  split; [exact Hc|]. split; [exact E|]. split; [exact Hin|]. split; [exact Hout|].
  exact (@upstream_outputs_are_inputs ex_platform ∅ ex_pack_config ex_pack
           (cache_of ex_pack) ex_pack_state true s1 ("test", uses_output)
           ["reports/test.xml"] "reports/test.xml" Hc E Hin Hout ltac:(left)).
Defined.

Lemma computeManifest_ensures_directories_witness :
  tc_cache (taskConfig ex_pack) = CacheObject (cache_of ex_pack)
  /\ let o := @computeManifest ex_platform ∅ ex_pack_config ex_pack ex_pack_state in
     (forall code s', o ≠ Exit code s')
     /\ dirs ex_pack_state ⊆ dirs (outcome_state o)
     /\ files (outcome_state o) = files ex_pack_state
     /\ spawned (outcome_state o) = spawned ex_pack_state
     /\ (forall r s', o = Ret r s' ->
           @path_dirname ex_platform (@getManifestPath ex_platform (taskConfig ex_pack))
           ∈ dirs s'
           /\ @path_dirname ex_platform
                (@getNextManifestPath ex_platform (taskConfig ex_pack)) ∈ dirs s'
           /\ (@getDiffPath ex_platform (taskConfig ex_pack) ≠ ""
               -> @path_dirname ex_platform (@getDiffPath ex_platform (taskConfig ex_pack))
                  ∈ dirs s')).
Proof.
  split; [reflexivity|].
  apply (@computeManifest_ensures_directories ex_platform ∅ ex_pack_config ex_pack
           (cache_of ex_pack) ex_pack_state).
  reflexivity.
Defined.

Lemma empty_cache_key_counts_as_missing_witness :
  let s := ex_state [ex_build; with_key "" ex_test; with_key "k-lint" ex_lint] in
  tc_cache (taskConfig ex_build) = CacheObject (cache_of ex_build)
  /\ inputManifestCacheKey (with_key "" ex_test) = Some ""
  /\ exists msg s',
       @computeManifest ex_platform ∅ ex_config ex_build s = Throw msg s'.
Proof.
  intros s. split; [reflexivity|]. split; [reflexivity|].
  apply (@empty_cache_key_counts_as_missing ex_platform ∅ ex_config ex_build
           (cache_of ex_build)); [reflexivity|].
  left. exists "test", inherits, "test::pkg", (with_key "" ex_test).
  split; [left|]. split; [reflexivity|]. split; [reflexivity|].
  split; [vm_compute; reflexivity|reflexivity].
Defined.

Lemma unusable_local_dependency_throws_witness :
  let task := ex_dependent ["a"; "ghost"] in
  let s := ex_state [task] in
  tc_cache (taskConfig task) = CacheObject (cache_of task)
  /\ tc_runType (taskConfig task) ≠ Independent
  /\ @packageKey ex_platform ex_two_packages (taskName task) "ghost" = None
  /\ exists msg s',
       @computeManifest ex_platform ∅ ex_two_packages task s = Throw msg s'.
Proof.
  intros task s.
  assert (tc_runType (taskConfig task) ≠ Independent) as Hrt by discriminate.
  split; [reflexivity|]. split; [exact Hrt|]. split; [reflexivity|].
  apply (@unusable_local_dependency_throws ex_platform ∅ ex_two_packages task
           (cache_of task)
           {| pd_name := "pkg"; pd_dir := "/w/pkg"; pd_localDeps := Some ["a"; "ghost"] |}
           ["a"; "ghost"] "ghost" s);
    [reflexivity|exact Hrt|reflexivity|reflexivity|reflexivity|right; left|reflexivity].
Defined.

Lemma upstreamTaskKeys_order_independent_witness :
  ["b"; "a"] ≡ₚ ["a"; "b"]
  /\ @upstreamTaskKeys ex_platform ex_two_packages (ex_dependent ["b"; "a"]) (ex_state [])
     = Ret (Some ["lint::a"; "lint::b"]) (ex_state [])
  /\ @upstreamTaskKeys ex_platform ex_two_packages (ex_dependent ["a"; "b"]) (ex_state [])
     = Ret (Some ["lint::a"; "lint::b"]) (ex_state []).
Proof.
  assert (["b"; "a"] ≡ₚ ["a"; "b"]) as Hp by apply perm_swap.
  assert (@upstreamTaskKeys ex_platform ex_two_packages (ex_dependent ["b"; "a"])
            (ex_state [])
          = Ret (Some ["lint::a"; "lint::b"]) (ex_state [])) as E
    by (vm_compute; reflexivity).
  split; [exact Hp|]. split; [exact E|].
  exact (@upstreamTaskKeys_order_independent ex_platform ex_two_packages
           (ex_dependent ["b"; "a"]) (ex_dependent ["a"; "b"]) _ _ _ _ _ _ _
           eq_refl eq_refl eq_refl eq_refl eq_refl Hp E).
Defined.
